(** * hwck: the geocode resolvers and the hybrid miner, embedded and verified

    Sources embedded here:
    - [Geocoding/gecoding-base.py]: [normalize], [generate_queries],
      [geocode_row] and the driver loop over the data frame (ladder mode).
    - [Validation Mining/webscraper-nomatim-english.py]:
      [KERALA_DISTRICTS], [extract_location_from_text], [get_lat_lon]
      (single-query mode) and phases C and D of [run_hybrid_miner].

    Conventions.
    - A Python [str] is read as a [string] whose characters are code points
      below 256; [str.lower], [str.isspace] and the regular expression class
      [\s] are given exactly on that range.
    - A Python [float] is a primitive binary64 [float]; the bounds test of
      [get_lat_lon] is the IEEE comparison.
    - A Python dict used as a cache is a [gmap string _].
    - The geocoding service, the entity tagger, the iteration order of a
      Python set, the hexagonal index and the sort of pandas are oracles:
      section variables or parameters, so every theorem holds for all of
      them.  The reply of the geocoding service may depend on the whole
      history of earlier calls. *)

From Stdlib Require Import Floats.PrimFloat Floats.FloatOps Floats.FloatAxioms.
From Stdlib Require Import Ascii String.
From stdpp Require Import base option list sorting gmap strings.

(** ** Python strings *)

Module PyStr.

Definition LF : ascii := "010"%char.
Definition SP : ascii := " "%char.

(** [str.isspace] of one code point below 256: TAB..CR, FS..US, space,
    NEL (133) and NBSP (160).  The class [\s] of [re] is the same set. *)
Definition isspace (c : ascii) : bool :=
  let n := nat_of_ascii c in
  (Nat.leb 9 n && Nat.leb n 13) || (Nat.leb 28 n && Nat.leb n 32)
  || Nat.eqb n 133 || Nat.eqb n 160.

(** [str.lower] of one code point below 256: A..Z and the Latin-1 capitals
    (192..222 but the multiplication sign 215) move up by 32. *)
Definition lower_char (c : ascii) : ascii :=
  let n := nat_of_ascii c in
  if (Nat.leb 65 n && Nat.leb n 90)
     || (Nat.leb 192 n && Nat.leb n 222 && negb (Nat.eqb n 215))
  then ascii_of_nat (n + 32) else c.

Fixpoint lower (s : string) : string :=
  match s with
  | "" => ""
  | String c r => String (lower_char c) (lower r)
  end.

Fixpoint lstrip (s : string) : string :=
  match s with
  | "" => ""
  | String c r => if isspace c then lstrip r else s
  end.

Fixpoint rstrip (s : string) : string :=
  match s with
  | "" => ""
  | String c r =>
      match rstrip r with
      | "" => if isspace c then "" else String c ""
      | r' => String c r'
      end
  end.

(** [s.strip()] *)
Definition strip (s : string) : string := rstrip (lstrip s).

(** [needle in hay] *)
Fixpoint str_in (needle hay : string) : bool :=
  String.prefix needle hay ||
  match hay with
  | "" => false
  | String _ r => str_in needle r
  end.

(** [s[:n]] *)
Definition take (n : nat) (s : string) : string := String.substring 0 n s.

(** truthiness of a [str] *)
Definition truthy (s : string) : bool := negb (String.eqb s "").

(** an ASCII digit *)
Definition isdigit (c : ascii) : bool :=
  let n := nat_of_ascii c in Nat.leb 48 n && Nat.leb n 57.

(** every character of [s] satisfies [p] *)
Fixpoint all (p : ascii -> bool) (s : string) : bool :=
  match s with
  | "" => true
  | String c r => p c && all p r
  end.

(** [re.sub(r"\(.*?\)", "", s)].  [closes r]: read from just after an
    opening bracket, the lazy [.*?] reaches a closing bracket, that is, a
    [)] comes before any line feed ([.] matches everything but LF).
    [re_sub_brackets inside s] scans left to right; [inside] tells that the
    scan is within a match that is being deleted. *)
Fixpoint closes (s : string) : bool :=
  match s with
  | "" => false
  | String c r =>
      if Ascii.eqb c ")" then true
      else if Ascii.eqb c LF then false
      else closes r
  end.

Fixpoint re_sub_brackets (inside : bool) (s : string) : string :=
  match s with
  | "" => ""
  | String c r =>
      if inside then
        if Ascii.eqb c ")" then re_sub_brackets false r
        else re_sub_brackets true r
      else if Ascii.eqb c "(" && closes r then re_sub_brackets true r
      else String c (re_sub_brackets false r)
  end.

(** [re.sub(r"[-/]", " ", s)] *)
Definition hybrid_char (c : ascii) : ascii :=
  if Ascii.eqb c "-" || Ascii.eqb c "/" then SP else c.

Fixpoint re_sub_hybrids (s : string) : string :=
  match s with
  | "" => ""
  | String c r => String (hybrid_char c) (re_sub_hybrids r)
  end.

(** [re.sub(r"\s+", " ", s)]; [prev] tells that the previous character
    belonged to the run of white space being replaced. *)
Fixpoint re_sub_spaces (prev : bool) (s : string) : string :=
  match s with
  | "" => ""
  | String c r =>
      if isspace c then
        if prev then re_sub_spaces true r
        else String SP (re_sub_spaces true r)
      else String c (re_sub_spaces false r)
  end.

(** Shapes of strings that the stages of the normalizer produce. *)

Definition no_lf (s : string) : bool :=
  all (fun c => negb (Ascii.eqb c LF)) s.

Definition no_close (s : string) : bool :=
  all (fun c => negb (Ascii.eqb c ")")) s.

(** no opening bracket has a closing bracket anywhere after it *)
Fixpoint unpaired (s : string) : bool :=
  match s with
  | "" => true
  | String c r => (negb (Ascii.eqb c "(") || no_close r) && unpaired r
  end.

(** the only white space is single blanks, none right after [prev] *)
Fixpoint spaced (prev : bool) (s : string) : bool :=
  match s with
  | "" => true
  | String c r =>
      if isspace c then Ascii.eqb c SP && negb prev && spaced true r
      else spaced false r
  end.

Definition no_underscore (s : string) : bool :=
  all (fun c => negb (Ascii.eqb c "_")) s.

Definition lowered (s : string) : bool :=
  all (fun c => Ascii.eqb (lower_char c) c) s.

Definition unhyphenated (s : string) : bool :=
  all (fun c => Ascii.eqb (hybrid_char c) c) s.

(** empty, or starting with something that is not white space *)
Definition head_ok (s : string) : bool :=
  match s with
  | "" => true
  | String c _ => negb (isspace c)
  end.

End PyStr.

(** ** Effects: a state monad with exceptions

    [M S A] is a computation over a mutable world [S] that either returns an
    [A] or raises; the world reached at the moment of the raise is kept,
    because what was written to a cache before an exception stays written. *)

Module Eff.

Inductive outcome (A : Type) : Type :=
| Return (a : A)
| Raise.
Arguments Return {A} a.
Arguments Raise {A}.

Definition M (S A : Type) : Type := S -> outcome A * S.

Definition ret {S A} (a : A) : M S A := fun st => (Return a, st).

Definition bind {S A B} (m : M S A) (k : A -> M S B) : M S B :=
  fun st =>
    match m st with
    | (Return a, st') => k a st'
    | (Raise, st') => (Raise, st')
    end.

Definition gets {S A} (f : S -> A) : M S A := fun st => (Return (f st), st).

Definition modify {S} (f : S -> S) : M S unit := fun st => (Return tt, f st).

(** [try: body / except: handler] with a bare [except] *)
Definition try_except {S A} (body handler : M S A) : M S A :=
  fun st =>
    match body st with
    | (Return a, st') => (Return a, st')
    | (Raise, st') => handler st'
    end.

Module Notations.
Notation "'let*' x ':=' m 'in' k" := (bind m (fun x => k))
  (at level 10, x name, m at level 100, k at level 200).
End Notations.

End Eff.

(** ** The geocoding service, as both scripts see it *)

Module Service.

(** What one call of the rate-limited geocoder, [geocode(q)] in one script
    and [geocode_service(q)] in the other, gives back to the script: a
    location with its [latitude] and [longitude], [None], or an exception.
    What the rate limiter does inside the call (waiting, retrying, turning a
    service error into [None]) is part of the call: a failure that it turns
    into [None] is [NoMatch] here, an exception that it lets through is
    [Failure]. *)
Inductive reply : Type :=
| Located (latitude longitude : float)
| NoMatch
| Failure.

(** The service: its reply to a query may depend on every query it was
    sent before. *)
Definition oracle : Type := list string -> string -> reply.

Definition coords : Type := (float * float)%type.

End Service.

(** ** Geocoding/gecoding-base.py *)

Module Geocoding.
Import PyStr Eff Eff.Notations Service.

(** [normalize(text)]; [None] is a missing cell ([pd.isna]). *)
Definition normalize (text : option string) : string :=
  match text with
  | None => ""
  | Some text =>
      let text := lower text in
      let text := re_sub_brackets false text in
      let text := re_sub_hybrids text in
      let text := re_sub_spaces false text in
      strip text
  end.

(** what [normalize] holds just before its final [strip] *)
Definition staged (x : string) : string :=
  re_sub_spaces false (re_sub_hybrids (re_sub_brackets false (lower x))).

(** the columns of a row of the data frame that the script reads *)
Record row : Type := {
  place : option string;
  range : option string;
  district : option string
}.

Definition generate_queries (r : row) : list string :=
  let place := normalize (place r) in
  let range_ := normalize (range r) in
  let district := normalize (district r) in
  [ place +:+ ", " +:+ range_ +:+ ", " +:+ district +:+ ", Kerala, India";
    place +:+ ", " +:+ district +:+ ", Kerala, India";
    place +:+ ", Kerala, India";
    range_ +:+ ", " +:+ district +:+ ", Kerala, India";
    district +:+ ", Kerala, India" ].

(** the query of tier [n], counted from 0 *)
Definition tier (n : nat) (r : row) : string :=
  nth n (generate_queries r) "".

(** The module-level [cache] (a value is [(lat, lon)] or [(None, None)]),
    and the queries sent to the service so far, oldest first. *)
Record state : Type := {
  cache : gmap string (option coords);
  calls : list string
}.

Definition init : state := {| cache := ∅; calls := [] |}.

Definition cache_set (q : string) (v : option coords) (st : state) : state :=
  {| cache := <[q := v]> (cache st); calls := calls st |}.

(** What the run keeps true of its world: no query was sent twice, and
    every query that was sent has a cache entry. *)
Definition consistent (st : state) : Prop :=
  NoDup (calls st) /\ forall q, q ∈ calls st -> is_Some (cache st !! q).

(** What a resolution leaves behind: a consistent world when it returns;
    when it raises, the failed query was sent but has no entry yet. *)
Definition kept {A} (r : outcome A * state) : Prop :=
  match r with
  | (Return _, st') => consistent st'
  | (Raise, st') => NoDup (calls st')
  end.

(** every entry of the cache is what the service replied to that very
    query at the point of the run where the query was sent: the queries
    sent before it are [h], and the log of the run goes on with [q] *)
Definition genuine (service : oracle) (st : state) : Prop :=
  forall q v, cache st !! q = Some v ->
    exists h later,
      calls st = h ++ q :: later /\
      service h q = match v with
                    | Some (lat, lon) => Located lat lon
                    | None => NoMatch
                    end.

Section Ladder.
Variable service : oracle.

(** [geocode(q)] *)
Definition geocode (q : string) : M state (option coords) :=
  fun st =>
    let st' := {| cache := cache st; calls := calls st ++ [q] |} in
    match service (calls st) q with
    | Located lat lon => (Return (Some (lat, lon)), st')
    | NoMatch => (Return None, st')
    | Failure => (Raise, st')
    end.

(** the [for q in queries] loop of [geocode_row] *)
Fixpoint try_queries (queries : list string) : M state (option coords) :=
  match queries with
  | [] => ret None
  | q :: rest =>
      if negb (truthy (strip q)) then try_queries rest
      else
        let* c := gets cache in
        match c !! q with
        | Some (Some (lat, lon)) => ret (Some (lat, lon))
        | Some None => try_queries rest
        | None =>
            let* loc := geocode q in
            match loc with
            | Some (lat, lon) =>
                let* _ := modify (cache_set q (Some (lat, lon))) in
                ret (Some (lat, lon))
            | None =>
                let* _ := modify (cache_set q None) in
                try_queries rest
            end
        end
  end.

Definition geocode_row (r : row) : M state (option coords) :=
  try_queries (generate_queries r).

(** [[geocode_row(i, row) for i, row in df.iterrows()]]: the list
    comprehension of the driver, that is, every call of the run to the
    service and every write to the cache.  What pandas then does with the
    list (the assignment to [df[["lat", "long"]]]) is not part of it. *)
Fixpoint geocode_rows (df : list row) : M state (list (option coords)) :=
  match df with
  | [] => ret []
  | r :: rest =>
      let* c := geocode_row r in
      let* cs := geocode_rows rest in
      ret (c :: cs)
  end.

End Ladder.

End Geocoding.

(** ** Validation Mining/webscraper-nomatim-english.py *)

Module Miner.
Import PyStr Eff Eff.Notations Service.

Definition KERALA_DISTRICTS : list string :=
  [ "Wayanad"; "Idukki"; "Palakkad"; "Kannur"; "Pathanamthitta";
    "Kollam"; "Kottayam"; "Thrissur"; "Malappuram"; "Kozhikode"; "Kasargod";
    "Thiruvananthapuram" ].

(** [LOCATION_CACHE] (a value is an accepted [(latitude, longitude)]), and
    the queries sent to the service so far, oldest first. *)
Record state : Type := {
  LOCATION_CACHE : gmap string coords;
  calls : list string
}.

Definition init : state := {| LOCATION_CACHE := ∅; calls := [] |}.

Definition cache_set (key : string) (v : coords) (st : state) : state :=
  {| LOCATION_CACHE := <[key := v]> (LOCATION_CACHE st); calls := calls st |}.

(** [x in xs] for a list of strings *)
Definition mem (x : string) (xs : list string) : bool :=
  existsb (String.eqb x) xs.

(** [max(xs, key=key)]: the first element whose key is largest; [best] is
    the largest so far. *)
Fixpoint max_from (key : string -> nat) (best : string) (xs : list string)
  : string :=
  match xs with
  | [] => best
  | x :: rest =>
      if Nat.ltb (key best) (key x) then max_from key x rest
      else max_from key best rest
  end.

Definition py_max (key : string -> nat) (xs : list string) : option string :=
  match xs with
  | [] => None
  | x :: rest => Some (max_from key x rest)
  end.

(** [candidates.count(x)] *)
Definition count (candidates : list string) (x : string) : nat :=
  List.length (List.filter (String.eqb x) candidates).

(** [f"{district_hint}"]: an absent hint is printed as [None]. *)
Definition format_hint (district_hint : option string) : string :=
  match district_hint with
  | Some d => d
  | None => "None"
  end.

(** [district_hint if district_hint else ''] *)
Definition hint_or_empty (district_hint : option string) : string :=
  match district_hint with
  | Some d => if truthy d then d else ""
  | None => ""
  end.

(** [key = f"{location_name}_{district_hint}"] *)
Definition cache_key (location_name : string) (district_hint : option string)
  : string :=
  location_name +:+ "_" +:+ format_hint district_hint.

(** The key as the specification words it: the place, the separator, and the
    district hint or the empty string when the hint is absent. *)
Definition spec_key (place : string) (district : option string) : string :=
  place +:+ "_" +:+ default "" district.

(** [search_query] *)
Definition search_query (location_name : string)
  (district_hint : option string) : string :=
  location_name +:+ ", " +:+ hint_or_empty district_hint +:+ ", Kerala".

(** [8.0 < loc.latitude < 13.0] *)
Definition in_bounds (latitude : float) : bool :=
  PrimFloat.ltb 8 latitude && PrimFloat.ltb latitude 13.

(** truthiness of a [float] *)
Definition float_truthy (x : float) : bool := negb (PrimFloat.eqb x 0).

(** every cached pair has its latitude within the bounds *)
Definition bounded (st : state) : Prop :=
  map_Forall (fun _ (v : coords) => in_bounds (fst v) = true)
    (LOCATION_CACHE st).

(** every cached pair is what the service replied to the search query of
    the request the key was built from, at the point of the run where that
    query was sent: the queries sent before it are [h] *)
Definition genuine (service : oracle) (st : state) : Prop :=
  forall key lat lon, LOCATION_CACHE st !! key = Some (lat, lon) ->
    exists location_name district_hint h later,
      key = cache_key location_name district_hint /\
      calls st = h ++ search_query location_name district_hint :: later /\
      service h (search_query location_name district_hint) = Located lat lon.

(** The scan as the specification words it: an ordered list of keywords
    (with the tag each stands for), looked for in the lower-cased text; the
    first entry with a keyword in the text gives the tag, and [Unknown] is
    the tag when there is none. *)
Definition SPECIES_KEYWORDS : list (list string * string) :=
  [ (["elephant"], "Elephant"); (["tiger"], "Tiger"); (["boar"], "Wild Boar");
    (["gaur"; "bison"], "Gaur"); (["leopard"], "Leopard") ].

Definition keyword_scan (text : string) : string :=
  match
    List.find (fun entry => existsb (fun k => str_in k (lower text)) (fst entry))
      SPECIES_KEYWORDS
  with
  | Some entry => snd entry
  | None => "Unknown"
  end.

(** The species chain of [run_hybrid_miner]. *)
Definition species_of (text : string) : string :=
  let species := "Unknown" in
  let text_lower := lower text in
  if str_in "elephant" text_lower then "Elephant"
  else if str_in "tiger" text_lower then "Tiger"
  else if str_in "boar" text_lower then "Wild Boar"
  else if str_in "gaur" text_lower || str_in "bison" text_lower then "Gaur"
  else if str_in "leopard" text_lower then "Leopard"
  else species.

(** an entry of [all_events] *)
Record event : Type := {
  text : string;
  date : string;
  source_type : string;
  url : string
}.

(** an entry of [final_data] *)
Record record : Type := {
  event_date : string;
  hex_id : string;
  latitude : float;
  longitude : float;
  location_name : string;
  district_context : option string;
  species : string;
  rec_source_type : string;
  description : string;
  rec_url : string
}.

(** the [ignore] list of [extract_location_from_text] *)
Definition IGNORE : list string :=
  [ "Kerala"; "India"; "State"; "District"; "Forest"; "South"; "North";
    "West"; "East"; "Wild"; "News" ].

(** [candidates] of [extract_location_from_text]: the texts of the entities
    labelled GPE, without the ignored words and the district names *)
Definition candidates_of (nlp : string -> list (string * string))
  (text : string) : list string :=
  List.filter
    (fun l => negb (mem l IGNORE) && negb (mem l KERALA_DISTRICTS))
    (List.map fst
       (List.filter (fun ent => String.eqb (snd ent) "GPE") (nlp text))).

(** a date as the pipeline writes it: the sentinel, or a text that starts
    with a digit (what [strftime] gives for year, month and day) *)
Definition dated (d : string) : bool :=
  String.eqb d "Unknown" ||
  match d with
  | String c _ => isdigit c
  | "" => false
  end.

(** what a record appended for the event [ev] carries *)
Definition tagged_from (ev : event) (r : record) : Prop :=
  species r = species_of (text ev) /\
  description r = take 100 (text ev) /\
  event_date r = date ev /\
  float_truthy (latitude r) = true.

Section Pipeline.
(** [doc.ents] of [nlp(text)], each as [(ent.text, ent.label_)] *)
Variable nlp : string -> list (string * string).
(** the order in which [set(candidates)] is iterated; an empty answer,
    which no set built from a non-empty list gives, is read as no
    candidate *)
Variable set_iter : list string -> list string.
(** [geocode_service] *)
Variable service : oracle.
(** [h3.latlng_to_cell] *)
Variable latlng_to_cell : float -> float -> nat -> string.

Definition extract_location_from_text (text : string)
  : option string * option string :=
  if negb (truthy text) then (None, None)
  else
    let doc := nlp text in
    let locs :=
      List.map fst (List.filter (fun ent => String.eqb (snd ent) "GPE") doc) in
    let ignore :=
      [ "Kerala"; "India"; "State"; "District"; "Forest"; "South"; "North";
        "West"; "East"; "Wild"; "News" ] in
    let candidates :=
      List.filter
        (fun l => negb (mem l ignore) && negb (mem l KERALA_DISTRICTS))
        locs in
    let district_context :=
      List.find (fun dist => str_in dist text) KERALA_DISTRICTS in
    match candidates with
    | _ :: _ => (py_max (count candidates) (set_iter candidates),
                 district_context)
    | [] => (None, district_context)
    end.

(** [geocode_service(search_query)] *)
Definition geocode_service (q : string) : M state (option coords) :=
  fun st =>
    let st' := {| LOCATION_CACHE := LOCATION_CACHE st;
                  calls := calls st ++ [q] |} in
    match service (calls st) q with
    | Located lat lon => (Return (Some (lat, lon)), st')
    | NoMatch => (Return None, st')
    | Failure => (Raise, st')
    end.

Definition get_lat_lon (location_name : string)
  (district_hint : option string) : M state (option coords) :=
  if negb (truthy location_name) then ret None
  else
    let key := cache_key location_name district_hint in
    let* c := gets LOCATION_CACHE in
    match c !! key with
    | Some v => ret (Some v)
    | None =>
        let search_query := search_query location_name district_hint in
        try_except
          (let* loc := geocode_service search_query in
           match loc with
           | Some (lat, lon) =>
               if in_bounds lat then
                 let* _ := modify (cache_set key (lat, lon)) in
                 ret (Some (lat, lon))
               else ret None
           | None => ret None
           end)
          (ret None)
    end.

(** the body of [for event in all_events]: the records it appends *)
Definition process_event (ev : event) : M state (list record) :=
  match extract_location_from_text (text ev) with
  | (Some loc, district) =>
      if truthy loc then
        let* ll := get_lat_lon loc district in
        match ll with
        | Some (lat, lon) =>
            if float_truthy lat then
              let species := species_of (text ev) in
              let hex_id := latlng_to_cell lat lon 8 in
              ret [ {| event_date := date ev;
                       hex_id := hex_id;
                       latitude := lat;
                       longitude := lon;
                       location_name := loc;
                       district_context := district;
                       species := species;
                       rec_source_type := source_type ev;
                       description := take 100 (text ev);
                       rec_url := url ev |} ]
            else ret []
        | None => ret []
        end
      else ret []
  | (None, _) => ret []
  end.

(** phase C of [run_hybrid_miner]: [final_data] *)
Fixpoint process_events (all_events : list event) : M state (list record) :=
  match all_events with
  | [] => ret []
  | ev :: rest =>
      let* new := process_event ev in
      let* more := process_events rest in
      ret (new ++ more)
  end.

(** a row of requests to [get_lat_lon], one after the other *)
Fixpoint resolve_all (reqs : list (string * option string))
  : M state (list (option coords)) :=
  match reqs with
  | [] => ret []
  | (location_name, district_hint) :: rest =>
      let* c := get_lat_lon location_name district_hint in
      let* cs := resolve_all rest in
      ret (c :: cs)
  end.

End Pipeline.

(** everything a record appended for the event [ev] is made of *)
Definition assembled_from (nlp : string -> list (string * string))
  (set_iter : list string -> list string)
  (latlng_to_cell : float -> float -> nat -> string)
  (ev : event) (r : record) : Prop :=
  event_date r = date ev /\
  rec_source_type r = source_type ev /\
  rec_url r = url ev /\
  description r = take 100 (text ev) /\
  species r = species_of (text ev) /\
  hex_id r = latlng_to_cell (latitude r) (longitude r) 8 /\
  extract_location_from_text nlp set_iter (text ev)
  = (Some (location_name r), district_context r) /\
  truthy (location_name r) = true /\
  float_truthy (latitude r) = true.

(** Phase D, [df.sort_values(by='event_date', ascending=False)] inside
    [try / except: pass]: [sort_values] answers [None] when pandas raises,
    and then the frame keeps the order of [final_data].  [None] as a
    result: nothing is written when [final_data] is empty. *)
Definition save (sort_values : list record -> option (list record))
  (final_data : list record) : option (list record) :=
  match final_data with
  | [] => None
  | _ :: _ =>
      let df := final_data in
      let df := match sort_values df with
                | Some sorted => sorted
                | None => df
                end in
      Some df
  end.

(** The order pandas sorts an all-[str] column by, descending: Python
    compares strings code point by code point. *)
Definition date_desc (a b : record) : Prop :=
  String.le (event_date b) (event_date a).

Global Instance date_desc_dec : RelDecision date_desc.
Proof. intros a b. unfold date_desc. apply _. Defined.

Global Instance date_desc_total : Total date_desc.
Proof. intros a b. unfold date_desc. apply String.le_total. Qed.

Global Instance date_desc_trans : Transitive date_desc.
Proof.
  intros a b c Hab Hbc. unfold date_desc in *.
  exact (transitivity Hbc Hab).
Qed.

(** pandas is a library, not part of the repository: its [sort_values]
    enters [save] as a parameter.  What the library promises of a call
    [df.sort_values(by='event_date', ascending=False)] that returns: the
    frame it returns has the same rows, and each date in it is at least the
    one after it.  Whether the call returns, and the order it leaves among
    rows of equal dates, are left open. *)
Definition sorts_descending
  (sort_values : list record -> option (list record)) : Prop :=
  forall df sorted, sort_values df = Some sorted ->
    Sorted date_desc sorted /\ sorted ≡ₚ df.

(** Modelled from the documentation of pandas, not from the repository: one
    sort that keeps the promise, used to run examples.  It puts a row in
    front of the first row whose date is not greater, so rows of equal dates
    keep the order they came in. *)
Fixpoint insert_desc (r : record) (df : list record) : list record :=
  match df with
  | [] => [r]
  | y :: rest =>
      if decide (date_desc r y) then r :: y :: rest
      else y :: insert_desc r rest
  end.

(** Modelled from the documentation of pandas, not from the repository:
    comparing two [str] values never raises, so on a column of [str] this
    sort always returns. *)
Definition sort_values_stable (df : list record) : option (list record) :=
  Some (foldr insert_desc [] df).

End Miner.

(** ** Dates: [datetime.strptime(s, "%Y%m%d").strftime("%Y-%m-%d")]

    [strptime] turns the format into the regular expression
    [(\d\d\d\d)(1[0-2]|0[1-9]|[1-9])(3[0-1]|[1-2]\d|0[1-9]|[1-9]| [1-9])],
    takes the first match at the start of the text (alternatives in the
    order written, with backtracking), fails if text is left over, and then
    builds a date, which fails for year 0 and for a day the month does not
    have. *)

Module Dates.
Import PyStr.

Definition digit_val (c : ascii) : nat := nat_of_ascii c - 48.

(** [lo <= c <= hi] as code points *)
Definition between (lo hi c : ascii) : bool :=
  Nat.leb (nat_of_ascii lo) (nat_of_ascii c)
  && Nat.leb (nat_of_ascii c) (nat_of_ascii hi).

(** One alternative of a pattern: the number it reads at the front of the
    text, and the text after it. *)
Definition alt : Type := string -> option (nat * string).

Definition two (p1 p2 : ascii -> bool) : alt := fun s =>
  match s with
  | String a (String b r) =>
      if p1 a && p2 b then Some (10 * digit_val a + digit_val b, r) else None
  | _ => None
  end.

Definition one (p : ascii -> bool) : alt := fun s =>
  match s with
  | String a r => if p a then Some (digit_val a, r) else None
  | _ => None
  end.

(** a blank and a digit from 1 to 9 *)
Definition blank_one : alt := fun s =>
  match s with
  | String a (String b r) =>
      if Ascii.eqb a " " && between "1" "9" b then Some (digit_val b, r)
      else None
  | _ => None
  end.

(** [%m]: [1[0-2]|0[1-9]|[1-9]] *)
Definition month_alts : list alt :=
  [ two (Ascii.eqb "1") (between "0" "2");
    two (Ascii.eqb "0") (between "1" "9");
    one (between "1" "9") ].

(** [%d]: [3[0-1]|[1-2]\d|0[1-9]|[1-9]| [1-9]] *)
Definition day_alts : list alt :=
  [ two (Ascii.eqb "3") (between "0" "1");
    two (between "1" "2") isdigit;
    two (Ascii.eqb "0") (between "1" "9");
    one (between "1" "9");
    blank_one ].

(** [%Y]: [\d\d\d\d] *)
Definition year4 : alt := fun s =>
  match s with
  | String a (String b (String c (String d r))) =>
      if isdigit a && isdigit b && isdigit c && isdigit d
      then Some (1000 * digit_val a + 100 * digit_val b
                 + 10 * digit_val c + digit_val d, r)
      else None
  | _ => None
  end.

(** The first alternative, in order, after which the rest of the pattern
    [k] matches. *)
Fixpoint first_match {A} (alts : list alt) (k : nat -> string -> option A)
  (s : string) : option A :=
  match alts with
  | [] => None
  | a :: rest =>
      match a s with
      | Some (n, r) =>
          match k n r with
          | Some x => Some x
          | None => first_match rest k s
          end
      | None => first_match rest k s
      end
  end.

(** the match of the whole pattern: year, month, day and the text left *)
Definition match_stamp (s : string) : option (nat * nat * nat * string) :=
  match year4 s with
  | Some (y, r) =>
      first_match month_alts
        (fun m r1 => first_match day_alts (fun d r2 => Some (y, m, d, r2)) r1)
        r
  | None => None
  end.

Definition is_leap (y : nat) : bool :=
  Nat.eqb (y mod 4) 0 && (negb (Nat.eqb (y mod 100) 0) || Nat.eqb (y mod 400) 0).

Definition days_in_month (y m : nat) : nat :=
  match m with
  | 2 => if is_leap y then 29 else 28
  | 4 | 6 | 9 | 11 => 30
  | _ => 31
  end.

(** what the constructor of a date accepts *)
Definition valid_date (y m d : nat) : bool :=
  Nat.leb 1 y && Nat.leb 1 m && Nat.leb m 12
  && Nat.leb 1 d && Nat.leb d (days_in_month y m).

(** [datetime.strptime(s, "%Y%m%d")]; [None] stands for [ValueError] *)
Definition strptime (s : string) : option (nat * nat * nat) :=
  match match_stamp s with
  | Some (y, m, d, rest) =>
      if truthy rest then None
      else if valid_date y m d then Some (y, m, d)
      else None
  | None => None
  end.

Definition digit_char (n : nat) : ascii := ascii_of_nat (48 + n).

(** [%m] and [%d] of [strftime]: two digits *)
Definition two_digits (n : nat) : string :=
  String (digit_char (n / 10)) (String (digit_char (n mod 10)) "").

(** four digits *)
Definition four_digits (n : nat) : string :=
  String (digit_char (n / 1000))
    (String (digit_char (n / 100 mod 10)) (two_digits (n mod 100))).

Section Strftime.
(** [%Y] of the C library's [strftime]: four digits from year 1000 on; for
    earlier years the platforms differ (with or without leading zeros). *)
Variable render_year : nat -> string.

(** [date.strftime("%Y-%m-%d")] *)
Definition strftime (ymd : nat * nat * nat) : string :=
  let '(y, m, d) := ymd in
  render_year y +:+ "-" +:+ two_digits m +:+ "-" +:+ two_digits d.

(** [try: fmt_date = strptime(date_str).strftime() / except: "Unknown"] *)
Definition fmt_date (date_str : string) : string :=
  match strptime date_str with
  | Some ymd => strftime ymd
  | None => "Unknown"
  end.

End Strftime.

(** the year as glibc prints it: no leading zeros *)
Definition render_year_plain (y : nat) : string :=
  if Nat.ltb y 10 then String (digit_char y) ""
  else if Nat.ltb y 100 then two_digits y
  else if Nat.ltb y 1000 then String (digit_char (y / 100)) (two_digits (y mod 100))
  else four_digits y.

(** a year is printed well when it starts with a digit, and with its four
    digits from 1000 on *)
Definition renders_well (render_year : nat -> string) : Prop :=
  forall y, 1 <= y -> y < 100 * 100 ->
    match render_year y with
    | String c _ => isdigit c = true
    | "" => False
    end /\
    (1000 <= y -> render_year y = four_digits y).

End Dates.

(** ** Phases A and B of [run_hybrid_miner]: from raw items to events *)

Module Sources.
Import PyStr Miner Dates.

(** An article of the news aggregator: the values under the keys [seendate],
    [title] and [url]; [None] is a missing key, and for the first two also a
    null value. *)
Record article : Type := {
  seendate : option string;
  title : option string;
  art_url : option string
}.

(** An entry of the video search: the values under [upload_date], [title],
    [description], [webpage_url] and [url]; [None] is a missing key, and for
    the first three also a null value. *)
Record video : Type := {
  upload_date : option string;
  video_title : option string;
  video_description : option string;
  webpage_url : option string;
  video_url : option string
}.

(** [x or ""] *)
Definition or_empty (x : option string) : string := default "" x.

Section Phases.
Variable render_year : nat -> string.

(** the event appended for one item of [gdelt_raw] *)
Definition gdelt_event (item : article) : event :=
  let date_str := take 8 (default "" (seendate item)) in
  let fmt_date := fmt_date render_year date_str in
  let title_text := or_empty (title item) in
  {| text := title_text;
     date := fmt_date;
     source_type := "News/Blog";
     url := default "" (art_url item) |}.

(** the event appended for one item of [yt_raw] *)
Definition youtube_event (item : video) : event :=
  let date_str := default "" (upload_date item) in
  let fmt_date :=
    if truthy date_str then fmt_date render_year date_str else "Unknown" in
  let title := or_empty (video_title item) in
  let desc := or_empty (video_description item) in
  {| text := title +:+ " " +:+ take 100 desc;
     date := fmt_date;
     source_type := "Citizen Video";
     url := match webpage_url item with
            | Some u => u
            | None => default "" (video_url item)
            end |}.

(** [all_events] after phases A and B *)
Definition collect_events (gdelt_raw : list article) (yt_raw : list video)
  : list event :=
  (gdelt_event <$> gdelt_raw) ++ (youtube_event <$> yt_raw).

End Phases.

End Sources.

(** ** Validation Mining/pdf-miner.py: occurrences of the biodiversity
    service *)

Module Gbif.
Import PyStr.

(** [SPECIES_MAP], in the order of its items *)
Definition SPECIES_MAP : list (string * N) :=
  [ ("Elephas maximus", 2435146%N); ("Panthera tigris", 5219410%N);
    ("Sus scrofa", 2441218%N); ("Bos gaurus", 2441097%N) ].

(** One entry of [results['results']]: the values under [stateProvince],
    [eventDate], [decimalLatitude], [decimalLongitude], [basisOfRecord] and
    [key]; [None] is a missing key.  The search asks for records with
    coordinates. *)
Record occurrence : Type := {
  stateProvince : option string;
  eventDate : option string;
  decimalLatitude : float;
  decimalLongitude : float;
  basisOfRecord : option string;
  key : option N
}.

(** what one call of [occurrences.search] gives back *)
Record page : Type := {
  results : list occurrence;
  endOfRecords : bool
}.

(** an entry of [all_records] *)
Record sighting : Type := {
  event_date : string;
  species : string;
  latitude : float;
  longitude : float;
  basis_of_record : option string;
  source : string;
  raw_id : option N
}.

(** [s.split('T')[0]]: the text before the first [T] *)
Fixpoint before_T (s : string) : string :=
  match s with
  | "" => ""
  | String c r => if Ascii.eqb c "T" then "" else String c (before_T r)
  end.

Definition no_T (s : string) : bool :=
  all (fun c => negb (Ascii.eqb c "T")) s.

(** the test on the lower-cased state of a record *)
Definition keep_state (state : string) : bool :=
  str_in "kerala" state
  || (negb (str_in "tamil" state) && negb (str_in "karnataka" state)).

(** the records of one page that are appended, for one species *)
Definition kept (species_name : string) (recs : list occurrence)
  : list sighting :=
  List.map
    (fun rec =>
       {| event_date := before_T (default "" (eventDate rec));
          species := species_name;
          latitude := decimalLatitude rec;
          longitude := decimalLongitude rec;
          basis_of_record := basisOfRecord rec;
          source := "GBIF/iNaturalist";
          raw_id := key rec |})
    (List.filter
       (fun rec => keep_state (lower (default "" (stateProvince rec))))
       recs).

Section Fetch.
(** [occurrences.search] for a taxon key and an offset (the polygon, the
    limit of 300 and the years are fixed) *)
Variable search : N -> nat -> page.

(** The pagination loop [while True] for one species, from [offset] on;
    [fuel] bounds the number of requests, and [None] means that the loop is
    still running when the fuel is used up. *)
Fixpoint fetch_pages (fuel : nat) (species_name : string) (taxon_key : N)
  (offset : nat) : option (list sighting) :=
  match fuel with
  | 0 => None
  | S fuel =>
      let res := search taxon_key offset in
      match results res with
      | [] => Some []
      | _ :: _ =>
          let new := kept species_name (results res) in
          let offset := offset + 300 in
          if endOfRecords res then Some new
          else
            match fetch_pages fuel species_name taxon_key offset with
            | Some more => Some (new ++ more)
            | None => None
            end
      end
  end.

(** [fetch_gbif_data]: the loop over the species *)
Fixpoint fetch_species (fuel : nat) (species_map : list (string * N))
  : option (list sighting) :=
  match species_map with
  | [] => Some []
  | (species_name, taxon_key) :: rest =>
      match fetch_pages fuel species_name taxon_key 0 with
      | Some records =>
          match fetch_species fuel rest with
          | Some more => Some (records ++ more)
          | None => None
          end
      | None => None
      end
  end.

Definition fetch_gbif_data (fuel : nat) : option (list sighting) :=
  fetch_species fuel SPECIES_MAP.

End Fetch.

(** [filter_proxy_conflicts]: the rows observed by people, each with its
    point, built from longitude and latitude in this order *)
Definition filter_proxy_conflicts (df : list sighting)
  : list (sighting * (float * float)) :=
  List.map (fun row => (row, (longitude row, latitude row)))
    (List.filter
       (fun row =>
          match basis_of_record row with
          | Some b => String.eqb b "HUMAN_OBSERVATION"
          | None => false
          end)
       df).

End Gbif.

(** * Facts *)

(** ** Characters and the stages of the normalizer *)

Module PyStrFacts.
Import PyStr.

Ltac by_cases_on_char c :=
  destruct c as [[] [] [] [] [] [] [] []]; vm_compute; try reflexivity;
  try discriminate; auto.

Lemma lower_char_idem (c : ascii) :
  Ascii.eqb (lower_char (lower_char c)) (lower_char c) = true.
Proof. by_cases_on_char c. Qed.

Lemma hybrid_char_idem (c : ascii) :
  Ascii.eqb (hybrid_char (hybrid_char c)) (hybrid_char c) = true.
Proof. by_cases_on_char c. Qed.

Lemma hybrid_char_open (c : ascii) :
  Ascii.eqb (hybrid_char c) "(" = Ascii.eqb c "(".
Proof. by_cases_on_char c. Qed.

Lemma hybrid_char_close (c : ascii) :
  Ascii.eqb (hybrid_char c) ")" = Ascii.eqb c ")".
Proof. by_cases_on_char c. Qed.

Lemma isspace_not_open (c : ascii) :
  isspace c = true -> Ascii.eqb c "(" = false.
Proof. by_cases_on_char c. Qed.

Lemma isspace_not_close (c : ascii) :
  isspace c = true -> Ascii.eqb c ")" = false.
Proof. by_cases_on_char c. Qed.

(** *** [all p] goes through every stage *)

Section All.
Variable p : ascii -> bool.

Lemma all_re_sub_brackets (b : bool) (s : string) :
  all p s = true -> all p (re_sub_brackets b s) = true.
Proof.
  revert b. induction s as [|c r IH]; intros b H; [reflexivity|].
  simpl in H. apply andb_true_iff in H as [Hc Hr]. simpl.
  destruct b.
  - destruct (Ascii.eqb c ")"); auto.
  - destruct (Ascii.eqb c "(" && closes r); auto.
    simpl. rewrite Hc. simpl. auto.
Qed.

Lemma all_lstrip (s : string) : all p s = true -> all p (lstrip s) = true.
Proof.
  induction s as [|c r IH]; intros H; [reflexivity|].
  simpl. destruct (isspace c); [|exact H].
  simpl in H. apply andb_true_iff in H as [_ Hr]. auto.
Qed.

Lemma all_rstrip (s : string) : all p s = true -> all p (rstrip s) = true.
Proof.
  induction s as [|c r IH]; intros H; [reflexivity|].
  simpl in H. apply andb_true_iff in H as [Hc Hr]. simpl.
  specialize (IH Hr). destruct (rstrip r) as [|d r'].
  - destruct (isspace c); [reflexivity|]. simpl. rewrite Hc. reflexivity.
  - change (p c && all p (String d r') = true). rewrite Hc, IH. reflexivity.
Qed.

Hypothesis p_blank : p SP = true.

Lemma all_re_sub_spaces (b : bool) (s : string) :
  all p s = true -> all p (re_sub_spaces b s) = true.
Proof.
  revert b. induction s as [|c r IH]; intros b H; [reflexivity|].
  simpl in H. apply andb_true_iff in H as [Hc Hr]. simpl.
  destruct (isspace c).
  - destruct b; [auto|]. simpl. rewrite p_blank. simpl. auto.
  - simpl. rewrite Hc. simpl. auto.
Qed.

Hypothesis p_hybrid : forall c, p c = true -> p (hybrid_char c) = true.

Lemma all_re_sub_hybrids (s : string) :
  all p s = true -> all p (re_sub_hybrids s) = true.
Proof.
  induction s as [|c r IH]; intros H; [reflexivity|].
  simpl in H. apply andb_true_iff in H as [Hc Hr]. simpl.
  rewrite (p_hybrid c Hc). simpl. auto.
Qed.
End All.

Lemma all_strip (p : ascii -> bool) (s : string) :
  all p s = true -> all p (strip s) = true.
Proof. intros H. unfold strip. apply all_rstrip, all_lstrip, H. Qed.

(** *** Lower-casing *)

Lemma lowered_lower (s : string) : lowered (lower s) = true.
Proof.
  induction s as [|c r IH]; [reflexivity|].
  unfold lowered in *. simpl. rewrite lower_char_idem, IH. reflexivity.
Qed.

Lemma lower_fixed (s : string) : lowered s = true -> lower s = s.
Proof.
  induction s as [|c r IH]; intros H; [reflexivity|].
  unfold lowered in *. simpl in H. apply andb_true_iff in H as [Hc Hr].
  simpl. apply Ascii.eqb_eq in Hc. rewrite Hc, (IH Hr). reflexivity.
Qed.

(** *** Brackets *)

Lemma closes_no_close (s : string) : no_close s = true -> closes s = false.
Proof.
  induction s as [|c r IH]; intros H; [reflexivity|].
  unfold no_close in *. simpl in H. apply andb_true_iff in H as [Hc Hr].
  simpl. destruct (Ascii.eqb c ")"); [discriminate|].
  destruct (Ascii.eqb c LF); auto.
Qed.

Lemma no_close_one_line (s : string) :
  no_lf s = true -> closes s = false -> no_close s = true.
Proof.
  induction s as [|c r IH]; intros Hlf H; [reflexivity|].
  unfold no_lf, no_close in *. simpl in *.
  apply andb_true_iff in Hlf as [Hc Hr].
  destruct (Ascii.eqb c ")"); [discriminate|].
  destruct (Ascii.eqb c LF); [discriminate|]. simpl. auto.
Qed.

Lemma re_sub_brackets_fixed (s : string) :
  unpaired s = true -> re_sub_brackets false s = s.
Proof.
  induction s as [|c r IH]; intros H; [reflexivity|].
  simpl in H. apply andb_true_iff in H as [Hc Hr]. simpl.
  rewrite (IH Hr).
  destruct (Ascii.eqb c "("); [|reflexivity].
  simpl in Hc. rewrite (closes_no_close r Hc). reflexivity.
Qed.

Lemma unpaired_re_sub_brackets (b : bool) (s : string) :
  no_lf s = true -> unpaired (re_sub_brackets b s) = true.
Proof.
  revert b. induction s as [|c r IH]; intros b Hlf; [reflexivity|].
  assert (Hr : no_lf r = true).
  { unfold no_lf in *. simpl in Hlf. apply andb_true_iff in Hlf. tauto. }
  simpl. destruct b.
  - destruct (Ascii.eqb c ")"); auto.
  - destruct (Ascii.eqb c "(") eqn:Hopen; simpl.
    + destruct (closes r) eqn:Hcl; [auto|].
      simpl. rewrite Hopen, (IH false Hr). simpl.
      rewrite andb_true_r. apply all_re_sub_brackets.
      apply no_close_one_line; assumption.
    + rewrite Hopen, (IH false Hr). reflexivity.
Qed.

Lemma unpaired_re_sub_hybrids (s : string) :
  unpaired s = true -> unpaired (re_sub_hybrids s) = true.
Proof.
  induction s as [|c r IH]; intros H; [reflexivity|].
  simpl in H. apply andb_true_iff in H as [Hc Hr]. simpl.
  rewrite hybrid_char_open, (IH Hr), andb_true_r.
  apply orb_true_iff in Hc as [Hc|Hc]; [rewrite Hc; reflexivity|].
  apply orb_true_iff. right. apply all_re_sub_hybrids; [|exact Hc].
  intros d Hd. rewrite hybrid_char_close. exact Hd.
Qed.

Lemma unpaired_re_sub_spaces (b : bool) (s : string) :
  unpaired s = true -> unpaired (re_sub_spaces b s) = true.
Proof.
  revert b. induction s as [|c r IH]; intros b H; [reflexivity|].
  simpl in H. apply andb_true_iff in H as [Hc Hr]. simpl.
  destruct (isspace c) eqn:Hsp.
  - destruct b; [auto|]. simpl. auto.
  - simpl. rewrite (IH false Hr), andb_true_r.
    apply orb_true_iff in Hc as [Hc|Hc]; [rewrite Hc; reflexivity|].
    apply orb_true_iff. right. apply all_re_sub_spaces; [reflexivity|exact Hc].
Qed.

Lemma unpaired_lstrip (s : string) :
  unpaired s = true -> unpaired (lstrip s) = true.
Proof.
  induction s as [|c r IH]; intros H; [reflexivity|].
  simpl. destruct (isspace c); [|exact H].
  simpl in H. apply andb_true_iff in H as [_ Hr]. auto.
Qed.

Lemma unpaired_rstrip (s : string) :
  unpaired s = true -> unpaired (rstrip s) = true.
Proof.
  induction s as [|c r IH]; intros H; [reflexivity|].
  simpl in H. apply andb_true_iff in H as [Hc Hr]. simpl.
  specialize (IH Hr).
  assert (Hn : negb (Ascii.eqb c "(") || no_close (rstrip r) = true).
  { apply orb_true_iff in Hc as [Hc|Hc]; [rewrite Hc; reflexivity|].
    apply orb_true_iff. right. apply all_rstrip, Hc. }
  destruct (rstrip r) as [|d r'].
  - destruct (isspace c); [reflexivity|]. simpl. rewrite orb_true_r. reflexivity.
  - change ((negb (Ascii.eqb c "(") || no_close (String d r'))
            && unpaired (String d r') = true).
    rewrite Hn, IH. reflexivity.
Qed.

(** *** Hyphens and slashes *)

Lemma unhyphenated_re_sub_hybrids (s : string) :
  unhyphenated (re_sub_hybrids s) = true.
Proof.
  induction s as [|c r IH]; [reflexivity|].
  unfold unhyphenated in *. simpl. rewrite hybrid_char_idem, IH. reflexivity.
Qed.

Lemma re_sub_hybrids_fixed (s : string) :
  unhyphenated s = true -> re_sub_hybrids s = s.
Proof.
  induction s as [|c r IH]; intros H; [reflexivity|].
  unfold unhyphenated in *. simpl in H. apply andb_true_iff in H as [Hc Hr].
  simpl. apply Ascii.eqb_eq in Hc. rewrite Hc, (IH Hr). reflexivity.
Qed.

(** *** White space *)

Lemma spaced_re_sub_spaces (b : bool) (s : string) :
  spaced b (re_sub_spaces b s) = true.
Proof.
  revert b. induction s as [|c r IH]; intros b; [reflexivity|].
  simpl. destruct (isspace c) eqn:Hsp.
  - destruct b; [apply IH|]. simpl. apply IH.
  - simpl. rewrite Hsp. apply IH.
Qed.

Lemma re_sub_spaces_fixed (b : bool) (s : string) :
  spaced b s = true -> re_sub_spaces b s = s.
Proof.
  revert b. induction s as [|c r IH]; intros b H; [reflexivity|].
  simpl in *. destruct (isspace c).
  - apply andb_true_iff in H as [H Hr]. apply andb_true_iff in H as [Hc Hb].
    apply Ascii.eqb_eq in Hc. destruct b; [discriminate|].
    rewrite (IH true Hr), Hc. reflexivity.
  - rewrite (IH false H). reflexivity.
Qed.

Lemma spaced_weaken (b : bool) (s : string) :
  spaced b s = true -> spaced false s = true.
Proof.
  destruct s as [|c r]; [reflexivity|]. simpl.
  destruct (isspace c); [|auto]. intros H.
  apply andb_true_iff in H as [H Hr]. apply andb_true_iff in H as [Hc Hb].
  rewrite Hc, Hr. reflexivity.
Qed.

Lemma spaced_lstrip (s : string) :
  spaced false s = true -> spaced false (lstrip s) = true.
Proof.
  induction s as [|c r IH]; intros H; [reflexivity|].
  simpl. destruct (isspace c) eqn:Hsp; [|exact H].
  simpl in H. rewrite Hsp in H.
  apply andb_true_iff in H as [_ Hr]. apply IH, (spaced_weaken true), Hr.
Qed.

Lemma spaced_rstrip (b : bool) (s : string) :
  spaced b s = true -> spaced b (rstrip s) = true.
Proof.
  revert b. induction s as [|c r IH]; intros b H; [reflexivity|].
  simpl in H. simpl.
  destruct (isspace c) eqn:Hsp.
  - apply andb_true_iff in H as [H Hr]. specialize (IH true Hr).
    destruct (rstrip r) as [|d r']; [reflexivity|].
    change (spaced b (String c (String d r')) = true).
    simpl spaced at 1. rewrite Hsp, H. exact IH.
  - specialize (IH false H).
    destruct (rstrip r) as [|d r']; [simpl; rewrite Hsp; reflexivity|].
    change (spaced b (String c (String d r')) = true).
    simpl spaced at 1. rewrite Hsp. exact IH.
Qed.

(** *** Stripping *)

Lemma head_ok_lstrip (s : string) : head_ok (lstrip s) = true.
Proof.
  induction s as [|c r IH]; [reflexivity|].
  simpl. destruct (isspace c) eqn:Hsp; [exact IH|]. simpl. rewrite Hsp.
  reflexivity.
Qed.

Lemma lstrip_fixed (s : string) : head_ok s = true -> lstrip s = s.
Proof.
  destruct s as [|c r]; [reflexivity|]. simpl. intros H.
  destruct (isspace c); [discriminate|reflexivity].
Qed.

Lemma head_ok_rstrip (s : string) :
  head_ok s = true -> head_ok (rstrip s) = true.
Proof.
  destruct s as [|c r]; [reflexivity|]. simpl. intros H.
  destruct (rstrip r); [|exact H].
  destruct (isspace c) eqn:Hsp; [reflexivity|].
  simpl. rewrite Hsp. reflexivity.
Qed.

Lemma rstrip_cons (c : ascii) (r : string) :
  rstrip (String c r) =
  match rstrip r with
  | "" => if isspace c then "" else String c ""
  | r' => String c r'
  end.
Proof. reflexivity. Qed.

Lemma rstrip_idem (s : string) : rstrip (rstrip s) = rstrip s.
Proof.
  induction s as [|c r IH]; [reflexivity|].
  rewrite rstrip_cons. destruct (rstrip r) as [|d r'] eqn:E.
  - destruct (isspace c) eqn:Hsp; [reflexivity|]. simpl. rewrite Hsp.
    reflexivity.
  - rewrite rstrip_cons, IH. reflexivity.
Qed.

Lemma strip_idem (s : string) : strip (strip s) = strip s.
Proof.
  unfold strip.
  rewrite (lstrip_fixed (rstrip (lstrip s))).
  - apply rstrip_idem.
  - apply head_ok_rstrip, head_ok_lstrip.
Qed.

End PyStrFacts.

(** ** The normalizer *)

Module NormalizeFacts.
Import PyStr PyStrFacts Geocoding.

Lemma lower_char_lf (c : ascii) :
  Ascii.eqb (lower_char c) LF = Ascii.eqb c LF.
Proof. by_cases_on_char c. Qed.

Lemma lowered_hybrid_char (c : ascii) :
  Ascii.eqb (lower_char c) c = true ->
  Ascii.eqb (lower_char (hybrid_char c)) (hybrid_char c) = true.
Proof. by_cases_on_char c. Qed.

Lemma no_lf_lower (s : string) : no_lf s = true -> no_lf (lower s) = true.
Proof.
  induction s as [|c r IH]; intros H; [reflexivity|].
  unfold no_lf in *. simpl in *. apply andb_true_iff in H as [Hc Hr].
  rewrite lower_char_lf, Hc. simpl. auto.
Qed.

Lemma normalize_staged (x : string) : normalize (Some x) = strip (staged x).
Proof. reflexivity. Qed.

Lemma normalize_lowered (x : string) : lowered (normalize (Some x)) = true.
Proof.
  rewrite normalize_staged. unfold lowered, staged.
  apply all_strip, all_re_sub_spaces; [reflexivity|].
  apply all_re_sub_hybrids; [exact lowered_hybrid_char|].
  apply all_re_sub_brackets, lowered_lower.
Qed.

Lemma normalize_unhyphenated (x : string) :
  unhyphenated (normalize (Some x)) = true.
Proof.
  rewrite normalize_staged. unfold unhyphenated, staged.
  apply all_strip, all_re_sub_spaces; [reflexivity|].
  apply unhyphenated_re_sub_hybrids.
Qed.

Lemma normalize_spaced (x : string) :
  spaced false (normalize (Some x)) = true.
Proof.
  rewrite normalize_staged. unfold strip, staged.
  apply spaced_rstrip, spaced_lstrip, spaced_re_sub_spaces.
Qed.

Lemma normalize_unpaired (x : string) :
  no_lf x = true -> unpaired (normalize (Some x)) = true.
Proof.
  intros H. rewrite normalize_staged. unfold strip, staged.
  apply unpaired_rstrip, unpaired_lstrip, unpaired_re_sub_spaces.
  apply unpaired_re_sub_hybrids, unpaired_re_sub_brackets, no_lf_lower, H.
Qed.

End NormalizeFacts.

(** C6 (as the claim has it, refuted).  The input is an opening bracket, a
    line feed and a closing bracket.  The first pass keeps both brackets,
    because [.] does not cross the line feed, and turns the line feed into a
    blank; the second pass then meets a bracket pair on one line and deletes
    it: [normalize] applied twice differs from [normalize] applied once. *)
Lemma normalize_not_idempotent :
  Geocoding.normalize
    (Some (Geocoding.normalize (Some (String "(" (String "010" (String ")" ""))))))
  <> Geocoding.normalize (Some (String "(" (String "010" (String ")" "")))).
Proof. vm_compute. discriminate. Qed.

(** C6 (amended).  An absent input is normalized to the empty string, and on
    every input string without a line feed the normalizer is idempotent:
    [normalize (normalize x) = normalize x]. *)
Theorem normalize_idempotent_one_line (x : string)
  (Hline : PyStr.no_lf x = true) :
  Geocoding.normalize None = "" /\
  Geocoding.normalize (Some (Geocoding.normalize (Some x)))
  = Geocoding.normalize (Some x).
Proof.
  split; [reflexivity|].
  set (y := Geocoding.normalize (Some x)).
  assert (Hy : y = PyStr.strip (Geocoding.staged x)) by reflexivity.
  unfold Geocoding.normalize at 1.
  rewrite (PyStrFacts.lower_fixed y (NormalizeFacts.normalize_lowered x)).
  rewrite (PyStrFacts.re_sub_brackets_fixed y
             (NormalizeFacts.normalize_unpaired x Hline)).
  rewrite (PyStrFacts.re_sub_hybrids_fixed y
             (NormalizeFacts.normalize_unhyphenated x)).
  rewrite (PyStrFacts.re_sub_spaces_fixed false y
             (NormalizeFacts.normalize_spaced x)).
  rewrite Hy. apply PyStrFacts.strip_idem.
Qed.

Lemma normalize_idempotent_one_line_witness :
  PyStr.no_lf "Munnar (Town)/Devikulam  - East" = true /\
  Geocoding.normalize None = "" /\
  Geocoding.normalize
    (Some (Geocoding.normalize (Some "Munnar (Town)/Devikulam  - East")))
  = Geocoding.normalize (Some "Munnar (Town)/Devikulam  - East").
Proof.
  split; [reflexivity|].
  apply (normalize_idempotent_one_line "Munnar (Town)/Devikulam  - East").
  reflexivity.
Defined.

(** ** Ladder mode *)

Module LadderFacts.
Import PyStr PyStrFacts Eff Service Geocoding.

Lemma append_cons (c : ascii) (r t : string) :
  String c r +:+ t = String c (r +:+ t).
Proof. reflexivity. Qed.

Lemma length_append (a b : string) :
  String.length (a +:+ b) = String.length a + String.length b.
Proof.
  induction a as [|c r IH]; [reflexivity|].
  rewrite append_cons. simpl. rewrite IH. reflexivity.
Qed.

Lemma all_append (p : ascii -> bool) (a b : string) :
  all p (a +:+ b) = all p a && all p b.
Proof.
  induction a as [|c r IH]; [reflexivity|].
  rewrite append_cons. simpl. rewrite IH, andb_assoc. reflexivity.
Qed.

(** a string with a character that is not white space is not blank *)
Lemma strip_truthy (s : string) :
  all isspace s = false -> truthy (strip s) = true.
Proof.
  unfold strip. induction s as [|c r IH]; [discriminate|].
  simpl. destruct (isspace c) eqn:Hsp; [exact IH|]. intros _.
  rewrite rstrip_cons. destruct (rstrip r); [rewrite Hsp|]; reflexivity.
Qed.

Lemma query_not_blank (a : string) :
  truthy (strip (a +:+ ", Kerala, India")) = true.
Proof.
  apply strip_truthy. rewrite all_append. apply andb_false_r.
Qed.

Lemma all_append_false_r (p : ascii -> bool) (a b : string) :
  all p b = false -> all p (a +:+ b) = false.
Proof. intros H. rewrite all_append, H. apply andb_false_r. Qed.

(** every tier of the ladder ends in the region and is never blank *)
Lemma generate_queries_not_blank (r : row) :
  Forall (fun q => truthy (strip q) = true) (generate_queries r).
Proof.
  unfold generate_queries.
  set (p := normalize (place r)). set (g := normalize (range r)).
  set (d := normalize (district r)).
  repeat apply Forall_cons_2; try apply Forall_nil_2.
  - apply strip_truthy.
    apply (all_append_false_r _ p), (all_append_false_r _ ", ").
    apply (all_append_false_r _ g), (all_append_false_r _ ", ").
    apply (all_append_false_r _ d). reflexivity.
  - apply strip_truthy.
    apply (all_append_false_r _ p), (all_append_false_r _ ", ").
    apply (all_append_false_r _ d). reflexivity.
  - apply query_not_blank.
  - apply strip_truthy.
    apply (all_append_false_r _ g), (all_append_false_r _ ", ").
    apply (all_append_false_r _ d). reflexivity.
  - apply query_not_blank.
Qed.

(** the first tier is longer than the second: they never coincide *)
Lemma first_tier_not_second (p r d : string) :
  p +:+ ", " +:+ r +:+ ", " +:+ d +:+ ", Kerala, India"
  <> p +:+ ", " +:+ d +:+ ", Kerala, India".
Proof.
  intros E. apply (f_equal String.length) in E.
  rewrite !length_append in E. simpl in E. lia.
Qed.

Section Steps.
Variable service : oracle.

(** one turn of the loop of [geocode_row] *)
Lemma try_queries_cons (q : string) (rest : list string) (st : state) :
  try_queries service (q :: rest) st =
  if negb (truthy (strip q)) then try_queries service rest st
  else
    match cache st !! q with
    | Some (Some c) => (Return (Some c), st)
    | Some None => try_queries service rest st
    | None =>
        match service (calls st) q with
        | Located lat lon =>
            (Return (Some (lat, lon)),
             {| cache := <[q := Some (lat, lon)]> (cache st);
                calls := calls st ++ [q] |})
        | NoMatch =>
            try_queries service rest
              {| cache := <[q := None]> (cache st); calls := calls st ++ [q] |}
        | Failure =>
            (Raise, {| cache := cache st; calls := calls st ++ [q] |})
        end
    end.
Proof.
  simpl. destruct (negb (truthy (strip q))); [reflexivity|].
  unfold bind, gets, geocode. simpl.
  destruct (cache st !! q) as [[[lat lon]|]|]; try reflexivity.
  destruct (service (calls st) q); reflexivity.
Qed.

Lemma consistent_after_call (q : string) (v : option coords) (st : state) :
  consistent st -> cache st !! q = None ->
  consistent {| cache := <[q := v]> (cache st); calls := calls st ++ [q] |}.
Proof.
  intros [Hnd Hdom] Hmiss. split; simpl.
  - apply NoDup_app. split; [exact Hnd|]. split; [|apply NoDup_singleton].
    intros x Hx Hq. apply list_elem_of_singleton in Hq as ->.
    destruct (Hdom q Hx) as [w Hw]. congruence.
  - intros x Hx. apply lookup_insert_is_Some.
    destruct (decide (q = x)) as [->|Hne]; [left; reflexivity|].
    right. split; [exact Hne|]. apply Hdom.
    apply elem_of_app in Hx as [Hx|Hx]; [exact Hx|].
    apply list_elem_of_singleton in Hx. congruence.
Qed.

Lemma nodup_after_call (q : string) (st : state) :
  consistent st -> cache st !! q = None -> NoDup (calls st ++ [q]).
Proof.
  intros H Hmiss.
  apply (consistent_after_call q None st H Hmiss).
Qed.

Lemma try_queries_kept (qs : list string) (st : state) :
  consistent st -> kept (try_queries service qs st).
Proof.
  revert st. induction qs as [|q rest IH]; intros st Hst; [exact Hst|].
  rewrite try_queries_cons.
  destruct (negb (truthy (strip q))); [apply IH, Hst|].
  destruct (cache st !! q) as [[c|]|] eqn:Hq.
  - exact Hst.
  - apply IH, Hst.
  - destruct (service (calls st) q).
    + apply consistent_after_call; assumption.
    + apply IH, consistent_after_call; assumption.
    + apply nodup_after_call; assumption.
Qed.

Lemma geocode_rows_kept (df : list row) (st : state) :
  consistent st -> kept (geocode_rows service df st).
Proof.
  revert st. induction df as [|r rest IH]; intros st Hst; [exact Hst|].
  simpl. unfold bind at 1. unfold geocode_row.
  pose proof (try_queries_kept (generate_queries r) st Hst) as H1.
  destruct (try_queries service (generate_queries r) st) as [[c|] st1];
    [|exact H1].
  unfold bind at 1. specialize (IH st1 H1).
  destruct (geocode_rows service rest st1) as [[cs|] st2]; exact IH.
Qed.

End Steps.

Lemma consistent_init : consistent init.
Proof.
  split; simpl; [apply NoDup_nil_2|]. intros q Hq.
  apply not_elem_of_nil in Hq. destruct Hq.
Qed.

End LadderFacts.

(** C2 (as the claim has it, refuted).  Two records share place and district
    and differ in range.  The first leaves the shared second-tier query in
    the cache with coordinates (10, 77).  Resolving the second record then
    starts at its own first tier, which is not cached: the service is called
    for it, and its answer (10.5, 77.25) is returned, not the cached pair. *)
Lemma second_tier_cached_first_tier_still_called :
  let service : Service.oracle := fun _ q =>
    if String.eqb q "munnar, idukki, Kerala, India"
    then Service.Located 10 77
    else if String.eqb q "munnar, devikulam, idukki, Kerala, India"
    then Service.Located 10.5 77.25
    else Service.NoMatch in
  let row0 := {| Geocoding.place := Some "Munnar";
                 Geocoding.range := Some "Anamudi";
                 Geocoding.district := Some "Idukki" |} in
  let row1 := {| Geocoding.place := Some "Munnar";
                 Geocoding.range := Some "Devikulam";
                 Geocoding.district := Some "Idukki" |} in
  let st := snd (Geocoding.geocode_row service row0 Geocoding.init) in
  Geocoding.cache st !! Geocoding.tier 1 row1 = Some (Some (10, 77)%float) /\
  fst (Geocoding.geocode_row service row1 st)
  = Eff.Return (Some (10.5, 77.25)%float) /\
  fst (Geocoding.geocode_row service row1 st)
  <> Eff.Return (Some (10, 77)%float) /\
  Geocoding.calls (snd (Geocoding.geocode_row service row1 st))
  = (Geocoding.calls st ++ ["munnar, devikulam, idukki, Kerala, India"])%list /\
  Geocoding.calls (snd (Geocoding.geocode_row service row1 st))
  <> Geocoding.calls st.
Proof.
  vm_compute. repeat split; try reflexivity; discriminate.
Qed.

(** C2 (amended).  When the second-tier query of a record is cached with
    valid coordinates [c2], the resolver never reaches the third, fourth or
    fifth tier: its run is the run over the first two tiers alone, whatever
    the later tiers are, and no cache entry other than the first tier's
    changes.  It starts at the first tier: cached with coordinates, those
    are returned without a call; cached negative, [c2] is returned without a
    call; not cached, exactly one call is sent, for the first-tier query,
    and the answer is returned if positive, [c2] if negative. *)
Theorem second_tier_short_circuit (service : Service.oracle)
  (r : Geocoding.row) (st : Geocoding.state) (c2 : Service.coords)
  (Hhit : Geocoding.cache st !! Geocoding.tier 1 r = Some (Some c2)) :
  let q1 := Geocoding.tier 0 r in
  let q2 := Geocoding.tier 1 r in
  let res := Geocoding.geocode_row service r st in
  (forall later, Geocoding.try_queries service (q1 :: q2 :: later) st = res) /\
  (forall q, q <> q1 ->
     Geocoding.cache (snd res) !! q = Geocoding.cache st !! q) /\
  match Geocoding.cache st !! q1 with
  | Some (Some c1) => res = (Eff.Return (Some c1), st)
  | Some None => res = (Eff.Return (Some c2), st)
  | None =>
      Geocoding.calls (snd res) = (Geocoding.calls st ++ [q1])%list /\
      match service (Geocoding.calls st) q1 with
      | Service.Located lat lon => fst res = Eff.Return (Some (lat, lon))
      | Service.NoMatch => fst res = Eff.Return (Some c2)
      | Service.Failure => fst res = Eff.Raise
      end
  end.
Proof.
  intros q1 q2 res.
  assert (Hb1 : PyStr.truthy (PyStr.strip q1) = true).
  { pose proof (LadderFacts.generate_queries_not_blank r) as H.
    apply Forall_cons_1 in H as [H _]. exact H. }
  assert (Hb2 : PyStr.truthy (PyStr.strip q2) = true).
  { pose proof (LadderFacts.generate_queries_not_blank r) as H.
    apply Forall_cons_1 in H as [_ H]. apply Forall_cons_1 in H as [H _].
    exact H. }
  assert (Hne : q1 <> q2) by apply LadderFacts.first_tier_not_second.
  assert (Hstep : forall later,
    Geocoding.try_queries service (q1 :: q2 :: later) st =
    match Geocoding.cache st !! q1 with
    | Some (Some c1) => (Eff.Return (Some c1), st)
    | Some None => (Eff.Return (Some c2), st)
    | None =>
        match service (Geocoding.calls st) q1 with
        | Service.Located lat lon =>
            (Eff.Return (Some (lat, lon)),
             {| Geocoding.cache := <[q1 := Some (lat, lon)]> (Geocoding.cache st);
                Geocoding.calls := Geocoding.calls st ++ [q1] |})
        | Service.NoMatch =>
            (Eff.Return (Some c2),
             {| Geocoding.cache := <[q1 := None]> (Geocoding.cache st);
                Geocoding.calls := Geocoding.calls st ++ [q1] |})
        | Service.Failure =>
            (Eff.Raise,
             {| Geocoding.cache := Geocoding.cache st;
                Geocoding.calls := Geocoding.calls st ++ [q1] |})
        end
    end).
  { intros later. rewrite LadderFacts.try_queries_cons, Hb1. simpl negb. cbv iota.
    destruct (Geocoding.cache st !! q1) as [[c1|]|] eqn:H1; [reflexivity| |].
    - rewrite LadderFacts.try_queries_cons, Hb2. simpl negb. cbv iota.
      fold q2 in Hhit. rewrite Hhit. reflexivity.
    - destruct (service (Geocoding.calls st) q1); try reflexivity.
      rewrite LadderFacts.try_queries_cons, Hb2. simpl negb. cbv iota.
      simpl Geocoding.cache. rewrite lookup_insert_ne by exact Hne.
      fold q2 in Hhit. rewrite Hhit. reflexivity. }
  assert (Hres : res = Geocoding.try_queries service
                         (q1 :: q2 :: drop 2 (Geocoding.generate_queries r)) st)
    by reflexivity.
  split; [intros later; rewrite Hres, !Hstep; reflexivity|].
  rewrite Hres, Hstep. clear Hres Hstep.
  split.
  - intros q Hq.
    destruct (Geocoding.cache st !! q1) as [[c1|]|]; try reflexivity.
    destruct (service (Geocoding.calls st) q1); simpl;
      try reflexivity; apply lookup_insert_ne; congruence.
  - destruct (Geocoding.cache st !! q1) as [[c1|]|]; try reflexivity.
    destruct (service (Geocoding.calls st) q1); split; reflexivity.
Qed.

Lemma second_tier_short_circuit_witness :
  let service : Service.oracle := fun _ _ => Service.NoMatch in
  let r := {| Geocoding.place := Some "Munnar";
              Geocoding.range := Some "Devikulam";
              Geocoding.district := Some "Idukki" |} in
  let st := {| Geocoding.cache :=
                 <["munnar, devikulam, idukki, Kerala, India" := None]>
                   (<["munnar, idukki, Kerala, India" := Some (10, 77)%float]> ∅);
               Geocoding.calls := [] |} in
  Geocoding.cache st !! Geocoding.tier 1 r = Some (Some (10, 77)%float) /\
  Geocoding.geocode_row service r st = (Eff.Return (Some (10, 77)%float), st).
Proof.
  intros service r st.
  assert (Hhit : Geocoding.cache st !! Geocoding.tier 1 r
                 = Some (Some (10, 77)%float)) by (vm_compute; reflexivity).
  split; [exact Hhit|].
  pose proof (second_tier_short_circuit service r st _ Hhit) as [_ [_ H]].
  assert (H1 : Geocoding.cache st !! Geocoding.tier 0 r = Some None)
    by (vm_compute; reflexivity).
  rewrite H1 in H. exact H.
Defined.

(** ** Single-query mode *)

Module MinerFacts.
Import PyStr PyStrFacts Eff Service Miner.

Section Steps.
Variable nlp : string -> list (string * string).
Variable set_iter : list string -> list string.
Variable service : oracle.
Variable latlng_to_cell : float -> float -> nat -> string.

(** the world right after the service was asked for one more query *)
Lemma get_lat_lon_eq (location_name : string) (district_hint : option string)
  (st : state) :
  get_lat_lon service location_name district_hint st =
  if negb (truthy location_name) then (Return None, st)
  else
    let key := cache_key location_name district_hint in
    let q := search_query location_name district_hint in
    match LOCATION_CACHE st !! key with
    | Some v => (Return (Some v), st)
    | None =>
        match service (calls st) q with
        | Located lat lon =>
            if in_bounds lat then
              (Return (Some (lat, lon)),
               {| LOCATION_CACHE := <[key := (lat, lon)]> (LOCATION_CACHE st);
                  calls := calls st ++ [q] |})
            else
              (Return None,
               {| LOCATION_CACHE := LOCATION_CACHE st; calls := calls st ++ [q] |})
        | _ =>
            (Return None,
             {| LOCATION_CACHE := LOCATION_CACHE st; calls := calls st ++ [q] |})
        end
    end.
Proof.
  unfold get_lat_lon. destruct (negb (truthy location_name)); [reflexivity|].
  unfold bind at 1, gets. simpl.
  destruct (LOCATION_CACHE st !! cache_key location_name district_hint);
    [reflexivity|].
  unfold try_except, bind, geocode_service.
  destruct (service (calls st) (search_query location_name district_hint))
    as [lat lon| |]; try reflexivity.
  destruct (in_bounds lat); reflexivity.
Qed.

(** [get_lat_lon] never raises *)
Lemma get_lat_lon_returns (location_name : string)
  (district_hint : option string) (st : state) :
  exists c st',
    get_lat_lon service location_name district_hint st = (Return c, st').
Proof.
  rewrite get_lat_lon_eq.
  destruct (negb (truthy location_name)); [eauto|]. simpl.
  destruct (LOCATION_CACHE st !! _); [eauto|].
  destruct (service _ _) as [lat lon| |]; eauto.
  destruct (in_bounds lat); eauto.
Qed.

Lemma get_lat_lon_bounded (location_name : string)
  (district_hint : option string) (st : state) :
  bounded st ->
  bounded (snd (get_lat_lon service location_name district_hint st)).
Proof.
  intros Hst. rewrite get_lat_lon_eq.
  destruct (negb (truthy location_name)); [exact Hst|]. simpl.
  destruct (LOCATION_CACHE st !! _); [exact Hst|].
  destruct (service _ _) as [lat lon| |]; try exact Hst.
  destruct (in_bounds lat) eqn:Hlat; [|exact Hst].
  unfold bounded. simpl. apply map_Forall_insert_2; [exact Hlat|exact Hst].
Qed.

(** entries of the cache are never removed nor changed *)
Lemma get_lat_lon_keeps (location_name : string)
  (district_hint : option string) (st : state) (k : string) (v : coords) :
  LOCATION_CACHE st !! k = Some v ->
  LOCATION_CACHE (snd (get_lat_lon service location_name district_hint st)) !! k
  = Some v.
Proof.
  intros Hk. rewrite get_lat_lon_eq.
  destruct (negb (truthy location_name)); [exact Hk|]. simpl.
  destruct (LOCATION_CACHE st !! cache_key _ _) eqn:Hkey; [exact Hk|].
  destruct (service _ _) as [lat lon| |]; try exact Hk.
  destruct (in_bounds lat); [|exact Hk]. simpl.
  rewrite lookup_insert_ne; [exact Hk|]. congruence.
Qed.

(** a positive answer is in the cache afterwards *)
Lemma get_lat_lon_positive (location_name : string)
  (district_hint : option string) (st : state) (c : coords) :
  fst (get_lat_lon service location_name district_hint st) = Return (Some c) ->
  truthy location_name = true /\
  LOCATION_CACHE (snd (get_lat_lon service location_name district_hint st))
    !! cache_key location_name district_hint = Some c.
Proof.
  rewrite get_lat_lon_eq.
  destruct (truthy location_name); simpl; [|discriminate].
  destruct (LOCATION_CACHE st !! cache_key _ _) as [v|] eqn:Hkey; simpl.
  - intros [= ->]. split; [reflexivity|exact Hkey].
  - destruct (service _ _) as [lat lon| |]; simpl; try discriminate.
    destruct (in_bounds lat); simpl; [|discriminate].
    intros [= <-]. split; [reflexivity|]. apply lookup_insert_eq.
Qed.

(** a negative answer stores nothing *)
Lemma get_lat_lon_negative (location_name : string)
  (district_hint : option string) (st : state) :
  fst (get_lat_lon service location_name district_hint st) = Return None ->
  LOCATION_CACHE (snd (get_lat_lon service location_name district_hint st))
  = LOCATION_CACHE st.
Proof.
  rewrite get_lat_lon_eq.
  destruct (negb (truthy location_name)); [reflexivity|]. simpl.
  destruct (LOCATION_CACHE st !! cache_key _ _); [reflexivity|].
  destruct (service _ _) as [lat lon| |]; try reflexivity.
  destruct (in_bounds lat); [discriminate|reflexivity].
Qed.

Lemma resolve_all_returns (reqs : list (string * option string)) (st : state) :
  exists cs st', resolve_all service reqs st = (Return cs, st').
Proof.
  revert st. induction reqs as [|[l d] rest IH]; intros st; [simpl; eauto|].
  simpl. unfold bind at 1.
  destruct (get_lat_lon_returns l d st) as (c & st1 & ->).
  unfold bind at 1. destruct (IH st1) as (cs & st2 & ->). eauto.
Qed.

Lemma resolve_all_bounded (reqs : list (string * option string)) (st : state) :
  bounded st -> bounded (snd (resolve_all service reqs st)).
Proof.
  revert st. induction reqs as [|[l d] rest IH]; intros st Hst; [exact Hst|].
  simpl. unfold bind at 1.
  pose proof (get_lat_lon_bounded l d st Hst) as H1.
  destruct (get_lat_lon_returns l d st) as (c & st1 & E). rewrite E in *.
  unfold bind at 1. specialize (IH st1 H1).
  destruct (resolve_all_returns rest st1) as (cs & st2 & E2). rewrite E2 in *.
  exact IH.
Qed.

Lemma resolve_all_keeps (reqs : list (string * option string)) (st : state)
  (k : string) (v : coords) :
  LOCATION_CACHE st !! k = Some v ->
  LOCATION_CACHE (snd (resolve_all service reqs st)) !! k = Some v.
Proof.
  revert st. induction reqs as [|[l d] rest IH]; intros st Hst; [exact Hst|].
  simpl. unfold bind at 1.
  pose proof (get_lat_lon_keeps l d st k v Hst) as H1.
  destruct (get_lat_lon_returns l d st) as (c & st1 & E). rewrite E in *.
  unfold bind at 1. specialize (IH st1 H1).
  destruct (resolve_all_returns rest st1) as (cs & st2 & E2). rewrite E2 in *.
  exact IH.
Qed.

(** the body of the loop over [all_events], case by case *)
Lemma process_event_eq (ev : event) (st : state) :
  process_event nlp set_iter service latlng_to_cell ev st =
  match extract_location_from_text nlp set_iter (text ev) with
  | (Some loc, district) =>
      if truthy loc then
        match get_lat_lon service loc district st with
        | (Return (Some (lat, lon)), st') =>
            if float_truthy lat then
              (Return [ {| event_date := date ev;
                           hex_id := latlng_to_cell lat lon 8;
                           latitude := lat;
                           longitude := lon;
                           location_name := loc;
                           district_context := district;
                           species := species_of (text ev);
                           rec_source_type := source_type ev;
                           description := take 100 (text ev);
                           rec_url := url ev |} ], st')
            else (Return [], st')
        | (Return None, st') => (Return [], st')
        | (Raise, st') => (Raise, st')
        end
      else (Return [], st)
  | (None, _) => (Return [], st)
  end.
Proof.
  unfold process_event.
  destruct (extract_location_from_text nlp set_iter (text ev)) as [[loc|] d];
    [|reflexivity].
  destruct (truthy loc); [|reflexivity].
  unfold bind.
  destruct (get_lat_lon service loc d st) as [[[[lat lon]|]|] st'];
    try reflexivity.
  destruct (float_truthy lat); reflexivity.
Qed.

Lemma process_event_spec (ev : event) (st : state) :
  exists data st',
    process_event nlp set_iter service latlng_to_cell ev st = (Return data, st')
    /\ Forall (tagged_from ev) data
    /\ (bounded st -> bounded st').
Proof.
  rewrite process_event_eq.
  destruct (extract_location_from_text nlp set_iter (text ev)) as [[loc|] d];
    [|exists [], st; auto].
  destruct (truthy loc); [|exists [], st; auto].
  pose proof (get_lat_lon_bounded loc d st) as Hb.
  destruct (get_lat_lon_returns loc d st) as (c & st' & E). rewrite E in *.
  destruct c as [[lat lon]|]; [|exists [], st'; auto].
  destruct (float_truthy lat) eqn:Hlat; [|exists [], st'; auto].
  eexists _, st'. split; [reflexivity|]. split; [|exact Hb].
  apply Forall_singleton. repeat split. exact Hlat.
Qed.

Lemma process_events_spec (all_events : list event) (st : state) :
  exists final_data st',
    process_events nlp set_iter service latlng_to_cell all_events st
    = (Return final_data, st')
    /\ Forall (fun r => exists ev, ev ∈ all_events /\ tagged_from ev r) final_data
    /\ (bounded st -> bounded st').
Proof.
  revert st. induction all_events as [|ev rest IH]; intros st.
  - exists [], st. simpl. auto.
  - simpl. unfold bind at 1.
    destruct (process_event_spec ev st) as (new & st1 & -> & Hnew & Hb1).
    unfold bind at 1.
    destruct (IH st1) as (more & st2 & -> & Hmore & Hb2).
    exists (new ++ more), st2. split; [reflexivity|]. split; [|auto].
    apply Forall_app. split.
    + eapply Forall_impl; [exact Hnew|]. intros r Hr. exists ev.
      split; [apply list_elem_of_here|exact Hr].
    + eapply Forall_impl; [exact Hmore|]. intros r (e & He & Hr). exists e.
      split; [apply list_elem_of_further, He|exact Hr].
Qed.

(** the loop, event by event *)
Lemma process_events_cons (ev : event) (rest : list event) (st : state) :
  process_events nlp set_iter service latlng_to_cell (ev :: rest) st =
  match process_event nlp set_iter service latlng_to_cell ev st with
  | (Return new, st1) =>
      match process_events nlp set_iter service latlng_to_cell rest st1 with
      | (Return more, st2) => (Return (new ++ more), st2)
      | (Raise, st2) => (Raise, st2)
      end
  | (Raise, st1) => (Raise, st1)
  end.
Proof.
  simpl. unfold bind at 1.
  destruct (process_event nlp set_iter service latlng_to_cell ev st)
    as [[new|] st1]; [|reflexivity].
  unfold bind at 1.
  destruct (process_events nlp set_iter service latlng_to_cell rest st1)
    as [[more|] st2]; reflexivity.
Qed.

(** the loop around one event: the records of the events before it, its
    own, and those of the events after it, with the state handed on *)
Lemma process_events_middle (before : list event) (ev : event)
  (rest : list event) (st : state) :
  exists earlier st0 data st1 more st2,
    process_events nlp set_iter service latlng_to_cell before st
    = (Return earlier, st0) /\
    process_event nlp set_iter service latlng_to_cell ev st0
    = (Return data, st1) /\
    process_events nlp set_iter service latlng_to_cell rest st1
    = (Return more, st2) /\
    process_events nlp set_iter service latlng_to_cell (before ++ ev :: rest) st
    = (Return (earlier ++ data ++ more), st2).
Proof.
  revert st. induction before as [|e b IH]; intros st.
  - destruct (process_event_spec ev st) as (data & st1 & E1 & _).
    destruct (process_events_spec rest st1) as (more & st2 & E2 & _).
    exists [], st, data, st1, more, st2.
    split; [reflexivity|]. split; [exact E1|]. split; [exact E2|].
    change ([] ++ ev :: rest) with (ev :: rest).
    rewrite process_events_cons, E1, E2. reflexivity.
  - destruct (process_event_spec e st) as (d0 & sta & E0 & _).
    destruct (IH sta) as (earlier & st0 & data & st1 & more & st2
                          & Eb & E1 & E2 & Eall).
    exists (d0 ++ earlier), st0, data, st1, more, st2.
    split; [rewrite process_events_cons, E0, Eb; reflexivity|].
    split; [exact E1|]. split; [exact E2|].
    change ((e :: b) ++ ev :: rest) with (e :: (b ++ ev :: rest)).
    rewrite process_events_cons, E0, Eall, app_assoc. reflexivity.
Qed.

End Steps.

(** a latitude within the bounds is not zero: it is truthy *)
Lemma in_bounds_truthy (lat : float) :
  in_bounds lat = true -> float_truthy lat = true.
Proof.
  unfold in_bounds, float_truthy. intros H.
  apply andb_true_iff in H as [H _].
  rewrite FloatAxioms.ltb_spec in H. rewrite FloatAxioms.eqb_spec.
  destruct (Prim2SF lat) as [s|s| |s m e]; vm_compute in H;
    try discriminate; try (destruct s; reflexivity); reflexivity.
Qed.

(** *** the sort used in the examples keeps the promise of the library *)

Lemma insert_desc_Permutation (r : record) (df : list record) :
  insert_desc r df ≡ₚ r :: df.
Proof.
  induction df as [|y rest IH]; [reflexivity|]. simpl.
  destruct (decide (date_desc r y)); [reflexivity|].
  rewrite IH. apply Permutation_swap.
Qed.

Lemma insert_desc_HdRel (y r : record) (df : list record) :
  date_desc y r -> HdRel date_desc y df ->
  HdRel date_desc y (insert_desc r df).
Proof.
  intros Hyr Hhd. destruct df as [|z rest]; simpl; [constructor; exact Hyr|].
  destruct (decide (date_desc r z)); constructor; [exact Hyr|].
  inversion Hhd; assumption.
Qed.

Lemma insert_desc_Sorted (r : record) (df : list record) :
  Sorted date_desc df -> Sorted date_desc (insert_desc r df).
Proof.
  induction df as [|y rest IH]; intros Hs; simpl.
  - repeat constructor.
  - destruct (decide (date_desc r y)) as [Hry|Hry].
    + constructor; [exact Hs|constructor; exact Hry].
    + inversion Hs as [|? ? Hrest Hhd]; subst.
      constructor; [apply IH, Hrest|].
      apply insert_desc_HdRel; [|exact Hhd].
      destruct (total date_desc r y) as [H|H]; [contradiction|exact H].
Qed.

Lemma sort_values_stable_sorts : sorts_descending sort_values_stable.
Proof.
  intros df sorted H. injection H as <-.
  induction df as [|r rest [IHs IHp]]; [split; [constructor|reflexivity]|].
  simpl. split; [apply insert_desc_Sorted, IHs|].
  rewrite insert_desc_Permutation, IHp. reflexivity.
Qed.

(** the chain of [if / elif] is the scan of the ordered keyword list *)
Lemma species_of_keyword_scan (t : string) : species_of t = keyword_scan t.
Proof.
  unfold species_of, keyword_scan, SPECIES_KEYWORDS.
  cbn [List.find existsb fst snd].
  destruct (str_in "elephant" (lower t)); [reflexivity|].
  destruct (str_in "tiger" (lower t)); [reflexivity|].
  destruct (str_in "boar" (lower t)); [reflexivity|].
  destruct (str_in "gaur" (lower t)); [reflexivity|].
  destruct (str_in "bison" (lower t)); [reflexivity|].
  destruct (str_in "leopard" (lower t)); reflexivity.
Qed.

(** [List.find] gives the first element, in list order, that passes *)
Lemma find_first {A} (p : A -> bool) (l : list A) (j : nat) (y : A) :
  l !! j = Some y -> p y = true ->
  exists i x,
    List.find p l = Some x /\ l !! i = Some x /\ p x = true /\ i <= j /\
    forall k z, k < i -> l !! k = Some z -> p z = false.
Proof.
  revert j. induction l as [|a l IH]; intros j Hj Hy; [discriminate|].
  simpl. destruct (p a) eqn:Ha.
  - exists 0, a. repeat split; auto; [lia|]. intros k z Hk. lia.
  - destruct j as [|j]; [simpl in Hj; congruence|].
    destruct (IH j Hj Hy) as (i & x & Hf & Hi & Hx & Hle & Hmin).
    exists (S i), x. repeat split; auto; [lia|].
    intros [|k] z Hk Hz; [simpl in Hz; congruence|].
    apply (Hmin k); [lia|exact Hz].
Qed.

Lemma district_not_in_empty (j : nat) (d : string) :
  KERALA_DISTRICTS !! j = Some d -> str_in d "" = false.
Proof.
  unfold KERALA_DISTRICTS. intros H.
  do 12 (destruct j as [|j]; [injection H as <-; reflexivity|]).
  discriminate.
Qed.

Lemma bounded_init : bounded init.
Proof. apply map_Forall_empty. Qed.

End MinerFacts.

(** C3.  In single-query mode, when the service is asked (the place is not
    empty and its key is not cached) and answers with a latitude that is not
    strictly between 8.0 and 13.0, the resolver returns absent coordinates
    and the cache is left as it was: the answer is not stored. *)
Theorem out_of_bounds_not_cached (service : Service.oracle)
  (location_name : string) (district_hint : option string)
  (st : Miner.state) (lat lon : float)
  (Hname : PyStr.truthy location_name = true)
  (Hmiss : Miner.LOCATION_CACHE st
             !! Miner.cache_key location_name district_hint = None)
  (Hreply : service (Miner.calls st)
              (Miner.search_query location_name district_hint)
            = Service.Located lat lon)
  (Hout : (PrimFloat.ltb 8 lat && PrimFloat.ltb lat 13) = false) :
  let res := Miner.get_lat_lon service location_name district_hint st in
  fst res = Eff.Return None /\
  Miner.LOCATION_CACHE (snd res) = Miner.LOCATION_CACHE st.
Proof.
  intros res. unfold res. rewrite MinerFacts.get_lat_lon_eq.
  rewrite Hname. simpl negb. cbv iota zeta. rewrite Hmiss, Hreply.
  unfold Miner.in_bounds. rewrite Hout. split; reflexivity.
Qed.

Lemma out_of_bounds_not_cached_witness :
  let service : Service.oracle := fun _ _ => Service.Located 48.5 2.25 in
  let res := Miner.get_lat_lon service "Paris" (Some "Wayanad") Miner.init in
  fst res = Eff.Return None /\
  Miner.LOCATION_CACHE (snd res) = Miner.LOCATION_CACHE Miner.init.
Proof.
  intros service.
  apply (out_of_bounds_not_cached service "Paris" (Some "Wayanad") Miner.init
           48.5 2.25); reflexivity.
Defined.

(** C10.  From the empty cache, after any sequence of resolutions in
    single-query mode, and after phase C of the pipeline over any events,
    every value stored in the cache is a coordinate pair whose latitude is
    strictly between 8.0 and 13.0. *)
Theorem cache_holds_only_bounded (nlp : string -> list (string * string))
  (set_iter : list string -> list string) (service : Service.oracle)
  (latlng_to_cell : float -> float -> nat -> string)
  (reqs : list (string * option string)) (all_events : list Miner.event) :
  map_Forall
    (fun _ (v : Service.coords) =>
       PrimFloat.ltb 8 (fst v) = true /\ PrimFloat.ltb (fst v) 13 = true)
    (Miner.LOCATION_CACHE (snd (Miner.resolve_all service reqs Miner.init))) /\
  map_Forall
    (fun _ (v : Service.coords) =>
       PrimFloat.ltb 8 (fst v) = true /\ PrimFloat.ltb (fst v) 13 = true)
    (Miner.LOCATION_CACHE
       (snd (Miner.process_events nlp set_iter service latlng_to_cell
               all_events Miner.init))).
Proof.
  assert (Hw : forall st, Miner.bounded st ->
    map_Forall
      (fun _ (v : Service.coords) =>
         PrimFloat.ltb 8 (fst v) = true /\ PrimFloat.ltb (fst v) 13 = true)
      (Miner.LOCATION_CACHE st)).
  { intros st Hst k v Hk. specialize (Hst k v Hk). simpl in Hst.
    unfold Miner.in_bounds in Hst. apply andb_true_iff in Hst. exact Hst. }
  split; apply Hw.
  - apply MinerFacts.resolve_all_bounded, MinerFacts.bounded_init.
  - destruct (MinerFacts.process_events_spec nlp set_iter service
                latlng_to_cell all_events Miner.init) as (d & st' & -> & _ & Hb).
    apply Hb, MinerFacts.bounded_init.
Qed.

(** C1 (as the claim has it, refuted).  Two events name the same place, for
    which the service has no result.  Single-query mode stores nothing for a
    negative resolution, so phase C of the pipeline sends the same query
    string to the service twice. *)
Lemma negative_result_asked_again :
  let nlp : string -> list (string * string) := fun _ => [("Atlantis", "GPE")] in
  let service : Service.oracle := fun _ _ => Service.NoMatch in
  let all_events :=
    [ {| Miner.text := "Boar raids farms in Atlantis";
         Miner.date := "2024-05-01";
         Miner.source_type := "News/Blog";
         Miner.url := "" |};
      {| Miner.text := "Elephant herd enters Atlantis";
         Miner.date := "2024-05-02";
         Miner.source_type := "News/Blog";
         Miner.url := "" |} ] in
  Miner.calls
    (snd (Miner.process_events nlp (fun l => l) service (fun _ _ _ => "")
            all_events Miner.init))
  = ["Atlantis, , Kerala"; "Atlantis, , Kerala"].
Proof. vm_compute. reflexivity. Qed.

(** C1 (amended).  In ladder mode, over a whole run from the empty cache no
    query string is sent to the service twice: every outcome, negative ones
    too, is cached under its query.  In single-query mode only accepted
    results are cached: once a request for a place and hint has been
    answered with coordinates, every later request for the same place and
    hint, after any other requests, is answered with the same coordinates
    from the cache and sends nothing to the service; a request that is
    answered with absent coordinates stores nothing in the cache. *)
Theorem one_call_per_cached_query (ladder_service service : Service.oracle)
  (df : list Geocoding.row)
  (location_name : string) (district_hint : option string)
  (st : Miner.state) (c : Service.coords)
  (reqs : list (string * option string))
  (Hpos : fst (Miner.get_lat_lon service location_name district_hint st)
          = Eff.Return (Some c)) :
  NoDup (Geocoding.calls
           (snd (Geocoding.geocode_rows ladder_service df Geocoding.init))) /\
  (let st1 := snd (Miner.get_lat_lon service location_name district_hint st) in
   let st2 := snd (Miner.resolve_all service reqs st1) in
   Miner.get_lat_lon service location_name district_hint st2
   = (Eff.Return (Some c), st2)) /\
  (forall place hint st0,
     fst (Miner.get_lat_lon service place hint st0) = Eff.Return None ->
     Miner.LOCATION_CACHE (snd (Miner.get_lat_lon service place hint st0))
     = Miner.LOCATION_CACHE st0).
Proof.
  split; [|split].
  - pose proof (LadderFacts.geocode_rows_kept ladder_service df Geocoding.init
                  LadderFacts.consistent_init) as H.
    destruct (Geocoding.geocode_rows ladder_service df Geocoding.init)
      as [[cs|] st']; simpl in *; [apply H|exact H].
  - intros st1 st2.
    destruct (MinerFacts.get_lat_lon_positive service location_name
                district_hint st c Hpos) as [Hname Hkey].
    fold st1 in Hkey.
    pose proof (MinerFacts.resolve_all_keeps service reqs st1 _ _ Hkey) as H2.
    fold st2 in H2.
    rewrite MinerFacts.get_lat_lon_eq, Hname. simpl negb. cbv iota zeta.
    rewrite H2. reflexivity.
  - intros place hint st0. apply MinerFacts.get_lat_lon_negative.
Qed.

Lemma one_call_per_cached_query_witness :
  let service : Service.oracle := fun _ q =>
    if String.eqb q "Mananthavady, Wayanad, Kerala"
    then Service.Located 11.75 76 else Service.NoMatch in
  let df := [ {| Geocoding.place := Some "Munnar";
                 Geocoding.range := None;
                 Geocoding.district := Some "Idukki" |};
              {| Geocoding.place := Some "Munnar";
                 Geocoding.range := None;
                 Geocoding.district := Some "Idukki" |} ] in
  let reqs := [("Atlantis", None); ("Atlantis", None)] in
  fst (Miner.get_lat_lon service "Mananthavady" (Some "Wayanad") Miner.init)
  = Eff.Return (Some (11.75, 76)%float) /\
  NoDup (Geocoding.calls
           (snd (Geocoding.geocode_rows service df Geocoding.init))) /\
  let st1 :=
    snd (Miner.get_lat_lon service "Mananthavady" (Some "Wayanad") Miner.init) in
  let st2 := snd (Miner.resolve_all service reqs st1) in
  Miner.get_lat_lon service "Mananthavady" (Some "Wayanad") st2
  = (Eff.Return (Some (11.75, 76)%float), st2).
Proof.
  intros service df reqs.
  assert (Hpos :
    fst (Miner.get_lat_lon service "Mananthavady" (Some "Wayanad") Miner.init)
    = Eff.Return (Some (11.75, 76)%float)) by (vm_compute; reflexivity).
  split; [exact Hpos|].
  destruct (one_call_per_cached_query service service df "Mananthavady"
              (Some "Wayanad") Miner.init (11.75, 76)%float reqs Hpos)
    as (Hladder & Hsingle & _).
  split; [exact Hladder|exact Hsingle].
Defined.

(** C4 (as the claim has it, refuted).  In ladder mode nothing around the
    call of the geocoder catches an exception: when the call for the first
    query raises, the resolution of the record raises, the remaining queries
    are not tried, and the run over the data frame ends there. *)
Lemma ladder_exception_not_caught :
  let service : Service.oracle := fun _ _ => Service.Failure in
  let r := {| Geocoding.place := Some "Munnar";
              Geocoding.range := Some "Devikulam";
              Geocoding.district := Some "Idukki" |} in
  Geocoding.geocode_row service r Geocoding.init
  = (Eff.Raise,
     {| Geocoding.cache := ∅;
        Geocoding.calls := ["munnar, devikulam, idukki, Kerala, India"] |}) /\
  fst (Geocoding.geocode_rows service [r; r] Geocoding.init) = Eff.Raise.
Proof. vm_compute. split; reflexivity. Qed.

(** C4 (amended).  In single-query mode an exception raised by the call of
    the service is caught: that request yields absent coordinates, the cache
    is left as it was, and phase C of the pipeline never raises, whatever
    the service does.  In ladder mode the resolver has no handler of its
    own.  A failed attempt that reaches it as no result is recorded as a
    negative entry for that query alone, and the cascade goes on with the
    remaining queries; an exception that comes out of the call ends the
    resolution, with the cache as it was. *)
Theorem service_failure_handling (service ladder_service : Service.oracle)
  (location_name : string) (district_hint : option string) (st : Miner.state)
  (q : string) (rest : list string) (lst : Geocoding.state)
  (Hname : PyStr.truthy location_name = true)
  (Hmiss : Miner.LOCATION_CACHE st
             !! Miner.cache_key location_name district_hint = None)
  (Hfail : service (Miner.calls st)
             (Miner.search_query location_name district_hint)
           = Service.Failure)
  (Hq : PyStr.truthy (PyStr.strip q) = true)
  (Hlmiss : Geocoding.cache lst !! q = None) :
  Miner.get_lat_lon service location_name district_hint st
  = (Eff.Return None,
     {| Miner.LOCATION_CACHE := Miner.LOCATION_CACHE st;
        Miner.calls :=
          Miner.calls st ++ [Miner.search_query location_name district_hint] |})
  /\
  (forall nlp set_iter latlng_to_cell all_events st0,
     exists final_data st',
       Miner.process_events nlp set_iter service latlng_to_cell all_events st0
       = (Eff.Return final_data, st')) /\
  (ladder_service (Geocoding.calls lst) q = Service.NoMatch ->
   Geocoding.try_queries ladder_service (q :: rest) lst
   = Geocoding.try_queries ladder_service rest
       {| Geocoding.cache := <[q := None]> (Geocoding.cache lst);
          Geocoding.calls := Geocoding.calls lst ++ [q] |}) /\
  (ladder_service (Geocoding.calls lst) q = Service.Failure ->
   Geocoding.try_queries ladder_service (q :: rest) lst
   = (Eff.Raise,
      {| Geocoding.cache := Geocoding.cache lst;
         Geocoding.calls := Geocoding.calls lst ++ [q] |})).
Proof.
  split; [|split; [|split]].
  - rewrite MinerFacts.get_lat_lon_eq, Hname. simpl negb. cbv iota zeta.
    rewrite Hmiss, Hfail. reflexivity.
  - intros nlp set_iter latlng_to_cell all_events st0.
    destruct (MinerFacts.process_events_spec nlp set_iter service
                latlng_to_cell all_events st0) as (d & st' & E & _).
    eauto.
  - intros Hno. rewrite LadderFacts.try_queries_cons, Hq. simpl negb.
    cbv iota. rewrite Hlmiss, Hno. reflexivity.
  - intros Hex. rewrite LadderFacts.try_queries_cons, Hq. simpl negb.
    cbv iota. rewrite Hlmiss, Hex. reflexivity.
Qed.

Lemma service_failure_handling_witness :
  let service : Service.oracle := fun _ _ => Service.Failure in
  Miner.get_lat_lon service "Munnar" (Some "Idukki") Miner.init
  = (Eff.Return None,
     {| Miner.LOCATION_CACHE := ∅;
        Miner.calls := ["Munnar, Idukki, Kerala"] |}) /\
  Geocoding.try_queries service
    ["munnar, idukki, Kerala, India"; "idukki, Kerala, India"] Geocoding.init
  = (Eff.Raise,
     {| Geocoding.cache := ∅;
        Geocoding.calls := ["munnar, idukki, Kerala, India"] |}).
Proof.
  intros service.
  pose proof (service_failure_handling service service "Munnar"
                (Some "Idukki") Miner.init "munnar, idukki, Kerala, India"
                ["idukki, Kerala, India"] Geocoding.init
                eq_refl eq_refl eq_refl eq_refl eq_refl) as (H1 & _ & _ & H4).
  split; [exact H1|]. apply H4. reflexivity.
Defined.

(** C7 (as the claim has it, refuted).  With an absent hint the key the
    code forms ends in the text [None], not in the empty string: an entry
    stored under the place followed by the bare separator is not found, and
    the service is called.  And for an empty place name nothing is looked up
    and nothing is sent, although no key is cached. *)
Lemma absent_hint_key_is_not_empty_suffix :
  let service : Service.oracle := fun _ _ => Service.NoMatch in
  let st := {| Miner.LOCATION_CACHE := {[ "Munnar_" := (10, 77)%float ]};
               Miner.calls := [] |} in
  Miner.spec_key "Munnar" None = "Munnar_" /\
  Miner.cache_key "Munnar" None = "Munnar_None" /\
  Miner.cache_key "Munnar" None <> Miner.spec_key "Munnar" None /\
  Miner.LOCATION_CACHE st !! Miner.spec_key "Munnar" None
  = Some (10, 77)%float /\
  Miner.get_lat_lon service "Munnar" None st
  = (Eff.Return None,
     {| Miner.LOCATION_CACHE := {[ "Munnar_" := (10, 77)%float ]};
        Miner.calls := ["Munnar, , Kerala"] |}) /\
  Miner.get_lat_lon service "" None Miner.init = (Eff.Return None, Miner.init).
Proof. vm_compute. repeat split; try reflexivity; discriminate. Qed.

(** C7 (amended).  In single-query mode, for every non-empty place name and
    optional district hint, the cache is consulted under the key formed as
    the place, the separator [_], and the hint as Python prints it: the
    district, or the text [None] when the hint is absent.  On a hit the
    cached pair is returned and nothing is sent; on a miss exactly one call
    is sent to the service, for the query made of the place, the hint or the
    empty string, and the region. *)
Theorem single_query_key_and_call (service : Service.oracle)
  (location_name : string) (district_hint : option string) (st : Miner.state)
  (Hname : location_name <> "") :
  let key :=
    location_name +:+ "_" +:+
    match district_hint with Some d => d | None => "None" end in
  let query :=
    location_name +:+ ", " +:+ default "" district_hint +:+ ", Kerala" in
  let res := Miner.get_lat_lon service location_name district_hint st in
  match Miner.LOCATION_CACHE st !! key with
  | Some v => res = (Eff.Return (Some v), st)
  | None => Miner.calls (snd res) = (Miner.calls st ++ [query])%list
  end /\
  Miner.get_lat_lon service "" district_hint st = (Eff.Return None, st).
Proof.
  intros key query res. split; [|reflexivity]. unfold res.
  assert (Ht : PyStr.truthy location_name = true).
  { unfold PyStr.truthy. apply negb_true_iff, String.eqb_neq, Hname. }
  assert (Hq : Miner.search_query location_name district_hint = query).
  { unfold Miner.search_query, query, Miner.hint_or_empty.
    destruct district_hint as [d|]; [|reflexivity]. simpl.
    destruct d; reflexivity. }
  rewrite MinerFacts.get_lat_lon_eq, Ht, Hq. simpl negb. cbv iota zeta.
  change (Miner.cache_key location_name district_hint) with key.
  destruct (Miner.LOCATION_CACHE st !! key); [reflexivity|].
  destruct (service (Miner.calls st) query) as [lat lon| |]; try reflexivity.
  destruct (Miner.in_bounds lat); reflexivity.
Qed.

Lemma single_query_key_and_call_witness :
  let service : Service.oracle := fun _ _ => Service.Located 10 77 in
  Miner.calls (snd (Miner.get_lat_lon service "Munnar" None Miner.init))
  = ["Munnar, , Kerala"].
Proof.
  intros service.
  assert (Hname : "Munnar" <> "") by discriminate.
  exact (proj1 (single_query_key_and_call service "Munnar" None Miner.init
                  Hname)).
Defined.

(** C5.  When the raw text contains two different names of the fixed list of
    twelve districts, the district context that extraction returns is the
    contained name that stands earliest in the list: it stands no later than
    either of the two, and no name before it is contained in the text.  The
    position of the names in the text plays no part. *)
Theorem district_context_first_in_list (nlp : string -> list (string * string))
  (set_iter : list string -> list string) (text : string)
  (j1 j2 : nat) (d1 d2 : string)
  (Hd1 : Miner.KERALA_DISTRICTS !! j1 = Some d1)
  (Hd2 : Miner.KERALA_DISTRICTS !! j2 = Some d2)
  (Hne : d1 <> d2)
  (Hin1 : PyStr.str_in d1 text = true)
  (Hin2 : PyStr.str_in d2 text = true) :
  exists i d,
    snd (Miner.extract_location_from_text nlp set_iter text) = Some d /\
    Miner.KERALA_DISTRICTS !! i = Some d /\
    PyStr.str_in d text = true /\
    i <= j1 /\ i <= j2 /\
    forall k z, k < i -> Miner.KERALA_DISTRICTS !! k = Some z ->
                PyStr.str_in z text = false.
Proof.
  destruct (MinerFacts.find_first (fun dist => PyStr.str_in dist text)
              Miner.KERALA_DISTRICTS j1 d1 Hd1 Hin1)
    as (i & d & Hfind & Hi & Hd & Hle1 & Hmin).
  exists i, d.
  assert (Hle2 : i <= j2).
  { destruct (Nat.le_gt_cases i j2) as [H|H]; [exact H|].
    rewrite (Hmin j2 d2 H Hd2) in Hin2. discriminate. }
  repeat split; try assumption.
  unfold Miner.extract_location_from_text.
  destruct text as [|a text'].
  - rewrite (MinerFacts.district_not_in_empty j1 d1 Hd1) in Hin1. discriminate.
  - change (negb (PyStr.truthy (String a text'))) with false. cbv iota zeta.
    destruct (List.filter _ _); exact Hfind.
Qed.

Lemma district_context_first_in_list_witness :
  snd (Miner.extract_location_from_text (fun _ => []) (fun l => l)
         "Tiger strays from Idukki into Wayanad")
  = Some "Wayanad".
Proof.
  destruct (district_context_first_in_list (fun _ => []) (fun l => l)
              "Tiger strays from Idukki into Wayanad" 1 0 "Idukki" "Wayanad"
              eq_refl eq_refl ltac:(discriminate) eq_refl eq_refl)
    as (i & d & Hres & Hi & _ & _ & Hle & _).
  rewrite Hres. destruct i as [|i]; [|lia].
  simpl in Hi. symmetry. exact Hi.
Defined.

(** C8.  The species tag of a record is the result of scanning the
    lower-cased text of its own event against the ordered keyword list
    (elephant, tiger, boar, gaur or bison, leopard): the first entry with a
    keyword in the text gives the tag, and the tag is [Unknown] when no
    keyword occurs.  An event whose text yields a place, and for which
    [get_lat_lon] returns coordinates with a truthy latitude, appends exactly
    one record: it carries the tag of that event's text, and that event's
    date, place, district, coordinates, source and description.  In the
    result of phase C this record stands at the place of its event, after
    the records of the events before it and before those of the events after
    it.  Phase C always returns, and every record in its result is tagged
    with the scan of the text of an event.  Texts that differ only in case
    get the same tag.  An event for which no place is extracted or no
    coordinates are obtained appends nothing, so it is never tagged. *)
Theorem species_tag_by_keyword_scan (nlp : string -> list (string * string))
  (set_iter : list string -> list string) (service : Service.oracle)
  (latlng_to_cell : float -> float -> nat -> string)
  (ev : Miner.event) (st st1 : Miner.state)
  (loc : string) (district : option string) (lat lon : float)
  (Hplace : Miner.extract_location_from_text nlp set_iter (Miner.text ev)
            = (Some loc, district))
  (Hcoords : Miner.get_lat_lon service loc district st
             = (Eff.Return (Some (lat, lon)), st1))
  (Hlat : Miner.float_truthy lat = true) :
  let r := {| Miner.event_date := Miner.date ev;
              Miner.hex_id := latlng_to_cell lat lon 8;
              Miner.latitude := lat;
              Miner.longitude := lon;
              Miner.location_name := loc;
              Miner.district_context := district;
              Miner.species := Miner.keyword_scan (Miner.text ev);
              Miner.rec_source_type := Miner.source_type ev;
              Miner.description := PyStr.take 100 (Miner.text ev);
              Miner.rec_url := Miner.url ev |} in
  Miner.process_event nlp set_iter service latlng_to_cell ev st
  = (Eff.Return [r], st1) /\
  (forall before rest start earlier,
     Miner.process_events nlp set_iter service latlng_to_cell before start
     = (Eff.Return earlier, st) ->
     exists more st2,
       Miner.process_events nlp set_iter service latlng_to_cell rest st1
       = (Eff.Return more, st2) /\
       Miner.process_events nlp set_iter service latlng_to_cell
         (before ++ ev :: rest) start
       = (Eff.Return (earlier ++ r :: more), st2)) /\
  (forall all_events st0,
     exists final_data st',
       Miner.process_events nlp set_iter service latlng_to_cell all_events st0
       = (Eff.Return final_data, st') /\
       Forall
         (fun r => exists ev,
            ev ∈ all_events /\
            Miner.species r = Miner.keyword_scan (Miner.text ev) /\
            Miner.description r = PyStr.take 100 (Miner.text ev) /\
            Miner.event_date r = Miner.date ev /\
            Miner.float_truthy (Miner.latitude r) = true)
         final_data) /\
  (forall t1 t2, PyStr.lower t1 = PyStr.lower t2 ->
     Miner.species_of t1 = Miner.species_of t2) /\
  (forall ev0 st0,
     match Miner.extract_location_from_text nlp set_iter (Miner.text ev0) with
     | (Some loc0, district0) =>
         fst (Miner.get_lat_lon service loc0 district0 st0) = Eff.Return None ->
         Miner.process_event nlp set_iter service latlng_to_cell ev0 st0
         = (Eff.Return [],
            if PyStr.truthy loc0
            then snd (Miner.get_lat_lon service loc0 district0 st0) else st0)
     | (None, _) =>
         Miner.process_event nlp set_iter service latlng_to_cell ev0 st0
         = (Eff.Return [], st0)
     end).
Proof.
  intros r.
  assert (Hown : Miner.process_event nlp set_iter service latlng_to_cell ev st
                 = (Eff.Return [r], st1)).
  { rewrite MinerFacts.process_event_eq, Hplace.
    destruct (PyStr.truthy loc) eqn:Hloc.
    - rewrite Hcoords, Hlat. unfold r.
      rewrite MinerFacts.species_of_keyword_scan. reflexivity.
    - rewrite MinerFacts.get_lat_lon_eq, Hloc in Hcoords. discriminate. }
  split; [exact Hown|]. split; [|split; [|split]].
  - intros before rest start earlier Hbefore.
    destruct (MinerFacts.process_events_middle nlp set_iter service
                latlng_to_cell before ev rest start)
      as (earlier' & st0 & data & st1' & more & st2 & Eb & E1 & E2 & Eall).
    rewrite Hbefore in Eb. injection Eb as <- <-.
    rewrite Hown in E1. injection E1 as <- <-.
    exists more, st2. split; [exact E2|exact Eall].
  - intros all_events st0.
    destruct (MinerFacts.process_events_spec nlp set_iter service
                latlng_to_cell all_events st0) as (d & st' & E & Hall & _).
    exists d, st'. split; [exact E|].
    eapply Forall_impl; [exact Hall|].
    intros r0 (ev0 & Hev & Hs & Hd & Hdate & Hl). exists ev0.
    rewrite <- MinerFacts.species_of_keyword_scan. auto.
  - intros t1 t2 E. unfold Miner.species_of. rewrite E. reflexivity.
  - intros ev0 st0. rewrite MinerFacts.process_event_eq.
    destruct (Miner.extract_location_from_text nlp set_iter (Miner.text ev0))
      as [[loc0|] district0]; [|reflexivity].
    intros Hnone. destruct (PyStr.truthy loc0); [|reflexivity].
    destruct (Miner.get_lat_lon service loc0 district0 st0)
      as [[[c|]|] st1']; simpl in Hnone; try discriminate. reflexivity.
Qed.

Lemma species_tag_by_keyword_scan_witness :
  let nlp : string -> list (string * string) :=
    fun _ => [("Mananthavady", "GPE"); ("Wayanad", "GPE")] in
  let service : Service.oracle := fun _ _ => Service.Located 11.75 76 in
  let ev :=
    {| Miner.text := "Wild elephant attacks farm near Mananthavady in Wayanad";
       Miner.date := "2024-05-01";
       Miner.source_type := "News/Blog";
       Miner.url := "" |} in
  fst (Miner.process_event nlp (fun l => l) service
         (fun _ _ _ => "8861a0a8b7fffff") ev Miner.init)
  = Eff.Return
      [ {| Miner.event_date := "2024-05-01";
           Miner.hex_id := "8861a0a8b7fffff";
           Miner.latitude := 11.75;
           Miner.longitude := 76;
           Miner.location_name := "Mananthavady";
           Miner.district_context := Some "Wayanad";
           Miner.species := "Elephant";
           Miner.rec_source_type := "News/Blog";
           Miner.description :=
             "Wild elephant attacks farm near Mananthavady in Wayanad";
           Miner.rec_url := "" |} ].
Proof.
  intros nlp service ev.
  rewrite (proj1 (species_tag_by_keyword_scan nlp (fun l => l) service
                    (fun _ _ _ => "8861a0a8b7fffff") ev Miner.init
                    (snd (Miner.get_lat_lon service "Mananthavady"
                            (Some "Wayanad") Miner.init))
                    "Mananthavady" (Some "Wayanad") 11.75 76
                    eq_refl eq_refl eq_refl)).
  reflexivity.
Defined.

(** The end-to-end case of the specification: the text is tagged
    [Elephant], resolved in the district named in it, and keeps its date. *)
Example mananthavady_event :
  fst (Miner.process_events
         (fun _ => [("Mananthavady", "GPE"); ("Wayanad", "GPE")])
         (fun l => l) (fun _ _ => Service.Located 11.75 76)
         (fun _ _ _ => "8861a0a8b7fffff")
         [ {| Miner.text :=
                "Wild elephant attacks farm near Mananthavady in Wayanad";
              Miner.date := "2024-05-01";
              Miner.source_type := "News/Blog";
              Miner.url := "" |} ]
         Miner.init)
  = Eff.Return
      [ {| Miner.event_date := "2024-05-01";
           Miner.hex_id := "8861a0a8b7fffff";
           Miner.latitude := 11.75;
           Miner.longitude := 76;
           Miner.location_name := "Mananthavady";
           Miner.district_context := Some "Wayanad";
           Miner.species := "Elephant";
           Miner.rec_source_type := "News/Blog";
           Miner.description :=
             "Wild elephant attacks farm near Mananthavady in Wayanad";
           Miner.rec_url := "" |} ].
Proof. vm_compute. reflexivity. Qed.

(** C9.  When [final_data] is not empty the export is always written,
    whatever the sort of pandas does.  The frame that is written holds the
    rows of [final_data], each once.  When the sort returns, the rows are
    written in the order it gives them, that is, by event date, descending:
    each date is at least the next one, the dates being compared as strings,
    [Unknown] included.  When the sort raises, the exception is swallowed
    and the rows are written in the order of [final_data]. *)
Theorem export_sorted_or_insertion_order
  (sort_values : list Miner.record -> option (list Miner.record))
  (final_data : list Miner.record)
  (Hrows : final_data <> [])
  (Hsort : Miner.sorts_descending sort_values) :
  (exists df,
     Miner.save sort_values final_data = Some df /\
     df ≡ₚ final_data /\
     (forall sorted, sort_values final_data = Some sorted ->
        df = sorted /\ Sorted Miner.date_desc df) /\
     (sort_values final_data = None -> df = final_data)) /\
  (forall any_sort,
     is_Some (Miner.save any_sort final_data) /\
     (any_sort final_data = None ->
      Miner.save any_sort final_data = Some final_data)).
Proof.
  destruct final_data as [|r rest]; [congruence|].
  split.
  - unfold Miner.save.
    destruct (sort_values (r :: rest)) as [sorted|] eqn:E.
    + destruct (Hsort _ _ E) as [Hs Hp].
      exists sorted. split; [reflexivity|]. split; [exact Hp|].
      split; [|discriminate].
      intros sorted' H. injection H as <-. auto.
    + exists (r :: rest). split; [reflexivity|]. split; [reflexivity|].
      split; [discriminate|reflexivity].
  - intros any_sort. unfold Miner.save. split; [eauto|].
    intros ->. reflexivity.
Qed.

Lemma export_sorted_or_insertion_order_witness :
  let row date :=
    {| Miner.event_date := date; Miner.hex_id := ""; Miner.latitude := 10;
       Miner.longitude := 77; Miner.location_name := "Munnar";
       Miner.district_context := None; Miner.species := "Unknown";
       Miner.rec_source_type := "News/Blog"; Miner.description := "";
       Miner.rec_url := "" |} in
  let final_data :=
    [row "2024-03-09"; row "Unknown"; row "2024-05-01"; row "2023-12-31"] in
  Miner.save Miner.sort_values_stable final_data
  = Some [row "Unknown"; row "2024-05-01"; row "2024-03-09"; row "2023-12-31"]
  /\ Miner.save (fun _ => None) final_data = Some final_data.
Proof.
  intros row final_data.
  assert (Hrows : final_data <> []) by discriminate.
  destruct (export_sorted_or_insertion_order Miner.sort_values_stable
              final_data Hrows MinerFacts.sort_values_stable_sorts)
    as [(df & E & _ & Hsorted & _) Hany].
  split.
  - rewrite E. f_equal.
    exact (proj1 (Hsorted _ eq_refl)).
  - exact (proj2 (Hany (fun _ => None)) eq_refl).
Defined.

(** * Further properties *)

(** ** Ladder mode: what a resolution does to the cache and to the service *)

Module LadderMore.
Import PyStr PyStrFacts Eff Service Geocoding LadderFacts.

Section Run.
Variable service : oracle.

(** the cache only grows: no entry is removed or overwritten *)
Lemma try_queries_grows (qs : list string) (st : state) :
  cache st ⊆ cache (snd (try_queries service qs st)).
Proof.
  revert st. induction qs as [|q rest IH]; intros st; [reflexivity|].
  rewrite try_queries_cons.
  destruct (negb (truthy (strip q))); [apply IH|].
  destruct (cache st !! q) as [[c|]|] eqn:Hq; [reflexivity|apply IH|].
  destruct (service (calls st) q); simpl.
  - apply insert_subseteq, Hq.
  - pose proof (IH {| cache := <[q:=None]> (cache st);
                      calls := calls st ++ [q] |}) as H2.
    simpl in H2. trans (<[q:=None]> (cache st)); [|exact H2].
    apply insert_subseteq, Hq.
  - reflexivity.
Qed.

Lemma geocode_rows_grows (df : list row) (st : state) :
  cache st ⊆ cache (snd (geocode_rows service df st)).
Proof.
  revert st. induction df as [|r rest IH]; intros st; [reflexivity|].
  simpl. unfold bind at 1. unfold geocode_row.
  pose proof (try_queries_grows (generate_queries r) st) as H1.
  destruct (try_queries service (generate_queries r) st) as [[c|] st1];
    [|exact H1].
  unfold bind at 1. pose proof (IH st1) as H2.
  destruct (geocode_rows service rest st1) as [[cs|] st2];
    simpl in *; trans (cache st1); assumption.
Qed.

(** the queries sent: a selection of the ladder, in its order, all of them
    absent from the cache the resolution started with *)
Lemma try_queries_sent (qs : list string) (st : state) :
  exists new,
    calls (snd (try_queries service qs st)) = calls st ++ new /\
    new `sublist_of` qs /\
    Forall (fun q => cache st !! q = None) new.
Proof.
  revert st. induction qs as [|q rest IH]; intros st.
  - exists []. simpl. rewrite app_nil_r. auto using sublist_nil_l.
  - rewrite try_queries_cons.
    destruct (negb (truthy (strip q))).
    { destruct (IH st) as (new & E & Hsub & Hall). exists new.
      auto using sublist_cons. }
    destruct (cache st !! q) as [[c|]|] eqn:Hq.
    + exists []. simpl. rewrite app_nil_r. auto using sublist_nil_l.
    + destruct (IH st) as (new & E & Hsub & Hall). exists new.
      auto using sublist_cons.
    + destruct (service (calls st) q).
      * exists [q]. simpl. auto using sublist_skip, sublist_nil_l.
      * destruct (IH {| cache := <[q:=None]> (cache st);
                        calls := calls st ++ [q] |})
          as (new & E & Hsub & Hall).
        exists (q :: new). rewrite E. simpl. rewrite <- app_assoc.
        split; [reflexivity|]. split; [apply sublist_skip, Hsub|].
        apply Forall_cons. split; [exact Hq|].
        eapply Forall_impl; [exact Hall|]. simpl. intros x Hx.
        destruct (decide (q = x)) as [->|Hne].
        -- rewrite lookup_insert_eq in Hx. discriminate.
        -- rewrite lookup_insert_ne in Hx by exact Hne. exact Hx.
      * exists [q]. simpl. auto using sublist_skip, sublist_nil_l.
Qed.

(** an answer, once given, is given again in every larger cache, from the
    cache alone *)
Lemma try_queries_stable (qs : list string) (st st' : state)
  (a : option coords) :
  try_queries service qs st = (Return a, st') ->
  forall st2, cache st' ⊆ cache st2 ->
    try_queries service qs st2 = (Return a, st2).
Proof.
  revert st. induction qs as [|q rest IH]; intros st H st2 Hsub.
  - simpl in H. injection H as <- <-. reflexivity.
  - rewrite try_queries_cons in H. rewrite try_queries_cons.
    destruct (negb (truthy (strip q))); [eapply IH; eauto|].
    destruct (cache st !! q) as [[c|]|] eqn:Hq.
    + injection H as <- <-. rewrite (lookup_weaken _ _ _ _ Hq Hsub).
      reflexivity.
    + pose proof (try_queries_grows rest st) as Hg. rewrite H in Hg.
      simpl in Hg.
      rewrite (lookup_weaken _ _ _ _ (lookup_weaken _ _ _ _ Hq Hg) Hsub).
      eapply IH; eauto.
    + destruct (service (calls st) q) as [lat lon| |].
      * injection H as <- <-.
        assert (Hl : cache st2 !! q = Some (Some (lat, lon) : option coords)).
        { eapply lookup_weaken; [|exact Hsub]. simpl. apply lookup_insert_eq. }
        rewrite Hl. reflexivity.
      * pose proof (try_queries_grows rest
                      {| cache := <[q:=None]> (cache st);
                         calls := calls st ++ [q] |}) as Hg.
        rewrite H in Hg. simpl in Hg.
        assert (Hq1 : <[q:=None]> (cache st) !! q = Some None)
          by apply lookup_insert_eq.
        rewrite (lookup_weaken _ _ _ _ (lookup_weaken _ _ _ _ Hq1 Hg) Hsub).
        eapply IH; eauto.
      * discriminate.
Qed.

(** where an answer comes from: the tier that answered holds it in the
    cache, and every tier tried before it holds a negative entry *)
Lemma try_queries_found (qs : list string) (st st' : state) (c : coords) :
  Forall (fun q => truthy (strip q) = true) qs ->
  try_queries service qs st = (Return (Some c), st') ->
  exists k q,
    qs !! k = Some q /\ cache st' !! q = Some (Some c) /\
    forall j q', j < k -> qs !! j = Some q' -> cache st' !! q' = Some None.
Proof.
  revert st. induction qs as [|q rest IH]; intros st Hnb H;
    [discriminate|].
  apply Forall_cons_1 in Hnb as [Hq0 Hnb].
  rewrite try_queries_cons, Hq0 in H. simpl negb in H. cbv iota in H.
  assert (Hlater : forall st1,
    cache st1 !! q = Some None ->
    try_queries service rest st1 = (Return (Some c), st') ->
    exists k q0,
      (q :: rest) !! k = Some q0 /\ cache st' !! q0 = Some (Some c) /\
      forall j q', j < k -> (q :: rest) !! j = Some q' ->
                   cache st' !! q' = Some None).
  { intros st1 Hneg H1.
    destruct (IH st1 Hnb H1) as (k & q0 & Hk & Hc & Hbefore).
    exists (S k), q0. split; [exact Hk|]. split; [exact Hc|].
    intros [|j] q' Hj Hq'.
    - injection Hq' as <-.
      pose proof (try_queries_grows rest st1) as Hg. rewrite H1 in Hg.
      exact (lookup_weaken _ _ _ _ Hneg Hg).
    - apply (Hbefore j); [lia|exact Hq']. }
  destruct (cache st !! q) as [[c0|]|] eqn:Hq.
  - injection H as -> <-. exists 0, q. split; [reflexivity|].
    split; [exact Hq|]. intros j q' Hj. lia.
  - apply (Hlater st Hq H).
  - destruct (service (calls st) q) as [lat lon| |].
    + injection H as <- <-. exists 0, q. split; [reflexivity|].
      split; [apply lookup_insert_eq|]. intros j q' Hj. lia.
    + apply (Hlater _ (lookup_insert_eq _ _ _) H).
    + discriminate.
Qed.

(** an absent answer leaves every tier with a negative entry *)
Lemma try_queries_exhausted (qs : list string) (st st' : state) :
  Forall (fun q => truthy (strip q) = true) qs ->
  try_queries service qs st = (Return None, st') ->
  Forall (fun q => cache st' !! q = Some None) qs.
Proof.
  revert st. induction qs as [|q rest IH]; intros st Hnb H;
    [apply Forall_nil_2|].
  apply Forall_cons_1 in Hnb as [Hq0 Hnb].
  rewrite try_queries_cons, Hq0 in H. simpl negb in H. cbv iota in H.
  assert (Hlater : forall st1,
    cache st1 !! q = Some None ->
    try_queries service rest st1 = (Return None, st') ->
    Forall (fun q => cache st' !! q = Some None) (q :: rest)).
  { intros st1 Hneg H1. apply Forall_cons. split; [|eapply IH; eauto].
    pose proof (try_queries_grows rest st1) as Hg. rewrite H1 in Hg.
    exact (lookup_weaken _ _ _ _ Hneg Hg). }
  destruct (cache st !! q) as [[c0|]|] eqn:Hq.
  - discriminate.
  - apply (Hlater st Hq H).
  - destruct (service (calls st) q) as [lat lon| |].
    + discriminate.
    + apply (Hlater _ (lookup_insert_eq _ _ _) H).
    + discriminate.
Qed.

End Run.

(** the ladder has five tiers *)
Lemma tier_lookup (r : row) (k : nat) (q : string) :
  generate_queries r !! k = Some q <-> k < 5 /\ tier k r = q.
Proof.
  unfold tier, generate_queries.
  do 5 (destruct k as [|k]; [simpl; split; [intros [= <-]|intros [_ <-]];
                              auto with lia|]).
  simpl. split; [discriminate|]. intros [H _]. lia.
Qed.

End LadderMore.

(** X1.  In ladder mode the cache only grows: an entry that is in the cache,
    positive or negative, is still there with the same value after a record
    is resolved and after a whole run over rows, also when the run ends in
    an exception. *)
Theorem ladder_cache_only_grows (service : Service.oracle)
  (r : Geocoding.row) (df : list Geocoding.row) (st : Geocoding.state)
  (q : string) (v : option Service.coords)
  (Hin : Geocoding.cache st !! q = Some v) :
  Geocoding.cache (snd (Geocoding.geocode_row service r st)) !! q = Some v /\
  Geocoding.cache (snd (Geocoding.geocode_rows service df st)) !! q = Some v.
Proof.
  split; eapply lookup_weaken; try exact Hin.
  - apply LadderMore.try_queries_grows.
  - apply LadderMore.geocode_rows_grows.
Qed.

Lemma ladder_cache_only_grows_witness :
  let service : Service.oracle := fun _ _ => Service.Located 10 77 in
  let r := {| Geocoding.place := Some "Munnar";
              Geocoding.range := None;
              Geocoding.district := Some "Idukki" |} in
  let st := {| Geocoding.cache := {[ "munnar, , idukki, Kerala, India" := None ]};
               Geocoding.calls := [] |} in
  Geocoding.cache (snd (Geocoding.geocode_row service r st))
    !! "munnar, , idukki, Kerala, India" = Some None /\
  Geocoding.cache (snd (Geocoding.geocode_rows service [r; r] st))
    !! "munnar, , idukki, Kerala, India" = Some None.
Proof.
  intros service r st.
  apply (ladder_cache_only_grows service r [r; r] st
           "munnar, , idukki, Kerala, India" None).
  reflexivity.
Defined.

(** X2.  In ladder mode an answer is stable for the rest of the run: once a
    record has been resolved, with coordinates or with none, resolving the
    same record again gives the same answer from the cache alone, without a
    call and without a change of the cache; this holds right away, after any
    further rows, and in every world whose cache contains the entries the
    resolution left. *)
Theorem ladder_answer_stable (service : Service.oracle)
  (r : Geocoding.row) (st st' : Geocoding.state) (a : option Service.coords)
  (Hfirst : Geocoding.geocode_row service r st = (Eff.Return a, st')) :
  Geocoding.geocode_row service r st' = (Eff.Return a, st') /\
  (forall df,
     let st2 := snd (Geocoding.geocode_rows service df st') in
     Geocoding.geocode_row service r st2 = (Eff.Return a, st2)) /\
  (forall st2, Geocoding.cache st' ⊆ Geocoding.cache st2 ->
     Geocoding.geocode_row service r st2 = (Eff.Return a, st2)).
Proof.
  assert (H : forall st2, Geocoding.cache st' ⊆ Geocoding.cache st2 ->
            Geocoding.geocode_row service r st2 = (Eff.Return a, st2)).
  { intros st2. apply (LadderMore.try_queries_stable service _ st st' a Hfirst). }
  split; [apply H; reflexivity|]. split; [|exact H].
  intros df st2. apply H, LadderMore.geocode_rows_grows.
Qed.

Lemma ladder_answer_stable_witness :
  let service : Service.oracle := fun _ q =>
    if String.eqb q "munnar, idukki, Kerala, India"
    then Service.Located 10 77 else Service.NoMatch in
  let r := {| Geocoding.place := Some "Munnar";
              Geocoding.range := Some "Anamudi";
              Geocoding.district := Some "Idukki" |} in
  let st' := snd (Geocoding.geocode_row service r Geocoding.init) in
  Geocoding.geocode_row service r st' = (Eff.Return (Some (10, 77)%float), st').
Proof.
  intros service r st'.
  assert (Hfirst : Geocoding.geocode_row service r Geocoding.init
                   = (Eff.Return (Some (10, 77)%float), st'))
    by (vm_compute; reflexivity).
  exact (proj1 (ladder_answer_stable service r Geocoding.init st' _ Hfirst)).
Defined.

(** X3.  Where a ladder answer comes from.  When a record is resolved with
    coordinates, some tier of its ladder holds exactly these coordinates in
    the cache and every tier before it holds a negative entry; when it is
    resolved with none, all five tiers hold a negative entry. *)
Theorem ladder_answer_provenance (service : Service.oracle)
  (r : Geocoding.row) (st st' : Geocoding.state) (a : option Service.coords)
  (Hres : Geocoding.geocode_row service r st = (Eff.Return a, st')) :
  match a with
  | Some c =>
      exists k, k < 5 /\
        Geocoding.cache st' !! Geocoding.tier k r = Some (Some c) /\
        forall j, j < k ->
          Geocoding.cache st' !! Geocoding.tier j r = Some None
  | None =>
      forall k, k < 5 ->
        Geocoding.cache st' !! Geocoding.tier k r = Some None
  end.
Proof.
  pose proof (LadderFacts.generate_queries_not_blank r) as Hnb.
  destruct a as [c|].
  - destruct (LadderMore.try_queries_found service _ st st' c Hnb Hres)
      as (k & q & Hk & Hc & Hbefore).
    apply LadderMore.tier_lookup in Hk as [Hk <-].
    exists k. split; [exact Hk|]. split; [exact Hc|].
    intros j Hj. apply (Hbefore j (Geocoding.tier j r) Hj).
    apply LadderMore.tier_lookup. split; [lia|reflexivity].
  - pose proof (LadderMore.try_queries_exhausted service _ st st' Hnb Hres)
      as Hall.
    intros k Hk. rewrite Forall_lookup in Hall. apply (Hall k).
    apply LadderMore.tier_lookup. split; [exact Hk|reflexivity].
Qed.

Lemma ladder_answer_provenance_witness :
  let service : Service.oracle := fun _ _ => Service.NoMatch in
  let r := {| Geocoding.place := Some "Atlantis";
              Geocoding.range := None;
              Geocoding.district := None |} in
  let st' := snd (Geocoding.geocode_row service r Geocoding.init) in
  Geocoding.cache st' !! Geocoding.tier 0 r = Some None /\
  Geocoding.cache st' !! Geocoding.tier 4 r = Some None.
Proof.
  intros service r st'.
  assert (Hres : Geocoding.geocode_row service r Geocoding.init
                 = (Eff.Return None, st')) by (vm_compute; reflexivity).
  pose proof (ladder_answer_provenance service r Geocoding.init st' None Hres)
    as H.
  split; apply H; lia.
Defined.

(** X4.  What one ladder resolution sends to the service: at most five
    queries, each one a tier of the record, in ladder order, and each one
    absent from the cache the resolution started with.  A record whose tiers
    are all cached sends nothing. *)
Theorem ladder_calls_per_record (service : Service.oracle)
  (r : Geocoding.row) (st : Geocoding.state) :
  exists new,
    Geocoding.calls (snd (Geocoding.geocode_row service r st))
    = (Geocoding.calls st ++ new)%list /\
    length new <= 5 /\
    new `sublist_of` Geocoding.generate_queries r /\
    Forall (fun q => Geocoding.cache st !! q = None) new.
Proof.
  destruct (LadderMore.try_queries_sent service (Geocoding.generate_queries r) st)
    as (new & E & Hsub & Hall).
  exists new. split; [exact E|]. split; [|auto].
  apply sublist_length in Hsub. exact Hsub.
Qed.

(** ** The normalizer: the shape of its result *)

Module NormalizeMore.
Import PyStr PyStrFacts Geocoding.

Lemma all_impl (p p' : ascii -> bool) (s : string) :
  (forall c, p c = true -> p' c = true) ->
  all p s = true -> all p' s = true.
Proof.
  intros Hpp. induction s as [|c r IH]; [reflexivity|]. simpl.
  intros H. apply andb_true_iff in H as [Hc Hr].
  rewrite (Hpp c Hc), (IH Hr). reflexivity.
Qed.

Lemma fixed_not_hybrid (c : ascii) :
  Ascii.eqb (hybrid_char c) c = true ->
  negb (Ascii.eqb c "-") && negb (Ascii.eqb c "/") = true.
Proof. by_cases_on_char c. Qed.

Lemma isspace_lower_char (c : ascii) : isspace (lower_char c) = isspace c.
Proof. by_cases_on_char c. Qed.

Lemma isspace_hybrid_char (c : ascii) :
  isspace c = true -> isspace (hybrid_char c) = true.
Proof. by_cases_on_char c. Qed.

Lemma all_isspace_lower (s : string) :
  all isspace s = true -> all isspace (lower s) = true.
Proof.
  induction s as [|c r IH]; [reflexivity|]. simpl.
  rewrite isspace_lower_char. intros H.
  apply andb_true_iff in H as [-> Hr]. simpl. auto.
Qed.

Lemma lstrip_blank (s : string) : all isspace s = true -> lstrip s = "".
Proof.
  induction s as [|c r IH]; [reflexivity|]. simpl. intros H.
  apply andb_true_iff in H as [-> Hr]. auto.
Qed.

(** *** no stage lengthens the text *)

Lemma length_re_sub_brackets (b : bool) (s : string) :
  String.length (re_sub_brackets b s) <= String.length s.
Proof.
  revert b. induction s as [|c r IH]; intros b; [reflexivity|]. simpl.
  destruct b.
  - destruct (Ascii.eqb c ")"); [specialize (IH false)|specialize (IH true)];
      lia.
  - destruct (Ascii.eqb c "(" && closes r).
    + specialize (IH true). lia.
    + simpl. specialize (IH false). lia.
Qed.

Lemma length_re_sub_hybrids (s : string) :
  String.length (re_sub_hybrids s) = String.length s.
Proof. induction s as [|c r IH]; simpl; congruence. Qed.

Lemma length_re_sub_spaces (b : bool) (s : string) :
  String.length (re_sub_spaces b s) <= String.length s.
Proof.
  revert b. induction s as [|c r IH]; intros b; [reflexivity|]. simpl.
  destruct (isspace c).
  - destruct b; simpl; specialize (IH true); lia.
  - simpl. specialize (IH false). lia.
Qed.

Lemma length_lstrip (s : string) : String.length (lstrip s) <= String.length s.
Proof.
  induction s as [|c r IH]; [reflexivity|]. simpl.
  destruct (isspace c); simpl; lia.
Qed.

Lemma length_rstrip (s : string) : String.length (rstrip s) <= String.length s.
Proof.
  induction s as [|c r IH]; [reflexivity|]. rewrite rstrip_cons.
  destruct (rstrip r) as [|d r'].
  - destruct (isspace c); simpl; lia.
  - simpl in *. lia.
Qed.

End NormalizeMore.

(** X6.  The result of [normalize] is in normal form, for every input string
    (multi-line ones too): it has no upper-case letter, no hyphen and no
    slash, its only white space is single blanks, and it neither starts nor
    ends with white space. *)
Theorem normalize_normal_form (x : string) :
  let y := Geocoding.normalize (Some x) in
  PyStr.lower y = y /\
  PyStr.all (fun c => negb (Ascii.eqb c "-") && negb (Ascii.eqb c "/")) y = true /\
  PyStr.spaced false y = true /\
  PyStr.strip y = y.
Proof.
  intros y. split; [|split; [|split]].
  - apply PyStrFacts.lower_fixed, NormalizeFacts.normalize_lowered.
  - apply (NormalizeMore.all_impl _ _ _ NormalizeMore.fixed_not_hybrid).
    apply NormalizeFacts.normalize_unhyphenated.
  - apply NormalizeFacts.normalize_spaced.
  - unfold y. rewrite NormalizeFacts.normalize_staged.
    apply PyStrFacts.strip_idem.
Qed.

(** X7.  After the lower-casing, no step of [normalize] lengthens the text:
    the result has at most as many characters as the lower-cased input (the
    steps after [lower] only delete characters or replace one by one). *)
Theorem normalize_not_longer_than_lowered (x : string) :
  String.length (Geocoding.normalize (Some x))
  <= String.length (PyStr.lower x).
Proof.
  rewrite NormalizeFacts.normalize_staged. unfold PyStr.strip, Geocoding.staged.
  pose proof (NormalizeMore.length_rstrip
    (PyStr.lstrip (PyStr.re_sub_spaces false
       (PyStr.re_sub_hybrids (PyStr.re_sub_brackets false (PyStr.lower x)))))).
  pose proof (NormalizeMore.length_lstrip
    (PyStr.re_sub_spaces false
       (PyStr.re_sub_hybrids (PyStr.re_sub_brackets false (PyStr.lower x))))).
  pose proof (NormalizeMore.length_re_sub_spaces false
    (PyStr.re_sub_hybrids (PyStr.re_sub_brackets false (PyStr.lower x)))).
  pose proof (NormalizeMore.length_re_sub_hybrids
    (PyStr.re_sub_brackets false (PyStr.lower x))).
  pose proof (NormalizeMore.length_re_sub_brackets false (PyStr.lower x)).
  lia.
Qed.

(** X8.  A text made of white space only (the empty text included) is
    normalized to the empty string, like an absent one. *)
Theorem normalize_blank (x : string)
  (Hblank : PyStr.all PyStr.isspace x = true) :
  Geocoding.normalize (Some x) = "".
Proof.
  rewrite NormalizeFacts.normalize_staged. unfold PyStr.strip, Geocoding.staged.
  rewrite NormalizeMore.lstrip_blank; [reflexivity|].
  apply PyStrFacts.all_re_sub_spaces; [reflexivity|].
  apply PyStrFacts.all_re_sub_hybrids; [exact NormalizeMore.isspace_hybrid_char|].
  apply PyStrFacts.all_re_sub_brackets, NormalizeMore.all_isspace_lower, Hblank.
Qed.

Lemma normalize_blank_witness :
  Geocoding.normalize (Some (String " " (String "009" (String "010" "")))) = "".
Proof.
  apply (normalize_blank (String " " (String "009" (String "010" "")))).
  reflexivity.
Defined.

(** X9.  On a text without a line feed [normalize] removes every bracket
    pair: in the result no opening bracket has a closing bracket anywhere
    after it. *)
Theorem normalize_removes_bracket_pairs (x : string)
  (Hline : PyStr.no_lf x = true) :
  PyStr.unpaired (Geocoding.normalize (Some x)) = true.
Proof. apply NormalizeFacts.normalize_unpaired, Hline. Qed.

Lemma normalize_removes_bracket_pairs_witness :
  PyStr.unpaired (Geocoding.normalize (Some "Munnar (Town) ((inner) outer)"))
  = true.
Proof.
  apply (normalize_removes_bracket_pairs "Munnar (Town) ((inner) outer)").
  reflexivity.
Defined.

(** ** Single-query mode and the pipeline: further facts *)

Module MinerMore.
Import PyStr PyStrFacts Eff Service Miner MinerFacts.

Section Steps.
Variable nlp : string -> list (string * string).
Variable set_iter : list string -> list string.
Variable service : oracle.
Variable latlng_to_cell : float -> float -> nat -> string.

(** one request sends at most one query *)
Lemma get_lat_lon_sent (location_name : string)
  (district_hint : option string) (st : state) :
  exists new,
    calls (snd (get_lat_lon service location_name district_hint st))
    = calls st ++ new /\ length new <= 1.
Proof.
  rewrite get_lat_lon_eq.
  destruct (negb (truthy location_name));
    [exists []; simpl; rewrite app_nil_r; auto|]. simpl.
  destruct (LOCATION_CACHE st !! _);
    [exists []; simpl; rewrite app_nil_r; auto|].
  destruct (service _ _) as [lat lon| |];
    try solve [eexists (_ :: nil); simpl; auto].
  destruct (in_bounds lat); eexists (_ :: nil); simpl; auto.
Qed.

(** coordinates that are returned are within the bounds *)
Lemma get_lat_lon_in_bounds (location_name : string)
  (district_hint : option string) (st : state) (lat lon : float) :
  bounded st ->
  fst (get_lat_lon service location_name district_hint st)
  = Return (Some (lat, lon)) ->
  in_bounds lat = true.
Proof.
  intros Hst Hres.
  pose proof (get_lat_lon_bounded service location_name district_hint st Hst)
    as Hb.
  destruct (get_lat_lon_positive service location_name district_hint st _ Hres)
    as [_ Hkey].
  exact (Hb _ _ Hkey).
Qed.

(** the body of the loop: no record, or one record made from the event *)
Lemma process_event_cases (ev : event) (st : state) :
  exists data st',
    process_event nlp set_iter service latlng_to_cell ev st = (Return data, st')
    /\ (data = [] \/
        exists r, data = [r] /\ assembled_from nlp set_iter latlng_to_cell ev r
                  /\ (bounded st -> in_bounds (latitude r) = true))
    /\ (bounded st -> bounded st')
    /\ exists new, calls st' = calls st ++ new /\ length new <= 1.
Proof.
  rewrite process_event_eq.
  assert (Hnone : exists new : list string,
            calls st = calls st ++ new /\ length new <= 1).
  { exists []. rewrite app_nil_r. simpl. auto. }
  destruct (extract_location_from_text nlp set_iter (text ev))
    as [[loc|] d] eqn:Hex; [|exists [], st; auto].
  destruct (truthy loc) eqn:Hloc; [|exists [], st; auto].
  pose proof (get_lat_lon_bounded service loc d st) as Hb.
  pose proof (get_lat_lon_sent loc d st) as Hsent.
  pose proof (get_lat_lon_in_bounds loc d st) as Hin.
  destruct (get_lat_lon_returns service loc d st) as (c & st' & E).
  rewrite E in *. simpl in *.
  destruct c as [[lat lon]|]; [|exists [], st'; auto].
  destruct (float_truthy lat) eqn:Hlat; [|exists [], st'; auto].
  eexists (_ :: nil), st'. split; [reflexivity|]. split; [|auto].
  right. eexists. split; [reflexivity|]. split.
  - unfold assembled_from. simpl. rewrite Hex. repeat split; assumption.
  - simpl. intros Hst. apply (Hin lat lon Hst). reflexivity.
Qed.

(** the query an event sends, if it sends one: the search query of the
    place and the district its text yields, not in the cache before *)
Lemma process_event_query (ev : event) (st : state) :
  exists new,
    calls (snd (process_event nlp set_iter service latlng_to_cell ev st))
    = calls st ++ new /\
    (new = [] \/
     exists loc district,
       extract_location_from_text nlp set_iter (text ev)
       = (Some loc, district) /\
       LOCATION_CACHE st !! cache_key loc district = None /\
       new = [search_query loc district]).
Proof.
  rewrite process_event_eq.
  destruct (extract_location_from_text nlp set_iter (text ev))
    as [[loc|] d] eqn:Hex;
    [|exists []; simpl; rewrite app_nil_r; auto].
  destruct (truthy loc) eqn:Hloc;
    [|exists []; simpl; rewrite app_nil_r; auto].
  rewrite get_lat_lon_eq, Hloc. cbn [negb]. cbv zeta.
  destruct (LOCATION_CACHE st !! cache_key loc d) as [[lat lon]|] eqn:Hc.
  - destruct (float_truthy lat); exists []; simpl; rewrite app_nil_r; auto.
  - destruct (service (calls st) (search_query loc d)) as [lat lon| |];
      [destruct (in_bounds lat); [destruct (float_truthy lat)|]| |];
      (exists [search_query loc d]; split; [reflexivity|];
       right; exists loc, d; auto).
Qed.

Lemma process_events_cases (all_events : list event) (st : state) :
  exists final_data st',
    process_events nlp set_iter service latlng_to_cell all_events st
    = (Return final_data, st')
    /\ Forall (fun r => exists ev,
                 In ev all_events /\
                 assembled_from nlp set_iter latlng_to_cell ev r /\
                 (bounded st -> in_bounds (latitude r) = true))
         final_data
    /\ (event_date <$> final_data) `sublist_of` (date <$> all_events)
    /\ (bounded st -> bounded st')
    /\ exists new, calls st' = calls st ++ new /\ length new <= length all_events.
Proof.
  revert st. induction all_events as [|ev rest IH]; intros st.
  - exists [], st. simpl. repeat split; auto using sublist_nil_l.
    exists []. rewrite app_nil_r. auto.
  - simpl. unfold bind at 1.
    destruct (process_event_cases ev st)
      as (new & st1 & -> & Hnew & Hb1 & (s1 & Hs1 & Hl1)).
    unfold bind at 1.
    destruct (IH st1) as (more & st2 & -> & Hmore & Hsub & Hb2 & (s2 & Hs2 & Hl2)).
    exists (new ++ more), st2. split; [reflexivity|].
    split; [|split; [|split]].
    + apply Forall_app. split.
      * destruct Hnew as [->|(r & -> & Hr & Hlat)]; [apply Forall_nil_2|].
        apply Forall_singleton. exists ev. auto.
      * eapply Forall_impl; [exact Hmore|].
        intros r (e & He & Hr & Hlat). exists e. auto.
    + destruct Hnew as [->|(r & -> & Hr & _)]; simpl.
      * apply sublist_cons, Hsub.
      * destruct Hr as (-> & _). apply sublist_skip, Hsub.
    + auto.
    + exists (s1 ++ s2). rewrite Hs2, Hs1, app_assoc.
      split; [reflexivity|]. rewrite length_app. simpl. lia.
Qed.

End Steps.

(** *** [max] *)

Lemma max_from_in (key : string -> nat) (best : string) (xs : list string) :
  In (max_from key best xs) (best :: xs).
Proof.
  revert best. induction xs as [|x rest IH]; intros best; [left; reflexivity|].
  simpl. destruct (Nat.ltb (key best) (key x)).
  - right. apply IH.
  - destruct (IH best) as [H|H]; [left; exact H|right; right; exact H].
Qed.

Lemma max_from_ge (key : string -> nat) (best : string) (xs : list string)
  (x : string) :
  In x (best :: xs) -> key x <= key (max_from key best xs).
Proof.
  revert best x. induction xs as [|y rest IH]; intros best x.
  - intros [<-|[]]. reflexivity.
  - simpl. destruct (Nat.ltb (key best) (key y)) eqn:E.
    + apply Nat.ltb_lt in E. intros [<-|H].
      * specialize (IH y y (or_introl eq_refl)). lia.
      * apply IH, H.
    + apply Nat.ltb_ge in E. intros [<-|[<-|H]].
      * apply IH. left. reflexivity.
      * specialize (IH best best (or_introl eq_refl)). lia.
      * apply IH. right. exact H.
Qed.

Lemma not_mem (x : string) (xs : list string) :
  negb (mem x xs) = true <-> ~ In x xs.
Proof.
  unfold mem. rewrite negb_true_iff. split.
  - intros H Hin. assert (existsb (String.eqb x) xs = true); [|congruence].
    apply existsb_exists. exists x. split; [exact Hin|apply String.eqb_refl].
  - intros H. destruct (existsb (String.eqb x) xs) eqn:E; [|reflexivity].
    apply existsb_exists in E as (y & Hy & Hxy).
    apply String.eqb_eq in Hxy as ->. contradiction.
Qed.

(** what makes a candidate *)
Lemma candidates_of_spec (nlp : string -> list (string * string))
  (text c : string) :
  In c (candidates_of nlp text) <->
  In (c, "GPE") (nlp text) /\ ~ In c IGNORE /\ ~ In c KERALA_DISTRICTS.
Proof.
  unfold candidates_of. rewrite filter_In, in_map_iff, andb_true_iff.
  rewrite !not_mem. split.
  - intros [([x l] & <- & Hx) H]. apply filter_In in Hx as [Hx Hl].
    simpl in *. apply String.eqb_eq in Hl as ->. tauto.
  - intros (H1 & H2 & H3). split; [|tauto].
    exists (c, "GPE"). split; [reflexivity|].
    apply filter_In. split; [exact H1|reflexivity].
Qed.

Lemma extract_place_eq (nlp : string -> list (string * string))
  (set_iter : list string -> list string) (text : string) :
  fst (extract_location_from_text nlp set_iter text) =
  if negb (truthy text) then None
  else match candidates_of nlp text with
       | [] => None
       | _ :: _ =>
           py_max (count (candidates_of nlp text))
             (set_iter (candidates_of nlp text))
       end.
Proof.
  unfold extract_location_from_text.
  destruct (negb (truthy text)); [reflexivity|].
  fold IGNORE. fold (candidates_of nlp text).
  destruct (candidates_of nlp text); reflexivity.
Qed.

End MinerMore.

(** X10.  The place that extraction returns is the most mentioned
    candidate.  Provided that iterating over the set of candidates yields
    exactly its members, a returned place is the text of an entity labelled
    GPE, is not one of the ignored words and not a district name, and no
    other such entity text occurs more often among the candidates. *)
Theorem extracted_place_most_mentioned (nlp : string -> list (string * string))
  (set_iter : list string -> list string) (text place : string)
  (Hset : forall l x, In x (set_iter l) <-> In x l)
  (Hplace : fst (Miner.extract_location_from_text nlp set_iter text)
            = Some place) :
  In (place, "GPE") (nlp text) /\
  ~ In place Miner.IGNORE /\
  ~ In place Miner.KERALA_DISTRICTS /\
  forall c,
    In (c, "GPE") (nlp text) -> ~ In c Miner.IGNORE ->
    ~ In c Miner.KERALA_DISTRICTS ->
    Miner.count (Miner.candidates_of nlp text) c
    <= Miner.count (Miner.candidates_of nlp text) place.
Proof.
  rewrite MinerMore.extract_place_eq in Hplace.
  destruct (negb (PyStr.truthy text)); [discriminate|].
  destruct (Miner.candidates_of nlp text) as [|c0 cs] eqn:Hc; [discriminate|].
  rewrite <- Hc in *. unfold Miner.py_max in Hplace.
  destruct (set_iter (Miner.candidates_of nlp text)) as [|x xs] eqn:Hs;
    [discriminate|].
  injection Hplace as <-.
  assert (Hin : In (Miner.max_from (Miner.count (Miner.candidates_of nlp text))
                      x xs) (Miner.candidates_of nlp text)).
  { apply Hset. rewrite Hs. apply MinerMore.max_from_in. }
  apply MinerMore.candidates_of_spec in Hin as (H1 & H2 & H3).
  repeat split; try assumption.
  intros c Hc1 Hc2 Hc3. apply MinerMore.max_from_ge. rewrite <- Hs.
  apply Hset, MinerMore.candidates_of_spec. auto.
Qed.

Lemma extracted_place_most_mentioned_witness :
  let nlp : string -> list (string * string) := fun _ =>
    [ ("Adimali", "GPE"); ("Kerala", "GPE"); ("Munnar", "GPE");
      ("Idukki", "GPE"); ("Munnar", "GPE"); ("Forest Dept", "ORG") ] in
  fst (Miner.extract_location_from_text nlp (fun l => l)
         "Munnar: herd crosses from Adimali to Munnar, Idukki, Kerala")
  = Some "Munnar" /\
  Miner.count (Miner.candidates_of nlp
     "Munnar: herd crosses from Adimali to Munnar, Idukki, Kerala") "Adimali"
  <= Miner.count (Miner.candidates_of nlp
     "Munnar: herd crosses from Adimali to Munnar, Idukki, Kerala") "Munnar".
Proof.
  intros nlp.
  assert (Hplace :
    fst (Miner.extract_location_from_text nlp (fun l => l)
           "Munnar: herd crosses from Adimali to Munnar, Idukki, Kerala")
    = Some "Munnar") by (vm_compute; reflexivity).
  split; [exact Hplace|].
  destruct (extracted_place_most_mentioned nlp (fun l => l) _ "Munnar"
              (fun l x => iff_refl _) Hplace) as (_ & _ & _ & Hmax).
  apply Hmax.
  - simpl. auto.
  - intros H. simpl in H. repeat destruct H as [H|H]; try discriminate H.
    exact H.
  - intros H. simpl in H. repeat destruct H as [H|H]; try discriminate H.
    exact H.
Defined.

(** X11.  Single-query mode never hands out a latitude outside the bounds,
    and the test [if lat] never drops a resolved event.  In a state whose
    cache holds latitudes within the bounds only (the empty cache is one,
    and every request and every event leaves one behind), coordinates
    returned by [get_lat_lon], from the service or from the cache, have a
    latitude strictly between 8.0 and 13.0; such a latitude is truthy; and
    the event they were resolved for appends exactly one record, with these
    coordinates.  So every record of the pipeline has its latitude within
    the bounds. *)
Theorem resolved_latitude_in_bounds (nlp : string -> list (string * string))
  (set_iter : list string -> list string) (service : Service.oracle)
  (latlng_to_cell : float -> float -> nat -> string)
  (ev : Miner.event) (loc : string) (district : option string)
  (lat lon : float) (st st1 : Miner.state)
  (Hst : Miner.bounded st)
  (Hplace : Miner.extract_location_from_text nlp set_iter (Miner.text ev)
            = (Some loc, district))
  (Hcoords : Miner.get_lat_lon service loc district st
             = (Eff.Return (Some (lat, lon)), st1)) :
  (PrimFloat.ltb 8 lat = true /\ PrimFloat.ltb lat 13 = true) /\
  Miner.float_truthy lat = true /\
  (exists r,
     Miner.process_event nlp set_iter service latlng_to_cell ev st
     = (Eff.Return [r], st1) /\
     Miner.latitude r = lat /\ Miner.longitude r = lon /\
     Miner.location_name r = loc /\ Miner.district_context r = district) /\
  Miner.bounded st1 /\
  (forall reqs,
     Miner.bounded (snd (Miner.resolve_all service reqs Miner.init))) /\
  (forall all_events,
     exists final_data st',
       Miner.process_events nlp set_iter service latlng_to_cell all_events
         Miner.init = (Eff.Return final_data, st') /\
       Miner.bounded st' /\
       Forall (fun r => PrimFloat.ltb 8 (Miner.latitude r) = true /\
                        PrimFloat.ltb (Miner.latitude r) 13 = true)
         final_data).
Proof.
  assert (Hin : Miner.in_bounds lat = true).
  { apply (MinerMore.get_lat_lon_in_bounds service loc district st lat lon Hst).
    rewrite Hcoords. reflexivity. }
  pose proof (MinerFacts.in_bounds_truthy lat Hin) as Hlat.
  split; [apply andb_true_iff, Hin|]. split; [exact Hlat|].
  split; [|split; [|split]].
  - rewrite MinerFacts.process_event_eq, Hplace.
    destruct (PyStr.truthy loc) eqn:Hloc.
    + rewrite Hcoords, Hlat. eexists. split; [reflexivity|]. simpl. auto.
    + rewrite MinerFacts.get_lat_lon_eq, Hloc in Hcoords. discriminate.
  - pose proof (MinerFacts.get_lat_lon_bounded service loc district st Hst)
      as Hb.
    rewrite Hcoords in Hb. exact Hb.
  - intros reqs.
    apply MinerFacts.resolve_all_bounded, MinerFacts.bounded_init.
  - intros all_events.
    destruct (MinerMore.process_events_cases nlp set_iter service
                latlng_to_cell all_events Miner.init)
      as (d & st' & E & Hall & _ & Hb & _).
    exists d, st'. split; [exact E|].
    split; [apply Hb, MinerFacts.bounded_init|].
    eapply Forall_impl; [exact Hall|]. intros r (ev0 & _ & _ & Hr).
    apply andb_true_iff, Hr, MinerFacts.bounded_init.
Qed.

Lemma resolved_latitude_in_bounds_witness :
  let nlp : string -> list (string * string) :=
    fun _ => [("Munnar", "GPE"); ("Idukki", "GPE")] in
  let service : Service.oracle := fun _ q =>
    if String.eqb q "Munnar, Idukki, Kerala"
    then Service.Located 10 77 else Service.Located 48.5 2.25 in
  let ev :=
    {| Miner.text := "Tiger seen near Munnar in Idukki";
       Miner.date := "Unknown";
       Miner.source_type := "Citizen Video";
       Miner.url := "" |} in
  (PrimFloat.ltb 8 10 = true /\ PrimFloat.ltb 10 13 = true) /\
  Miner.float_truthy 10 = true /\
  exists r,
    fst (Miner.process_event nlp (fun l => l) service (fun _ _ _ => "")
           ev Miner.init) = Eff.Return [r] /\
    Miner.latitude r = 10%float.
Proof.
  intros nlp service ev.
  destruct (resolved_latitude_in_bounds nlp (fun l => l) service
              (fun _ _ _ => "") ev "Munnar" (Some "Idukki") 10 77 Miner.init
              (snd (Miner.get_lat_lon service "Munnar" (Some "Idukki")
                      Miner.init))
              MinerFacts.bounded_init eq_refl eq_refl)
    as (H1 & H2 & (r & Hr & Hlat & _) & _).
  split; [exact H1|]. split; [exact H2|].
  exists r. rewrite Hr. split; [reflexivity|exact Hlat].
Defined.

(** X12.  The shape of phase C, event by event.  An event always returns;
    it appends no record or one; it sends no query or one, and the one it
    sends is the search query of the place and the district its own text
    yields, for a key that was not in the cache.  The loop hands the state
    from each event to the next and puts the records of an event after
    those of the events before it and before those of the events after it,
    so the records keep the order of the events.  In total there are at
    most as many records, and as many queries, as events. *)
Theorem pipeline_one_record_one_call_per_event
  (nlp : string -> list (string * string))
  (set_iter : list string -> list string) (service : Service.oracle)
  (latlng_to_cell : float -> float -> nat -> string) :
  (forall ev st,
     exists data st1 new,
       Miner.process_event nlp set_iter service latlng_to_cell ev st
       = (Eff.Return data, st1) /\
       length data <= 1 /\
       Miner.calls st1 = (Miner.calls st ++ new)%list /\
       (new = [] \/
        exists loc district,
          Miner.extract_location_from_text nlp set_iter (Miner.text ev)
          = (Some loc, district) /\
          Miner.LOCATION_CACHE st !! Miner.cache_key loc district = None /\
          new = [Miner.search_query loc district])) /\
  (forall before ev rest st,
     exists earlier st0 data st1 more st2,
       Miner.process_events nlp set_iter service latlng_to_cell before st
       = (Eff.Return earlier, st0) /\
       Miner.process_event nlp set_iter service latlng_to_cell ev st0
       = (Eff.Return data, st1) /\
       Miner.process_events nlp set_iter service latlng_to_cell rest st1
       = (Eff.Return more, st2) /\
       Miner.process_events nlp set_iter service latlng_to_cell
         (before ++ ev :: rest) st
       = (Eff.Return (earlier ++ data ++ more)%list, st2)) /\
  (forall all_events st,
     exists final_data st',
       Miner.process_events nlp set_iter service latlng_to_cell all_events st
       = (Eff.Return final_data, st') /\
       (Miner.event_date <$> final_data)
         `sublist_of` (Miner.date <$> all_events) /\
       length final_data <= length all_events /\
       exists new,
         Miner.calls st' = (Miner.calls st ++ new)%list /\
         length new <= length all_events).
Proof.
  split; [|split].
  - intros ev st.
    destruct (MinerMore.process_event_cases nlp set_iter service
                latlng_to_cell ev st) as (data & st1 & E & Hdata & _).
    destruct (MinerMore.process_event_query nlp set_iter service
                latlng_to_cell ev st) as (new & Hnew & Hq).
    rewrite E in Hnew. exists data, st1, new.
    split; [exact E|]. split; [|split; [exact Hnew|exact Hq]].
    destruct Hdata as [->|(r & -> & _)]; simpl; lia.
  - intros before ev rest st.
    apply MinerFacts.process_events_middle.
  - intros all_events st.
    destruct (MinerMore.process_events_cases nlp set_iter service
                latlng_to_cell all_events st)
      as (d & st' & E & _ & Hsub & _ & Hcalls).
    exists d, st'. split; [exact E|]. split; [exact Hsub|].
    split; [|exact Hcalls].
    apply sublist_length in Hsub. rewrite !length_fmap in Hsub. exact Hsub.
Qed.

(** ** Records, keywords, keys and the sorted export *)

Module RecordFacts.
Import PyStr PyStrFacts Eff Service Miner MinerFacts LadderFacts.

Lemma length_take (n : nat) (s : string) : String.length (take n s) <= n.
Proof.
  unfold take. revert s. induction n as [|n IH]; intros s.
  - destruct s; simpl; lia.
  - destruct s as [|c r]; simpl; [lia|]. specialize (IH r). lia.
Qed.

Lemma species_of_tags (t : string) :
  In (species_of t)
    ["Elephant"; "Tiger"; "Wild Boar"; "Gaur"; "Leopard"; "Unknown"].
Proof.
  unfold species_of.
  destruct (str_in "elephant" (lower t)); [simpl; auto|].
  destruct (str_in "tiger" (lower t)); [simpl; auto|].
  destruct (str_in "boar" (lower t)); [simpl; auto|].
  destruct (str_in "gaur" (lower t) || str_in "bison" (lower t));
    [simpl; auto|].
  destruct (str_in "leopard" (lower t)); simpl; auto 10.
Qed.

(** *** containment *)

Lemma lower_append (a b : string) : lower (a +:+ b) = lower a +:+ lower b.
Proof.
  induction a as [|c r IH]; [reflexivity|].
  rewrite append_cons. simpl. rewrite IH. reflexivity.
Qed.

Lemma prefix_append (n b : string) : String.prefix n (n +:+ b) = true.
Proof.
  induction n as [|c r IH]; [destruct b; reflexivity|].
  rewrite append_cons. simpl. destruct (ascii_dec c c); [exact IH|congruence].
Qed.

Lemma str_in_prefix (n s : string) :
  String.prefix n s = true -> str_in n s = true.
Proof. intros H. destruct s; cbn [str_in]; rewrite H; reflexivity. Qed.

Lemma str_in_here (n b : string) : str_in n (n +:+ b) = true.
Proof. apply str_in_prefix, prefix_append. Qed.

Lemma str_in_later (n a t : string) :
  str_in n t = true -> str_in n (a +:+ t) = true.
Proof.
  intros H. induction a as [|c r IH]; [exact H|].
  rewrite append_cons. simpl. rewrite IH. apply orb_true_r.
Qed.

(** *** keys *)

Lemma split_at_last_underscore (p1 p2 h1 h2 : string) :
  no_underscore h1 = true -> no_underscore h2 = true ->
  p1 +:+ "_" +:+ h1 = p2 +:+ "_" +:+ h2 -> p1 = p2 /\ h1 = h2.
Proof.
  intros H1 H2. revert p2. induction p1 as [|c r IH]; intros p2 E.
  - destruct p2 as [|c2 r2].
    + change (String "_" h1 = String "_" h2) in E. injection E as E. auto.
    + exfalso. change (String "_" h1 = String c2 (r2 +:+ "_" +:+ h2)) in E.
      injection E as Ec E. rewrite E in H1.
      unfold no_underscore in H1. rewrite all_append in H1.
      apply andb_true_iff in H1 as [_ H1]. discriminate.
  - destruct p2 as [|c2 r2].
    + exfalso. change (String c (r +:+ "_" +:+ h1) = String "_" h2) in E.
      injection E as Ec E. rewrite <- E in H2.
      unfold no_underscore in H2. rewrite all_append in H2.
      apply andb_true_iff in H2 as [_ H2]. discriminate.
    + rewrite !append_cons in E. injection E as -> E.
      destruct (IH r2 E) as [-> ->]. auto.
Qed.

(** a district context is absent or one of the twelve names *)
Lemma district_context_listed (nlp : string -> list (string * string))
  (set_iter : list string -> list string) (text d : string) :
  snd (extract_location_from_text nlp set_iter text) = Some d ->
  In d KERALA_DISTRICTS /\ str_in d text = true.
Proof.
  unfold extract_location_from_text.
  destruct (negb (truthy text)); [discriminate|]. cbv zeta.
  destruct (List.filter _ _); cbn [snd];
    apply (find_some (fun dist => str_in dist text)).
Qed.

Lemma format_hint_listed (h : option string) :
  match h with Some d => In d KERALA_DISTRICTS | None => True end ->
  no_underscore (format_hint h) = true /\
  (h = None <-> format_hint h = "None").
Proof.
  destruct h as [d|]; [|split; [reflexivity|tauto]].
  intros H. simpl in H.
  repeat (destruct H as [<-|H];
          [split; [reflexivity|split; discriminate]|]).
  destruct H.
Qed.

(** *** sorted rows *)

Lemma strongly_sorted_lookup {A} (R : relation A) (l : list A) (i j : nat)
  (x y : A) :
  StronglySorted R l -> i < j -> l !! i = Some x -> l !! j = Some y -> R x y.
Proof.
  intros Hs. revert i j x y.
  induction Hs as [|a l Hs IH Hall]; intros i j x y Hij Hi Hj; [discriminate|].
  destruct j as [|j]; [lia|]. simpl in Hj.
  destruct i as [|i].
  - injection Hi as <-. rewrite Forall_forall in Hall. apply Hall.
    eapply list_elem_of_lookup_2. exact Hj.
  - simpl in Hi. apply (IH i j); [lia|assumption..].
Qed.

Lemma unknown_above_digits (c : ascii) (r : string) :
  isdigit c = true -> String.leb "Unknown" (String c r) = false.
Proof. by_cases_on_char c. Qed.

End RecordFacts.

(** X13.  Every record of the pipeline is well formed and traceable to an
    event: its description has at most 100 characters, its species is one of
    the six tags, its place name is not empty, its cell is the cell of its
    own coordinates at resolution 8, and it carries the source type and the
    link of an event whose text yields exactly its place and district. *)
Theorem records_well_formed (nlp : string -> list (string * string))
  (set_iter : list string -> list string) (service : Service.oracle)
  (latlng_to_cell : float -> float -> nat -> string)
  (all_events : list Miner.event) (st : Miner.state) :
  exists final_data st',
    Miner.process_events nlp set_iter service latlng_to_cell all_events st
    = (Eff.Return final_data, st') /\
    Forall
      (fun r =>
         String.length (Miner.description r) <= 100 /\
         In (Miner.species r)
           ["Elephant"; "Tiger"; "Wild Boar"; "Gaur"; "Leopard"; "Unknown"] /\
         Miner.location_name r <> "" /\
         Miner.hex_id r
         = latlng_to_cell (Miner.latitude r) (Miner.longitude r) 8 /\
         exists ev,
           In ev all_events /\
           Miner.rec_source_type r = Miner.source_type ev /\
           Miner.rec_url r = Miner.url ev /\
           Miner.extract_location_from_text nlp set_iter (Miner.text ev)
           = (Some (Miner.location_name r), Miner.district_context r))
      final_data.
Proof.
  destruct (MinerMore.process_events_cases nlp set_iter service latlng_to_cell
              all_events st) as (d & st' & E & Hall & _).
  exists d, st'. split; [exact E|].
  eapply Forall_impl; [exact Hall|].
  intros r (ev & Hev & (Hdate & Hsrc & Hurl & Hdesc & Hsp & Hhex & Hex & Hloc & _)
            & _).
  split; [rewrite Hdesc; apply RecordFacts.length_take|].
  split; [rewrite Hsp; apply RecordFacts.species_of_tags|].
  split.
  { intros Hempty. rewrite Hempty in Hloc. discriminate. }
  split; [exact Hhex|]. exists ev. auto.
Qed.

(** X14.  A text that mentions an elephant, in any mix of upper and lower
    case and wherever in the text, is tagged [Elephant], whatever other
    keywords it contains. *)
Theorem elephant_in_any_case (before word after : string)
  (Hword : PyStr.lower word = "elephant") :
  Miner.species_of (before +:+ word +:+ after) = "Elephant".
Proof.
  unfold Miner.species_of.
  rewrite !RecordFacts.lower_append, Hword.
  rewrite (RecordFacts.str_in_later "elephant" (PyStr.lower before)
             ("elephant" +:+ PyStr.lower after)
             (RecordFacts.str_in_here "elephant" (PyStr.lower after))).
  reflexivity.
Qed.

Lemma elephant_in_any_case_witness :
  Miner.species_of ("Tiger and " +:+ "ELEphant" +:+ " seen near Munnar")
  = "Elephant".
Proof.
  apply (elephant_in_any_case "Tiger and " "ELEphant" " seen near Munnar").
  reflexivity.
Defined.

(** X15.  In the sorted export the rows without a date come first: when
    every date is the sentinel [Unknown] or starts with a digit, and the
    sort of pandas returned, no row that follows a dated row in the exported
    frame carries the sentinel. *)
Theorem unknown_dates_sort_first
  (sort_values : list Miner.record -> option (list Miner.record))
  (final_data df : list Miner.record)
  (i j : nat) (ri rj : Miner.record)
  (Hsort : Miner.sorts_descending sort_values)
  (Hdated : Forall (fun r => Miner.dated (Miner.event_date r) = true) final_data)
  (Hok : is_Some (sort_values final_data))
  (Hexport : Miner.save sort_values final_data = Some df)
  (Hi : df !! i = Some ri) (Hj : df !! j = Some rj) (Hij : i < j)
  (Hunknown : Miner.event_date rj = "Unknown") :
  Miner.event_date ri = "Unknown".
Proof.
  destruct Hok as [sorted Hsorted].
  assert (Hdf : df = sorted).
  { unfold Miner.save in Hexport. destruct final_data; [discriminate|].
    rewrite Hsorted in Hexport. injection Hexport as <-. reflexivity. }
  subst df. destruct (Hsort _ _ Hsorted) as [Hs Hp].
  apply Sorted_StronglySorted in Hs;
    [|intros x y z Hxy Hyz; exact (Miner.date_desc_trans x y z Hxy Hyz)].
  pose proof (RecordFacts.strongly_sorted_lookup _ _ i j ri rj Hs Hij Hi Hj)
    as Hle.
  unfold Miner.date_desc, String.le in Hle. rewrite Hunknown in Hle.
  assert (Hri : Miner.dated (Miner.event_date ri) = true).
  { rewrite Forall_forall in Hdated. apply Hdated.
    rewrite <- Hp. eapply list_elem_of_lookup_2. exact Hi. }
  unfold Miner.dated in Hri. apply orb_true_iff in Hri as [Hri|Hri].
  - apply String.eqb_eq, Hri.
  - destruct (Miner.event_date ri) as [|c r]; [discriminate|].
    rewrite (RecordFacts.unknown_above_digits c r Hri) in Hle. destruct Hle.
Qed.

Lemma unknown_dates_sort_first_witness :
  let row date :=
    {| Miner.event_date := date; Miner.hex_id := ""; Miner.latitude := 10;
       Miner.longitude := 77; Miner.location_name := "Munnar";
       Miner.district_context := None; Miner.species := "Unknown";
       Miner.rec_source_type := "News/Blog"; Miner.description := "";
       Miner.rec_url := "" |} in
  Miner.event_date (row "Unknown") = "Unknown".
Proof.
  intros row.
  apply (unknown_dates_sort_first Miner.sort_values_stable
           [row "2024-03-09"; row "Unknown"; row "2024-05-01"; row "Unknown"]
           [row "Unknown"; row "Unknown"; row "2024-05-01"; row "2024-03-09"]
           0 1 (row "Unknown") (row "Unknown")).
  - exact MinerFacts.sort_values_stable_sorts.
  - repeat constructor.
  - eexists. reflexivity.
  - vm_compute. reflexivity.
  - reflexivity.
  - reflexivity.
  - lia.
  - reflexivity.
Defined.

(** X16.  Within the pipeline no two different requests share a cache key:
    the hint is a district context, that is, absent or one of the twelve
    district names, and then equal keys mean equal places and equal hints.
    An answer served from the cache was therefore cached for the very same
    place and district. *)
Theorem pipeline_keys_do_not_collide (nlp : string -> list (string * string))
  (set_iter : list string -> list string)
  (text1 text2 place1 place2 : string)
  (Hkey :
     Miner.cache_key place1
       (snd (Miner.extract_location_from_text nlp set_iter text1))
     = Miner.cache_key place2
         (snd (Miner.extract_location_from_text nlp set_iter text2))) :
  place1 = place2 /\
  snd (Miner.extract_location_from_text nlp set_iter text1)
  = snd (Miner.extract_location_from_text nlp set_iter text2).
Proof.
  assert (Hlisted : forall text,
    match snd (Miner.extract_location_from_text nlp set_iter text) with
    | Some d => In d Miner.KERALA_DISTRICTS
    | None => True
    end).
  { intros text.
    destruct (snd (Miner.extract_location_from_text nlp set_iter text))
      as [d|] eqn:E; [|exact I].
    apply (RecordFacts.district_context_listed nlp set_iter text d E). }
  pose proof (Hlisted text1) as H1. pose proof (Hlisted text2) as H2.
  destruct (snd (Miner.extract_location_from_text nlp set_iter text1)) as [d1|];
    destruct (snd (Miner.extract_location_from_text nlp set_iter text2)) as [d2|].
  - destruct (RecordFacts.format_hint_listed (Some d1) H1) as [Hn1 _].
    destruct (RecordFacts.format_hint_listed (Some d2) H2) as [Hn2 _].
    destruct (RecordFacts.split_at_last_underscore _ _ _ _ Hn1 Hn2 Hkey)
      as [-> E]. simpl in E. subst. auto.
  - destruct (RecordFacts.format_hint_listed (Some d1) H1) as [Hn1 Hnone].
    destruct (RecordFacts.split_at_last_underscore place1 place2
                (Miner.format_hint (Some d1)) (Miner.format_hint None)
                Hn1 eq_refl Hkey) as [_ E].
    apply Hnone in E. discriminate.
  - destruct (RecordFacts.format_hint_listed (Some d2) H2) as [Hn2 Hnone].
    destruct (RecordFacts.split_at_last_underscore place1 place2
                (Miner.format_hint None) (Miner.format_hint (Some d2))
                eq_refl Hn2 Hkey) as [_ E].
    symmetry in E. apply Hnone in E. discriminate.
  - destruct (RecordFacts.split_at_last_underscore place1 place2
                (Miner.format_hint None) (Miner.format_hint None)
                eq_refl eq_refl Hkey) as [-> _]. auto.
Qed.

Lemma pipeline_keys_do_not_collide_witness :
  "Munnar" = "Munnar" /\
  snd (Miner.extract_location_from_text (fun _ => []) (fun l => l)
         "Herd near Munnar, Idukki")
  = snd (Miner.extract_location_from_text (fun _ => []) (fun l => l)
           "Idukki: tusker in Munnar town").
Proof.
  apply (pipeline_keys_do_not_collide (fun _ => []) (fun l => l)
           "Herd near Munnar, Idukki" "Idukki: tusker in Munnar town"
           "Munnar" "Munnar").
  reflexivity.
Defined.

(** ** Dates and the first two phases *)

Module DateFacts.
Import PyStr PyStrFacts Dates LadderFacts.

Lemma digit_val_le (c : ascii) : isdigit c = true -> digit_val c <= 9.
Proof.
  destruct c as [[] [] [] [] [] [] [] []]; vm_compute; try discriminate;
    intros _; repeat constructor.
Qed.

Lemma digit_char_ok (k : nat) :
  k < 10 -> isdigit (digit_char k) = true /\ digit_val (digit_char k) = k.
Proof.
  intros Hk. do 10 (destruct k as [|k]; [split; reflexivity|]). lia.
Qed.

(** the digits of a number below 10000 *)
Lemma four_digits_sum (y : nat) :
  y < 100 * 100 ->
  y / 1000 < 10 /\ y / 100 mod 10 < 10 /\
  y mod 100 / 10 < 10 /\ y mod 100 mod 10 < 10 /\
  1000 * (y / 1000) + 100 * (y / 100 mod 10)
  + 10 * (y mod 100 / 10) + y mod 100 mod 10 = y.
Proof.
  intros Hy.
  pose proof (Nat.mod_upper_bound y 100).
  pose proof (Nat.div_mod_eq y 100). pose proof (Nat.div_mod_eq (y / 100) 10).
  pose proof (Nat.div_mod_eq (y mod 100) 10).
  assert (y / 100 / 10 = y / 1000) by (rewrite Nat.Div0.div_div; reflexivity).
  repeat split; try (apply Nat.mod_upper_bound; lia);
    try (apply Nat.Div0.div_lt_upper_bound; lia).
  lia.
Qed.

(** every year below 10000 is read back from its four digits *)
Lemma year4_four_digits (y : nat) (rest : string) :
  y < 100 * 100 -> year4 (four_digits y +:+ rest) = Some (y, rest).
Proof.
  intros Hy. destruct (four_digits_sum y Hy) as (Ha & Hb & Hc & Hd & Hsum).
  destruct (digit_char_ok _ Ha) as [Ha1 Ha2].
  destruct (digit_char_ok _ Hb) as [Hb1 Hb2].
  destruct (digit_char_ok _ Hc) as [Hc1 Hc2].
  destruct (digit_char_ok _ Hd) as [Hd1 Hd2].
  unfold four_digits, two_digits. rewrite !append_cons.
  change ("" +:+ rest) with rest. cbn [year4].
  rewrite Ha1, Hb1, Hc1, Hd1, Ha2, Hb2, Hc2, Hd2. cbn [andb].
  rewrite Hsum. reflexivity.
Qed.

Lemma year4_bound (s rest : string) (y : nat) :
  year4 s = Some (y, rest) -> y < 100 * 100.
Proof.
  destruct s as [|a [|b [|c [|d r]]]]; try discriminate. simpl.
  destruct (isdigit a) eqn:Ha; [|discriminate].
  destruct (isdigit b) eqn:Hb; [|discriminate].
  destruct (isdigit c) eqn:Hc; [|discriminate].
  destruct (isdigit d) eqn:Hd; [|discriminate].
  simpl. intros [= <- _].
  pose proof (digit_val_le a Ha). pose proof (digit_val_le b Hb).
  pose proof (digit_val_le c Hc). pose proof (digit_val_le d Hd). lia.
Qed.

(** a zero-padded month and day are read back as they are *)
Lemma month_day_match {A} (x : A) (m d : nat) :
  1 <= m <= 12 -> 1 <= d <= 31 ->
  first_match month_alts
    (fun m' r1 => first_match day_alts (fun d' r2 => Some (x, m', d', r2)) r1)
    (two_digits m +:+ two_digits d)
  = Some (x, m, d, "").
Proof.
  intros Hm Hd.
  assert (Hm' : In m (seq 1 12)) by (apply in_seq; lia).
  assert (Hd' : In d (seq 1 31)) by (apply in_seq; lia).
  clear Hm Hd. cbn [seq In] in Hm', Hd'.
  repeat (destruct Hm' as [<-|Hm']); try (destruct Hm');
    repeat (destruct Hd' as [<-|Hd']); try (destruct Hd'); reflexivity.
Qed.

Lemma first_match_inv {A} (alts : list alt) (k : nat -> string -> option A)
  (s : string) (x : A) :
  first_match alts k s = Some x -> exists n r, k n r = Some x.
Proof.
  induction alts as [|a rest IH]; [discriminate|]. simpl.
  destruct (a s) as [[n r]|]; [|exact IH].
  destruct (k n r) eqn:E; [|exact IH]. intros [= <-]. eauto.
Qed.

Lemma match_stamp_year (s rest : string) (y m d : nat) :
  match_stamp s = Some (y, m, d, rest) -> y < 100 * 100.
Proof.
  unfold match_stamp. destruct (year4 s) as [[y0 r]|] eqn:E; [|discriminate].
  intros H. apply first_match_inv in H as (m' & r1 & H).
  apply first_match_inv in H as (d' & r2 & [= <- _ _ _]).
  exact (year4_bound _ _ _ E).
Qed.

Lemma valid_date_bounds (y m d : nat) :
  valid_date y m d = true ->
  1 <= y /\ 1 <= m <= 12 /\ 1 <= d <= days_in_month y m.
Proof.
  unfold valid_date. rewrite !andb_true_iff, !Nat.leb_le. tauto.
Qed.

Lemma days_in_month_le (y m : nat) : days_in_month y m <= 31.
Proof.
  unfold days_in_month.
  do 12 (destruct m as [|m]; [try destruct (is_leap y); lia|]). lia.
Qed.

(** the stamp of a valid date is parsed as that date *)
Lemma strptime_stamp (y m d : nat) :
  y < 100 * 100 -> valid_date y m d = true ->
  strptime (four_digits y +:+ two_digits m +:+ two_digits d) = Some (y, m, d).
Proof.
  intros Hy Hv. unfold strptime, match_stamp.
  rewrite (year4_four_digits y _ Hy).
  destruct (valid_date_bounds y m d Hv) as (Hy1 & Hm & Hd).
  pose proof (days_in_month_le y m).
  rewrite (month_day_match y m d Hm ltac:(lia)). simpl. rewrite Hv.
  reflexivity.
Qed.

Lemma take_stamp (y m d : nat) (rest : string) :
  take 8 (four_digits y +:+ two_digits m +:+ two_digits d +:+ rest)
  = four_digits y +:+ two_digits m +:+ two_digits d.
Proof.
  unfold take, four_digits, two_digits. rewrite !append_cons.
  cbn [String.substring]. destruct rest; reflexivity.
Qed.

(** the plain rendering of years starts with a digit and has four digits
    from 1000 on *)
Lemma render_year_plain_well : renders_well render_year_plain.
Proof.
  intros y Hy1 Hy2. unfold render_year_plain.
  destruct (Nat.ltb y 10) eqn:E1.
  { apply Nat.ltb_lt in E1. split; [|lia]. apply digit_char_ok, E1. }
  apply Nat.ltb_ge in E1. destruct (Nat.ltb y 100) eqn:E2.
  { apply Nat.ltb_lt in E2. split; [|lia]. apply digit_char_ok.
    apply Nat.Div0.div_lt_upper_bound. lia. }
  apply Nat.ltb_ge in E2. destruct (Nat.ltb y 1000) eqn:E3.
  { apply Nat.ltb_lt in E3. split; [|lia]. apply digit_char_ok.
    apply Nat.Div0.div_lt_upper_bound. lia. }
  split; [|reflexivity]. apply digit_char_ok.
  apply Nat.Div0.div_lt_upper_bound. lia.
Qed.

Section Rendering.
Variable render_year : nat -> string.

(** what [fmt_date] can be *)
Lemma fmt_date_cases (s : string) :
  fmt_date render_year s = "Unknown" \/
  exists y m d,
    strptime s = Some (y, m, d) /\
    fmt_date render_year s
    = render_year y +:+ "-" +:+ two_digits m +:+ "-" +:+ two_digits d /\
    1 <= y < 100 * 100 /\ 1 <= m <= 12 /\ 1 <= d <= days_in_month y m.
Proof.
  unfold fmt_date, strptime.
  destruct (match_stamp s) as [[[[y m] d] rest]|] eqn:E; [|left; reflexivity].
  destruct (truthy rest); [left; reflexivity|].
  destruct (valid_date y m d) eqn:Hv; [|left; reflexivity].
  right. exists y, m, d. split; [reflexivity|]. split; [reflexivity|].
  pose proof (match_stamp_year _ _ _ _ _ E).
  destruct (valid_date_bounds y m d Hv) as (? & ? & ?). auto.
Qed.

Lemma fmt_date_dated (s : string) :
  renders_well render_year -> Miner.dated (fmt_date render_year s) = true.
Proof.
  intros Hr. destruct (fmt_date_cases s) as [->|(y & m & d & _ & -> & Hy & _)];
    [reflexivity|].
  destruct (Hr y ltac:(lia) ltac:(lia)) as [H _].
  destruct (render_year y) as [|c r]; [destruct H|].
  unfold Miner.dated. rewrite append_cons, H. apply orb_true_r.
Qed.

End Rendering.

End DateFacts.

(** X17.  The date of an event is the sentinel or a well-formed date: for
    every text, formatting gives [Unknown], or the text parses as a year from
    1 to 9999, a month from 1 to 12 and a day that this month has in this
    year, and the result is the year as the platform prints it, a dash, the
    month in two digits, a dash, and the day in two digits. *)
Theorem fmt_date_unknown_or_iso (render_year : nat -> string) (s : string) :
  Dates.fmt_date render_year s = "Unknown" \/
  exists y m d,
    Dates.strptime s = Some (y, m, d) /\
    Dates.fmt_date render_year s
    = render_year y +:+ "-" +:+ Dates.two_digits m +:+ "-" +:+ Dates.two_digits d
    /\ 1 <= y < 100 * 100 /\ 1 <= m <= 12 /\ 1 <= d <= Dates.days_in_month y m.
Proof. apply DateFacts.fmt_date_cases. Qed.

(** X18.  A stamp is turned into its dashed form.  For a valid calendar
    date with a year from 1000 to 9999, printed with four digits, an article
    whose [seendate] starts with the eight digits of the date (whatever
    follows them) and a video whose [upload_date] is these eight digits both
    get the date written year, dash, month, dash, day. *)
Theorem stamp_becomes_iso_date (render_year : nat -> string)
  (y m d : nat) (rest : string) (a : Sources.article) (v : Sources.video)
  (Hyear : 1000 <= y < 100 * 100)
  (Hvalid : Dates.valid_date y m d = true)
  (Hrender : render_year y = Dates.four_digits y)
  (Ha : Sources.seendate a
        = Some (Dates.four_digits y +:+ Dates.two_digits m
                +:+ Dates.two_digits d +:+ rest))
  (Hv : Sources.upload_date v
        = Some (Dates.four_digits y +:+ Dates.two_digits m
                +:+ Dates.two_digits d)) :
  Miner.date (Sources.gdelt_event render_year a)
  = Dates.four_digits y +:+ "-" +:+ Dates.two_digits m +:+ "-" +:+ Dates.two_digits d
  /\
  Miner.date (Sources.youtube_event render_year v)
  = Dates.four_digits y +:+ "-" +:+ Dates.two_digits m +:+ "-" +:+ Dates.two_digits d.
Proof.
  assert (Hfmt : Dates.fmt_date render_year
                   (Dates.four_digits y +:+ Dates.two_digits m
                    +:+ Dates.two_digits d)
                 = Dates.four_digits y +:+ "-" +:+ Dates.two_digits m
                   +:+ "-" +:+ Dates.two_digits d).
  { unfold Dates.fmt_date.
    rewrite (DateFacts.strptime_stamp y m d) by (lia || exact Hvalid).
    unfold Dates.strftime. rewrite Hrender. reflexivity. }
  split.
  - unfold Sources.gdelt_event. cbn [Miner.date]. rewrite Ha.
    cbn [default from_option id]. rewrite DateFacts.take_stamp. exact Hfmt.
  - unfold Sources.youtube_event. cbn [Miner.date]. rewrite Hv.
    cbn [default from_option id]. rewrite Hfmt.
    unfold Dates.four_digits. rewrite LadderFacts.append_cons. reflexivity.
Qed.

Lemma stamp_becomes_iso_date_witness :
  Miner.date (Sources.gdelt_event Dates.render_year_plain
                {| Sources.seendate := Some "20240229T101500Z";
                   Sources.title := Some "Tusker near Munnar";
                   Sources.art_url := None |})
  = "2024-02-29" /\
  Miner.date (Sources.youtube_event Dates.render_year_plain
                {| Sources.upload_date := Some "20240229";
                   Sources.video_title := None;
                   Sources.video_description := None;
                   Sources.webpage_url := None;
                   Sources.video_url := None |})
  = "2024-02-29".
Proof.
  apply (stamp_becomes_iso_date Dates.render_year_plain 2024 2 29 "T101500Z"
           {| Sources.seendate := Some "20240229T101500Z";
              Sources.title := Some "Tusker near Munnar";
              Sources.art_url := None |}
           {| Sources.upload_date := Some "20240229";
              Sources.video_title := None;
              Sources.video_description := None;
              Sources.webpage_url := None;
              Sources.video_url := None |}).
  - lia.
  - reflexivity.
  - reflexivity.
  - reflexivity.
  - reflexivity.
Defined.

(** X19.  Every date the pipeline handles is the sentinel or starts with a
    digit.  When the platform prints years from 1 to 9999 starting with a
    digit, this holds for the date of every event collected in the first
    two phases and for the date of every record assembled from them, so the
    export is sorted on a column of such texts. *)
Theorem pipeline_dates_are_dated (render_year : nat -> string)
  (nlp : string -> list (string * string))
  (set_iter : list string -> list string) (service : Service.oracle)
  (latlng_to_cell : float -> float -> nat -> string)
  (gdelt_raw : list Sources.article) (yt_raw : list Sources.video)
  (st : Miner.state)
  (Hrender : Dates.renders_well render_year) :
  Forall (fun ev => Miner.dated (Miner.date ev) = true)
    (Sources.collect_events render_year gdelt_raw yt_raw) /\
  exists final_data st',
    Miner.process_events nlp set_iter service latlng_to_cell
      (Sources.collect_events render_year gdelt_raw yt_raw) st
    = (Eff.Return final_data, st') /\
    Forall (fun r => Miner.dated (Miner.event_date r) = true) final_data.
Proof.
  assert (Hev : Forall (fun ev => Miner.dated (Miner.date ev) = true)
                  (Sources.collect_events render_year gdelt_raw yt_raw)).
  { unfold Sources.collect_events. apply Forall_app. split; apply Forall_fmap.
    - apply Forall_forall. intros a _. simpl.
      apply DateFacts.fmt_date_dated, Hrender.
    - apply Forall_forall. intros v _. simpl.
      destruct (PyStr.truthy (default "" (Sources.upload_date v)));
        [apply DateFacts.fmt_date_dated, Hrender|reflexivity]. }
  split; [exact Hev|].
  destruct (MinerMore.process_events_cases nlp set_iter service latlng_to_cell
              (Sources.collect_events render_year gdelt_raw yt_raw) st)
    as (data & st' & E & Hall & _).
  exists data, st'. split; [exact E|].
  eapply Forall_impl; [exact Hall|].
  intros r (ev & Hin & (Hdate & _) & _). rewrite Hdate.
  rewrite Forall_forall in Hev. apply Hev, list_elem_of_In, Hin.
Qed.

Lemma pipeline_dates_are_dated_witness :
  Forall (fun ev => Miner.dated (Miner.date ev) = true)
    (Sources.collect_events Dates.render_year_plain
       [ {| Sources.seendate := Some "20240229T101500Z";
            Sources.title := Some "Tusker near Munnar";
            Sources.art_url := None |};
         {| Sources.seendate := None;
            Sources.title := Some "Boar raid";
            Sources.art_url := None |} ]
       []).
Proof.
  apply (pipeline_dates_are_dated Dates.render_year_plain (fun _ => [])
           (fun l => l) (fun _ _ => Service.NoMatch) (fun _ _ _ => "")
           _ [] Miner.init).
  exact DateFacts.render_year_plain_well.
Defined.

(** X20.  The edge cases of the first two phases.  An article without a
    title, or with an empty one, gets an empty text; such an event is dropped
    in phase C without a lookup and without a call.  A video entry always
    gets a text that is not empty, at most the length of its title plus 101
    characters, whatever is missing in it; and an entry without upload date
    gets the date [Unknown]. *)
Theorem source_edge_cases (render_year : nat -> string)
  (nlp : string -> list (string * string))
  (set_iter : list string -> list string) (service : Service.oracle)
  (latlng_to_cell : float -> float -> nat -> string)
  (a : Sources.article) (v : Sources.video) (st : Miner.state) :
  (Sources.title a = None \/ Sources.title a = Some "" ->
   Miner.process_event nlp set_iter service latlng_to_cell
     (Sources.gdelt_event render_year a) st = (Eff.Return [], st)) /\
  PyStr.truthy (Miner.text (Sources.youtube_event render_year v)) = true /\
  String.length (Miner.text (Sources.youtube_event render_year v))
  <= String.length (Sources.or_empty (Sources.video_title v)) + 101 /\
  (Sources.upload_date v = None \/ Sources.upload_date v = Some "" ->
   Miner.date (Sources.youtube_event render_year v) = "Unknown").
Proof.
  split; [|split; [|split]].
  - intros Ht. rewrite MinerFacts.process_event_eq.
    assert (Miner.text (Sources.gdelt_event render_year a) = "") as ->.
    { simpl. destruct Ht as [-> | ->]; reflexivity. }
    reflexivity.
  - simpl. destruct (Sources.or_empty (Sources.video_title v)); reflexivity.
  - simpl. rewrite LadderFacts.length_append, LadderFacts.append_cons. simpl.
    pose proof (RecordFacts.length_take 100
                  (Sources.or_empty (Sources.video_description v))).
    change ("" +:+ ?x) with x. lia.
  - intros Hd. simpl. destruct Hd as [-> | ->]; reflexivity.
Qed.

(** ** The occurrence fetcher *)

Module GbifFacts.
Import PyStr PyStrFacts Gbif LadderFacts.

Section Pages.
Variable search : N -> nat -> page.

(** the records appended for the pages [0 .. k] from [offset] on *)
Lemma fetch_pages_stops (k fuel : nat) (name : string) (taxon : N)
  (offset : nat) :
  (forall i, i < k ->
     results (search taxon (offset + 300 * i)) <> [] /\
     endOfRecords (search taxon (offset + 300 * i)) = false) ->
  results (search taxon (offset + 300 * k)) = [] \/
  endOfRecords (search taxon (offset + 300 * k)) = true ->
  k < fuel ->
  fetch_pages search fuel name taxon offset
  = Some (concat
            (List.map
               (fun i => kept name (results (search taxon (offset + 300 * i))))
               (seq 0 (S k)))).
Proof.
  revert fuel offset. induction k as [|k IH]; intros fuel offset Hbefore Hlast Hk.
  - destruct fuel as [|fuel]; [lia|].
    replace (offset + 300 * 0) with offset in * by lia. simpl.
    replace (offset + 0) with offset in * by lia.
    destruct (results (search taxon offset)) as [|r rs] eqn:E;
      [reflexivity|].
    destruct Hlast as [Hlast|Hlast]; [congruence|]. rewrite Hlast.
    rewrite app_nil_r. reflexivity.
  - destruct fuel as [|fuel]; [lia|].
    destruct (Hbefore 0 ltac:(lia)) as [Hne Hend].
    replace (offset + 300 * 0) with offset in * by lia.
    cbn [fetch_pages]. cbv zeta.
    destruct (results (search taxon offset)) as [|r rs] eqn:E;
      [congruence|].
    rewrite Hend.
    rewrite (IH fuel (offset + 300)).
    + f_equal. change (seq 0 (S (S k))) with (0 :: seq 1 (S k)).
      rewrite <- seq_shift. cbn [List.map concat]. rewrite List.map_map.
      replace (offset + 300 * 0) with offset by lia. rewrite E.
      f_equal. f_equal. apply List.map_ext. intros i.
      replace (offset + 300 + 300 * i) with (offset + 300 * S i) by lia.
      reflexivity.
    + intros i Hi.
      replace (offset + 300 + 300 * i) with (offset + 300 * S i) by lia.
      apply Hbefore. lia.
    + replace (offset + 300 + 300 * k) with (offset + 300 * S k) by lia.
      exact Hlast.
    + lia.
Qed.

(** without an empty page and without the end flag the loop goes on *)
Lemma fetch_pages_runs_on (fuel : nat) (name : string) (taxon : N)
  (offset : nat) :
  (forall i,
     results (search taxon (offset + 300 * i)) <> [] /\
     endOfRecords (search taxon (offset + 300 * i)) = false) ->
  fetch_pages search fuel name taxon offset = None.
Proof.
  revert offset. induction fuel as [|fuel IH]; intros offset H; [reflexivity|].
  destruct (H 0) as [Hne Hend].
  replace (offset + 300 * 0) with offset in * by lia.
  cbn [fetch_pages]. cbv zeta.
  destruct (results (search taxon offset)) as [|r rs]; [congruence|].
  rewrite Hend, (IH (offset + 300)); [reflexivity|].
  intros i. replace (offset + 300 + 300 * i) with (offset + 300 * S i) by lia.
  apply H.
Qed.

End Pages.

Lemma before_T_no_T (s : string) : no_T (before_T s) = true.
Proof.
  induction s as [|c r IH]; [reflexivity|]. simpl.
  destruct (Ascii.eqb c "T") eqn:E; [reflexivity|].
  unfold no_T in *. simpl. rewrite E, IH. reflexivity.
Qed.

Lemma before_T_cut (d rest : string) :
  no_T d = true -> before_T (d +:+ String "T" rest) = d.
Proof.
  induction d as [|c r IH]; intros H; [reflexivity|].
  unfold no_T in *. simpl in H. apply andb_true_iff in H as [Hc Hr].
  rewrite append_cons. simpl. apply negb_true_iff in Hc. rewrite Hc.
  rewrite (IH Hr). reflexivity.
Qed.

Lemma before_T_whole (s : string) : no_T s = true -> before_T s = s.
Proof.
  induction s as [|c r IH]; intros H; [reflexivity|].
  unfold no_T in *. simpl in H. apply andb_true_iff in H as [Hc Hr].
  simpl. apply negb_true_iff in Hc. rewrite Hc, (IH Hr). reflexivity.
Qed.

End GbifFacts.

(** X21.  The pagination of the occurrence fetcher stops exactly when the
    service says so.  If, from offset 0 on in steps of 300, page [k] is the
    first that is empty or carries the end flag, then with fuel for more
    than [k] requests the loop returns, and what it returns is the kept
    records of the pages 0 to [k], in this order. *)
Theorem gbif_pagination_stops (search : N -> nat -> Gbif.page)
  (k fuel : nat) (name : string) (taxon : N)
  (Hbefore : forall i, i < k ->
     Gbif.results (search taxon (300 * i)) <> [] /\
     Gbif.endOfRecords (search taxon (300 * i)) = false)
  (Hlast : Gbif.results (search taxon (300 * k)) = [] \/
           Gbif.endOfRecords (search taxon (300 * k)) = true)
  (Hfuel : k < fuel) :
  Gbif.fetch_pages search fuel name taxon 0
  = Some (concat
            (List.map
               (fun i => Gbif.kept name (Gbif.results (search taxon (300 * i))))
               (seq 0 (S k)))).
Proof.
  apply (GbifFacts.fetch_pages_stops search k fuel name taxon 0);
    assumption.
Qed.

Lemma gbif_pagination_stops_witness :
  let rec := {| Gbif.stateProvince := Some "Kerala";
                Gbif.eventDate := Some "2024-05-01T10:15:00";
                Gbif.decimalLatitude := 10;
                Gbif.decimalLongitude := 77;
                Gbif.basisOfRecord := Some "HUMAN_OBSERVATION";
                Gbif.key := Some 1%N |} in
  let search : N -> nat -> Gbif.page := fun _ offset =>
    {| Gbif.results := if Nat.ltb offset 600 then [rec] else [];
       Gbif.endOfRecords := false |} in
  Gbif.fetch_pages search 5 "Sus scrofa" 2441218 0
  = Some (concat
            (List.map
               (fun i => Gbif.kept "Sus scrofa"
                           (Gbif.results (search 2441218%N (300 * i))))
               (seq 0 3))).
Proof.
  intros rec search.
  apply (gbif_pagination_stops search 2 5 "Sus scrofa" 2441218).
  - intros i Hi. destruct i as [|[|i]]; [split; [discriminate|reflexivity]..|lia].
  - left. reflexivity.
  - lia.
Defined.

(** X22.  The pagination has no bound of its own: against a service whose
    pages are never empty and never carry the end flag the loop does not
    return, whatever number of requests it is given. *)
Theorem gbif_pagination_runs_on (search : N -> nat -> Gbif.page)
  (fuel : nat) (name : string) (taxon : N)
  (Hmore : forall i,
     Gbif.results (search taxon (300 * i)) <> [] /\
     Gbif.endOfRecords (search taxon (300 * i)) = false) :
  Gbif.fetch_pages search fuel name taxon 0 = None.
Proof.
  apply (GbifFacts.fetch_pages_runs_on search fuel name taxon 0). exact Hmore.
Qed.

Lemma gbif_pagination_runs_on_witness :
  let rec := {| Gbif.stateProvince := None;
                Gbif.eventDate := None;
                Gbif.decimalLatitude := 10;
                Gbif.decimalLongitude := 77;
                Gbif.basisOfRecord := None;
                Gbif.key := None |} in
  let search : N -> nat -> Gbif.page := fun _ _ =>
    {| Gbif.results := [rec]; Gbif.endOfRecords := false |} in
  Gbif.fetch_pages search 7 "Sus scrofa" 2441218 0 = None.
Proof.
  intros rec search.
  apply (gbif_pagination_runs_on search 7 "Sus scrofa" 2441218).
  intros i. split; [discriminate|reflexivity].
Defined.

(** X23.  The date of an occurrence is its time stamp up to the first [T]:
    the result never contains a [T]; a stamp made of a date without [T], a
    [T] and a time gives the date; a stamp without [T] is kept whole. *)
Theorem occurrence_date_before_T (d rest s : string)
  (Hd : Gbif.no_T d = true) :
  Gbif.before_T (d +:+ String "T" rest) = d /\
  Gbif.before_T d = d /\
  Gbif.no_T (Gbif.before_T s) = true.
Proof.
  split; [apply GbifFacts.before_T_cut, Hd|].
  split; [apply GbifFacts.before_T_whole, Hd|apply GbifFacts.before_T_no_T].
Qed.

Lemma occurrence_date_before_T_witness :
  Gbif.before_T ("2024-05-01" +:+ String "T" "10:15:00") = "2024-05-01".
Proof.
  apply (occurrence_date_before_T "2024-05-01" "10:15:00" ""). reflexivity.
Defined.

(** X24.  The state test of the occurrence fetcher works on any
    capitalisation: a record whose state mentions Kerala is kept, whatever
    else the state says; a record without a state is kept; and a record
    whose state mentions Tamil or Karnataka and not Kerala is dropped. *)
Theorem occurrence_state_filter (species_name : string) (rec : Gbif.occurrence) :
  (forall before word after,
     PyStr.lower word = "kerala" ->
     Gbif.stateProvince rec = Some (before +:+ word +:+ after) ->
     length (Gbif.kept species_name [rec]) = 1) /\
  (Gbif.stateProvince rec = None ->
   length (Gbif.kept species_name [rec]) = 1) /\
  (forall state before word after,
     Gbif.stateProvince rec = Some state ->
     state = before +:+ word +:+ after ->
     PyStr.lower word = "tamil" \/ PyStr.lower word = "karnataka" ->
     PyStr.str_in "kerala" (PyStr.lower state) = false ->
     Gbif.kept species_name [rec] = []).
Proof.
  unfold Gbif.kept. cbn [List.filter]. split; [|split].
  - intros before word after Hw ->. cbn [default from_option id].
    unfold Gbif.keep_state.
    rewrite !RecordFacts.lower_append, Hw.
    rewrite (RecordFacts.str_in_later "kerala" (PyStr.lower before)
               ("kerala" +:+ PyStr.lower after)
               (RecordFacts.str_in_here "kerala" (PyStr.lower after))).
    reflexivity.
  - intros ->. reflexivity.
  - intros state before word after -> -> Hw Hk. cbn [default from_option id].
    unfold Gbif.keep_state. rewrite Hk.
    rewrite !RecordFacts.lower_append.
    destruct Hw as [-> | ->].
    + rewrite (RecordFacts.str_in_later "tamil" (PyStr.lower before)
                 ("tamil" +:+ PyStr.lower after)
                 (RecordFacts.str_in_here "tamil" (PyStr.lower after))).
      reflexivity.
    + rewrite (RecordFacts.str_in_later "karnataka" (PyStr.lower before)
                 ("karnataka" +:+ PyStr.lower after)
                 (RecordFacts.str_in_here "karnataka" (PyStr.lower after))).
      rewrite andb_false_r. reflexivity.
Qed.

(** X25.  [filter_proxy_conflicts] keeps exactly the rows observed by
    people: every row of the result has the basis [HUMAN_OBSERVATION] and a
    point made of its own longitude and latitude; the rows are a selection
    of the input in its order; and a row with this basis is never lost. *)
Theorem proxy_filter_keeps_human_observations (df : list Gbif.sighting) :
  Forall
    (fun rp =>
       Gbif.basis_of_record (fst rp) = Some "HUMAN_OBSERVATION" /\
       snd rp = (Gbif.longitude (fst rp), Gbif.latitude (fst rp)))
    (Gbif.filter_proxy_conflicts df) /\
  (fst <$> Gbif.filter_proxy_conflicts df) `sublist_of` df /\
  (forall row, In row df ->
     Gbif.basis_of_record row = Some "HUMAN_OBSERVATION" ->
     In row (fst <$> Gbif.filter_proxy_conflicts df)).
Proof.
  unfold Gbif.filter_proxy_conflicts.
  induction df as [|row rest (IH1 & IH2 & IH3)].
  - split; [apply Forall_nil_2|]. split; [apply sublist_nil_l|].
    intros row [].
  - cbn [List.filter].
    destruct (Gbif.basis_of_record row) as [b|] eqn:Hb.
    + destruct (String.eqb b "HUMAN_OBSERVATION") eqn:E.
      * apply String.eqb_eq in E. subst b. cbn [List.map fmap list_fmap].
        split; [apply Forall_cons; split; [split; [exact Hb|reflexivity]|exact IH1]|].
        split; [apply sublist_skip, IH2|].
        intros r [<-|Hr] Hr2; [left; reflexivity|right; apply IH3; assumption].
      * split; [exact IH1|]. split; [apply sublist_cons, IH2|].
        intros r [<-|Hr] Hr2; [|apply IH3; assumption].
        rewrite Hb in Hr2. injection Hr2 as ->. discriminate.
    + split; [exact IH1|]. split; [apply sublist_cons, IH2|].
      intros r [<-|Hr] Hr2; [|apply IH3; assumption].
      rewrite Hb in Hr2. discriminate.
Qed.

(** ** The caches hold replies of the service only *)

Module CacheFacts.
Import PyStr Eff Service.

Lemma ladder_sent_genuine (service : oracle) (st : Geocoding.state)
  (q : string) :
  Geocoding.genuine service st ->
  Geocoding.genuine service
    {| Geocoding.cache := Geocoding.cache st;
       Geocoding.calls := Geocoding.calls st ++ [q] |}.
Proof.
  intros Hst q' v' H. destruct (Hst q' v' H) as (h & later & Hc & Hr).
  exists h, (later ++ [q]). split; [|exact Hr].
  simpl. rewrite Hc, <- app_assoc. reflexivity.
Qed.

Lemma ladder_insert_genuine (service : oracle) (st : Geocoding.state)
  (q : string) (v : option coords) :
  Geocoding.genuine service st ->
  service (Geocoding.calls st) q
  = match v with Some (lat, lon) => Located lat lon | None => NoMatch end ->
  Geocoding.genuine service
    {| Geocoding.cache := <[q := v]> (Geocoding.cache st);
       Geocoding.calls := Geocoding.calls st ++ [q] |}.
Proof.
  intros Hst Hreply q' v'. simpl. intros H.
  destruct (decide (q = q')) as [<-|Hne].
  - rewrite lookup_insert_eq in H. injection H as <-.
    exists (Geocoding.calls st), []. auto.
  - rewrite lookup_insert_ne in H by exact Hne.
    apply (ladder_sent_genuine service st q Hst q' v' H).
Qed.

Lemma try_queries_genuine (service : oracle) (qs : list string)
  (st : Geocoding.state) :
  Geocoding.genuine service st ->
  Geocoding.genuine service (snd (Geocoding.try_queries service qs st)).
Proof.
  revert st. induction qs as [|q rest IH]; intros st Hst; [exact Hst|].
  rewrite LadderFacts.try_queries_cons.
  destruct (negb (truthy (strip q))); [apply IH, Hst|].
  destruct (Geocoding.cache st !! q) as [[c|]|]; [exact Hst|apply IH, Hst|].
  destruct (service (Geocoding.calls st) q) as [lat lon| |] eqn:E.
  - apply (ladder_insert_genuine service st q (Some (lat, lon)) Hst E).
  - apply IH, (ladder_insert_genuine service st q None Hst E).
  - apply (ladder_sent_genuine service st q Hst).
Qed.

Lemma geocode_rows_genuine (service : oracle) (df : list Geocoding.row)
  (st : Geocoding.state) :
  Geocoding.genuine service st ->
  Geocoding.genuine service (snd (Geocoding.geocode_rows service df st)).
Proof.
  revert st. induction df as [|r rest IH]; intros st Hst; [exact Hst|].
  simpl. unfold bind at 1. unfold Geocoding.geocode_row.
  pose proof (try_queries_genuine service (Geocoding.generate_queries r) st Hst)
    as H1.
  destruct (Geocoding.try_queries service (Geocoding.generate_queries r) st)
    as [[c|] st1]; [|exact H1].
  unfold bind at 1. specialize (IH st1 H1).
  destruct (Geocoding.geocode_rows service rest st1) as [[cs|] st2]; exact IH.
Qed.

Lemma single_sent_genuine (service : oracle) (st : Miner.state) (q : string) :
  Miner.genuine service st ->
  Miner.genuine service
    {| Miner.LOCATION_CACHE := Miner.LOCATION_CACHE st;
       Miner.calls := Miner.calls st ++ [q] |}.
Proof.
  intros Hst key lat lon H.
  destruct (Hst key lat lon H) as (l & d & h & later & Hk & Hc & Hr).
  exists l, d, h, (later ++ [q]). split; [exact Hk|]. split; [|exact Hr].
  simpl. rewrite Hc, <- app_assoc. reflexivity.
Qed.

Lemma get_lat_lon_genuine (service : oracle) (location_name : string)
  (district_hint : option string) (st : Miner.state) :
  Miner.genuine service st ->
  Miner.genuine service
    (snd (Miner.get_lat_lon service location_name district_hint st)).
Proof.
  intros Hst. rewrite MinerFacts.get_lat_lon_eq.
  destruct (negb (truthy location_name)); [exact Hst|]. cbv zeta.
  destruct (Miner.LOCATION_CACHE st !! _); [exact Hst|].
  destruct (service _ _) as [lat lon| |] eqn:E;
    try apply (single_sent_genuine service st _ Hst).
  destruct (Miner.in_bounds lat);
    [|apply (single_sent_genuine service st _ Hst)].
  intros key lat' lon'. simpl. intros H.
  destruct (decide (Miner.cache_key location_name district_hint = key))
    as [<-|Hne].
  - rewrite lookup_insert_eq in H. injection H as <- <-.
    exists location_name, district_hint, (Miner.calls st), []. auto.
  - rewrite lookup_insert_ne in H by exact Hne.
    apply (single_sent_genuine service st _ Hst key lat' lon' H).
Qed.

Lemma resolve_all_genuine (service : oracle)
  (reqs : list (string * option string)) (st : Miner.state) :
  Miner.genuine service st ->
  Miner.genuine service (snd (Miner.resolve_all service reqs st)).
Proof.
  revert st. induction reqs as [|[l d] rest IH]; intros st Hst; [exact Hst|].
  simpl. unfold bind at 1.
  pose proof (get_lat_lon_genuine service l d st Hst) as H1.
  destruct (MinerFacts.get_lat_lon_returns service l d st) as (c & st1 & E).
  rewrite E in *. unfold bind at 1. specialize (IH st1 H1).
  destruct (MinerFacts.resolve_all_returns service rest st1) as (cs & st2 & E2).
  rewrite E2 in *. exact IH.
Qed.

End CacheFacts.

(** X26.  The caches never invent an answer.  After a ladder run from the
    empty cache, every entry is what the service replied to the very query
    it is stored under, at the point of the run where that query was sent:
    the log of the queries of the run splits into those sent before, the
    query, and those sent later, and the reply of the service to the query
    after the former is the entry, its coordinates for a positive entry, no
    result for a negative one.  After any requests in single-query mode from
    the empty cache, every cached pair is stored under the key of a place
    and a hint, and is what the service replied to the search query of that
    place and hint at the point of the run where it was sent. *)
Theorem caches_hold_service_replies (service : Service.oracle)
  (df : list Geocoding.row) (reqs : list (string * option string)) :
  (forall q v,
     Geocoding.cache (snd (Geocoding.geocode_rows service df Geocoding.init))
       !! q = Some v ->
     exists h later,
       Geocoding.calls
         (snd (Geocoding.geocode_rows service df Geocoding.init))
       = (h ++ q :: later)%list /\
       service h q = match v with
                     | Some (lat, lon) => Service.Located lat lon
                     | None => Service.NoMatch
                     end) /\
  (forall key lat lon,
     Miner.LOCATION_CACHE (snd (Miner.resolve_all service reqs Miner.init))
       !! key = Some (lat, lon) ->
     exists location_name district_hint h later,
       key = Miner.cache_key location_name district_hint /\
       Miner.calls (snd (Miner.resolve_all service reqs Miner.init))
       = (h ++ Miner.search_query location_name district_hint :: later)%list /\
       service h (Miner.search_query location_name district_hint)
       = Service.Located lat lon).
Proof.
  split.
  - apply (CacheFacts.geocode_rows_genuine service df Geocoding.init).
    intros q v H. simpl in H. rewrite lookup_empty in H. discriminate.
  - apply (CacheFacts.resolve_all_genuine service reqs Miner.init).
    intros key lat lon H. simpl in H. rewrite lookup_empty in H. discriminate.
Qed.
